(** * Batch analysis orchestrator of the video scene detector

    A shallow embedding of the orchestration core of the front end:
    - [BatchGeminiAnalysis.handleBatchAnalyze]: the sequential three-stage
      pipeline over the eligible videos, its accumulators, progress events
      and auto-save checkpoints;
    - [App.handleBatchAnalysisComplete]: the merge of the analyses into
      the result set and the history;
    - [App.generateAndDownloadCSV] and the ordered JSON rendering shared by
      the CSV export, the history export and the JSON panel.

    Around this core the embedding covers the rest of the front end that
    the core meets: the upload of [App] with [sceneDetectionService], the
    history of [App] and its list in [History], the navigation of
    [ResultsCarousel], the effect that starts the batch run, the analysis
    of a single video in [GeminiAnalysis], the drop handler of [UploadZone],
    the file names of [DownloadAllFramesButton] and what [App] renders.

    Effects are explicit: the batch run threads a [BatchState] (the three
    local accumulators and the chronological trace of observable effects)
    through a small exception monad that follows the [try]/[catch]/
    [continue] structure of the component.

    Conventions of the embedding:
    - the enrichment service is a parameter: for each position of the run
      and each request it says how the exchange ends; response bodies have
      the fields the component reads, with the types [types.ts] and the
      component give them;
    - the two callback properties are parameters that return or throw;
      [appProps] is the wiring of [App], whose callbacks return;
    - a number that is only stored and printed is a decimal in the form
      on which [Number::toString] is specified; the progress percentage,
      which is computed, is rounded as binary64 rounds;
    - a string is a sequence of code units below 256. *)

From Stdlib Require Import List String Ascii Bool Arith ZArith NArith PArith.
From Stdlib Require Import QArith Qround Qpower Lia Lqa.
From Stdlib Require Import DecimalString DecimalNat DecimalPos Sorted.
From Stdlib Require Import PrimFloat FloatOps SpecFloat Uint63.
From Stdlib Require Import Qabs Permutation.
From Stdlib Require DecimalFacts.
Import ListNotations.

Local Open Scope nat_scope.
Local Open Scope string_scope.
Local Open Scope list_scope.

(** ** Data model ([types.ts]) *)

(** A finite JavaScript number that the program only stores and prints.
    It is kept in the form on which ECMAScript specifies [Number::toString]:
    a sign, the integer [s] of the shortest decimal digits (no trailing
    zero) and the position [n] of the decimal point, so that the value is
    [s * 10^(n - k)] with [k] the number of digits of [s]. *)
Inductive number : Type :=
| Num0
| Num (neg : bool) (s : positive) (n : Z).

Record Clip := {
  index : number;
  duration : number;
  required : bool
}.

Record Transition := {
  type : string;
  t_duration : number;
  between_clips : number * number
}.

(** [frame_path] is not declared by the interface; the component reads it
    through [(scene as any).frame_path]. *)
Record SceneData := {
  scene_index : number;
  frame_preview : string;
  frame_path : option string
}.

Record OutputJson := {
  name : string;
  clips : list Clip;
  transitions : list Transition;
  logo_outro : bool;
  music_file : string;
  fade_in_duration : number;
  fade_out_duration : number;
  scenes : option (list SceneData);
  vibe_description : option string;
  image_prompts : option (list string);
  video_prompt : option string
}.

(** The browser [File]: only its name and byte size are observed. *)
Record File := {
  file_name : string;
  size : N
}.

Record VideoResult := {
  id : string;
  videoName : string;
  jsonData : OutputJson;
  file : File
}.

Record HistoryItem := {
  h_id : string;
  timestamp : number;
  h_videoName : string;
  h_jsonData : OutputJson
}.

(** Functional update of the three enrichment fields, the object spread
    [{...jsonData, vibe_description, image_prompts, video_prompt}]. *)
Definition withEnrichment (j : OutputJson) (vibe : string)
    (prompts : option (list string)) (video : option string) : OutputJson :=
  {| name := name j;
     clips := clips j;
     transitions := transitions j;
     logo_outro := logo_outro j;
     music_file := music_file j;
     fade_in_duration := fade_in_duration j;
     fade_out_duration := fade_out_duration j;
     scenes := scenes j;
     vibe_description := Some vibe;
     image_prompts := prompts;
     video_prompt := video |}.

(** ** Binary64 arithmetic of the progress percentage

    [Math.floor((videoNumber / totalVideos) * 100)] is computed on IEEE 754
    doubles.  Division and multiplication are correctly rounded: the result
    is the exact quotient or product rounded to the nearest number with a
    53-bit significand, ties to even.  The operands that occur (counts
    below 2^53, quotients in (0,1], products up to 100) are far from the
    overflow and subnormal ranges, so the exponent is left unbounded. *)
Module Binary64.

Local Open Scope Q_scope.

(** Round to the nearest integer, ties to the even one. *)
Definition rne (x : Q) : Z :=
  let f := Qfloor x in
  match Qcompare (x - inject_Z f) (1 # 2) with
  | Lt => f
  | Gt => (f + 1)%Z
  | Eq => if Z.even f then f else (f + 1)%Z
  end.

(** [ilog2 q] is the integer [L] with [2^L <= q < 2^(L+1)], for [0 < q]. *)
Definition ilog2 (q : Q) : Z :=
  let d := (Z.log2 (Qnum q) - Z.log2 (Zpos (Qden q)))%Z in
  if Qle_bool (2 ^ d) q then d else (d - 1)%Z.

(** Rounding of a positive rational to 53 significant bits. *)
Definition RNpos (q : Q) : Q :=
  let e := (ilog2 q - 52)%Z in
  inject_Z (rne (q / 2 ^ e)) * 2 ^ e.

Definition RN (q : Q) : Q :=
  match Qnum q with
  | Z0 => 0
  | Zpos _ => RNpos q
  | Zneg _ => - RNpos (- q)
  end.

Definition fdiv (x y : Q) : Q := RN (x / y).
Definition fmul (x y : Q) : Q := RN (x * y).
Definition Math_floor (x : Q) : Z := Qfloor x.

End Binary64.

(** [Math.floor((videoNumber / totalVideos) * 100)] *)
Definition progressPercent (videoNumber totalVideos : nat) : Z :=
  Binary64.Math_floor
    (Binary64.fmul
       (Binary64.fdiv (inject_Z (Z.of_nat videoNumber))
                      (inject_Z (Z.of_nat totalVideos)))
       (inject_Z 100)).

(** The same percentage computed on the hardware doubles of the kernel,
    to compare the rounding model with. *)
Definition floorOfFloat (f : float) : Z :=
  match Prim2SF f with
  | S754_finite false m e => Qfloor (inject_Z (Zpos m) * Qpower 2 e)
  | _ => 0%Z
  end.

Definition hardwarePercent (videoNumber totalVideos : nat) : Z :=
  floorOfFloat
    (PrimFloat.mul
       (PrimFloat.div
          (PrimFloat.of_uint63 (Uint63.of_Z (Z.of_nat videoNumber)))
          (PrimFloat.of_uint63 (Uint63.of_Z (Z.of_nat totalVideos))))
       (PrimFloat.of_uint63 (Uint63.of_Z 100))).

(** ** Small JavaScript idioms *)

(** [`${n}`] for a non-negative integer counter. *)
Definition show_nat (n : nat) : string :=
  NilEmpty.string_of_uint (Nat.to_uint n).

(** [s || d] on an optional string: an absent or empty [s] is falsy. *)
Definition or_else (s : option string) (d : string) : string :=
  match s with
  | Some EmptyString | None => d
  | Some v => v
  end.

(** Truthiness of an optional string. *)
Definition truthy (s : option string) : bool :=
  match s with
  | Some EmptyString | None => false
  | Some _ => true
  end.

(** White space in the sense of [String.prototype.trim], on the code
    units below 256. *)
Definition is_white (c : ascii) : bool :=
  let k := nat_of_ascii c in
  ((k =? 9) || (k =? 10) || (k =? 11) || (k =? 12) || (k =? 13)
   || (k =? 32) || (k =? 160))%nat.

(** [!s.trim()] *)
Fixpoint blank (s : string) : bool :=
  match s with
  | EmptyString => true
  | String c s' => is_white c && blank s'
  end.

(** ** The enrichment service, as seen through [fetch]

    One exchange either rejects (transport error), answers with a non-2xx
    status (whose body may carry an [error] field), answers 2xx with a body
    that [response.json()] cannot parse, or answers 2xx with a parsed body. *)
Inductive Fetched (A : Type) : Type :=
| Rejected (message : string)
| NotOk (error : option string)
| BadBody (message : string)
| Ok (body : A).
Arguments Rejected {A} message.
Arguments NotOk {A} error.
Arguments BadBody {A} message.
Arguments Ok {A} body.

Record VibeData := {
  failed : bool;
  error : option string;
  vibe_extraction : option string
}.

Record ImagePromptsData := {
  r_image_prompts : option (list string)
}.

Record VideoPromptData := {
  r_video_prompt : option string
}.

(** The three endpoints.  The first argument is the 1-based position of
    the video in the run, so that an endpoint may answer the same request
    differently at different times. *)
Record Service := {
  vibe_extraction_endpoint : nat -> string -> File -> Fetched VibeData;
  image_prompts_endpoint :
    nat -> string -> list SceneData -> Fetched ImagePromptsData;
  video_prompt_endpoint :
    nat -> string -> option (list string) -> Fetched VideoPromptData
}.

(** ** [BatchGeminiAnalysis] *)

Record FailedVideo := {
  fv_videoName : string;
  reason : string
}.

Record Analysis := {
  resultId : string;
  vibe : string;
  imagePrompts : option (list string);
  videoPrompt : option string
}.

(** A file handed to the browser for download. *)
Record Download := {
  filename : string;
  content : string
}.

(** How a call of a callback property ends. *)
Inductive Completion (A : Type) : Type :=
| Returned (a : A)
| Raised (message : string).
Arguments Returned {A} a.
Arguments Raised {A} message.

Record BatchGeminiAnalysisProps := {
  results : list VideoResult;
  onAnalysisComplete : list Analysis -> Completion unit;
  onAutoSaveCSV : list VideoResult -> string -> Completion (option Download)
}.

(** The text shown by [setCurrentStep], without its pictograms. *)
Inductive Step : Type :=
| Initializing
| ExtractingVibe (videoNumber totalVideos : nat)
| GeneratingImagePrompts (videoNumber totalVideos : nat)
| CreatingVideoPrompt (videoNumber totalVideos : nat)
| AutoSaving (videoNumber : nat)
| CompletedWithFailures (failed succeeded : nat)
| AllAnalyzed.

Inductive Stage : Type :=
| VibeExtraction (api_key : string) (video : File)
| ImagePrompts (api_key : string) (scenes_sent : list SceneData)
| VideoPrompt (api_key : string) (prompts_sent : option (list string)).

(** Observable effects of a run, in the order they happen. *)
Inductive Event : Type :=
| SetError (e : option string)
| SetIsAnalyzing (b : bool)
| SetIsComplete (b : bool)
| SetProcessedCount (n : nat)
| SetProgress (p : Z)
| SetCurrentStep (s : Step)
| ResetFailedVideos
| AppendFailedVideo (f : FailedVideo)
| Fetch (videoNumber : nat) (stage : Stage)
| AutoSaveCSV (resultsToExport : list VideoResult) (filenameSuffix : string)
              (outcome : Completion (option Download))
| AnalysisComplete (analyses : list Analysis)
| ConsoleWarn (text : string)
| ConsoleError (text : string)
| ConsoleLog (text : string).

(** The local variables of [handleBatchAnalyze] that outlive one iteration
    and the trace. *)
Record BatchState := {
  allAnalyses : list Analysis;
  analyzedResults : list VideoResult;
  failures : list FailedVideo;
  trace : list Event
}.

Definition initialState : BatchState :=
  {| allAnalyses := []; analyzedResults := []; failures := []; trace := [] |}.

(** The eligibility filter
    [r.jsonData.scenes && r.jsonData.scenes.length > 0 && r.file.size > 0]. *)
Definition hasScenes (r : VideoResult) : bool :=
  match scenes (jsonData r) with
  | Some (_ :: _) => (0 <? size (file r))%N
  | _ => false
  end.

Module Batch.

(** *** The monad of one loop body

    A computation of the body either goes on with a value, throws an
    [Error] with a message, or executes [continue]; the state reached so
    far is kept in every case. *)
Inductive Exit (A : Type) : Type :=
| Normal (a : A)
| Thrown (message : string)
| Continue.
Arguments Normal {A} a.
Arguments Thrown {A} message.
Arguments Continue {A}.

Definition Body (A : Type) : Type := BatchState -> Exit A * BatchState.

Definition ret {A} (a : A) : Body A := fun st => (Normal a, st).

Definition bind {A B} (m : Body A) (k : A -> Body B) : Body B :=
  fun st =>
    match m st with
    | (Normal a, st') => k a st'
    | (Thrown msg, st') => (Thrown msg, st')
    | (Continue, st') => (Continue, st')
    end.

Definition throw {A} (message : string) : Body A :=
  fun st => (Thrown message, st).

Definition continue : Body unit := fun st => (Continue, st).

Definition emitS (e : Event) (st : BatchState) : BatchState :=
  {| allAnalyses := allAnalyses st;
     analyzedResults := analyzedResults st;
     failures := failures st;
     trace := trace st ++ [e] |}.

Definition emit (e : Event) : Body unit := fun st => (Normal tt, emitS e st).

Definition pushFailureS (f : FailedVideo) (st : BatchState) : BatchState :=
  {| allAnalyses := allAnalyses st;
     analyzedResults := analyzedResults st;
     failures := failures st ++ [f];
     trace := trace st |}.

Definition pushFailure (f : FailedVideo) : Body unit :=
  fun st => (Normal tt, pushFailureS f st).

Definition pushAnalysis (a : Analysis) (r : VideoResult) : Body unit :=
  fun st =>
    (Normal tt,
     {| allAnalyses := allAnalyses st ++ [a];
        analyzedResults := analyzedResults st ++ [r];
        failures := failures st;
        trace := trace st |}).

Definition getAnalyzedResults : Body (list VideoResult) :=
  fun st => (Normal (analyzedResults st), st).

Declare Scope body_scope.
Delimit Scope body_scope with body.
Notation "x <- m ;; k" := (bind m (fun x => k))
  (at level 61, m at next level, right associativity) : body_scope.
Notation "m ;; k" := (bind m (fun _ => k))
  (at level 61, right associativity) : body_scope.
Local Open Scope body_scope.

(** [await fetch(...)], the [ok] test and [await response.json()]. *)
Definition fetchJson {A} (videoNumber : nat) (stage : Stage)
    (answer : Fetched A) (what : string) (videoName : string) : Body A :=
  emit (Fetch videoNumber stage) ;;
  match answer with
  | Rejected message => throw message
  | NotOk err =>
      throw ("Failed to " ++ what ++ " for " ++ videoName ++ ": "
             ++ or_else err "Unknown error")
  | BadBody message => throw message
  | Ok body => ret body
  end.

(** A call of the [onAutoSaveCSV] property. *)
Definition autoSave (suffix : string)
    (cb : list VideoResult -> string -> Completion (option Download))
    : Body unit :=
  rs <- getAnalyzedResults ;;
  emit (AutoSaveCSV rs suffix (cb rs suffix)) ;;
  match cb rs suffix with
  | Returned _ => ret tt
  | Raised message => throw message
  end.

Section Run.

Variable apiKey : string.
Variable service : Service.
Variable props : BatchGeminiAnalysisProps.

(** The statements of the inner [try] block for one video. *)
Definition tryVideo (videoResult : VideoResult) (videoNumber totalVideos : nat)
    : Body unit :=
  emit (SetCurrentStep (ExtractingVibe videoNumber totalVideos)) ;;
  vibeData <- fetchJson videoNumber
                (VibeExtraction apiKey (file videoResult))
                (vibe_extraction_endpoint service videoNumber apiKey
                   (file videoResult))
                "extract vibe" (videoName videoResult) ;;
  match failed vibeData, vibe_extraction vibeData with
  | false, Some (String c v) =>
      emit (SetCurrentStep (GeneratingImagePrompts videoNumber totalVideos)) ;;
      match scenes (jsonData videoResult) with
      | None =>
          throw "Cannot read properties of undefined (reading 'map')"
      | Some scs =>
          imagePromptsData <- fetchJson videoNumber
                (ImagePrompts apiKey scs)
                (image_prompts_endpoint service videoNumber apiKey scs)
                "generate image prompts" (videoName videoResult) ;;
          emit (SetCurrentStep (CreatingVideoPrompt videoNumber totalVideos)) ;;
          videoPromptData <- fetchJson videoNumber
                (VideoPrompt apiKey (r_image_prompts imagePromptsData))
                (video_prompt_endpoint service videoNumber apiKey
                   (r_image_prompts imagePromptsData))
                "generate video prompt" (videoName videoResult) ;;
          let analysis :=
            {| resultId := id videoResult;
               vibe := String c v;
               imagePrompts := r_image_prompts imagePromptsData;
               videoPrompt := r_video_prompt videoPromptData |} in
          let updatedResult :=
            {| id := id videoResult;
               videoName := videoName videoResult;
               jsonData :=
                 withEnrichment (jsonData videoResult) (vibe analysis)
                   (imagePrompts analysis) (videoPrompt analysis);
               file := file videoResult |} in
          pushAnalysis analysis updatedResult ;;
          emit (SetProcessedCount videoNumber) ;;
          emit (SetProgress (progressPercent videoNumber totalVideos)) ;;
          if (videoNumber mod 5 =? 0)%nat || (videoNumber =? totalVideos)%nat
          then
            emit (SetCurrentStep (AutoSaving videoNumber)) ;;
            autoSave ("-progress-" ++ show_nat videoNumber)
              (onAutoSaveCSV props)
          else ret tt
      end
  | _, _ =>
      let failureReason := or_else (error vibeData) "API returned no content" in
      let failure :=
        {| fv_videoName := videoName videoResult; reason := failureReason |} in
      emit (ConsoleWarn ("Skipping " ++ videoName videoResult ++ ": "
                         ++ failureReason)) ;;
      pushFailure failure ;;
      emit (AppendFailedVideo failure) ;;
      emit (SetProcessedCount videoNumber) ;;
      emit (SetProgress (progressPercent videoNumber totalVideos)) ;;
      continue
  end.

(** The inner [catch (videoError)] block. *)
Definition catchVideo (videoResult : VideoResult)
    (videoNumber totalVideos : nat) (errorMsg : string)
    (st : BatchState) : BatchState :=
  let failure :=
    {| fv_videoName := videoName videoResult; reason := errorMsg |} in
  emitS (SetProgress (progressPercent videoNumber totalVideos))
    (emitS (SetProcessedCount videoNumber)
       (emitS (AppendFailedVideo failure)
          (pushFailureS failure
             (emitS (ConsoleError ("Error processing video "
                                   ++ show_nat videoNumber ++ ": " ++ errorMsg))
                st)))).

(** One iteration of the [for] loop. *)
Definition processVideo (videoResult : VideoResult)
    (videoNumber totalVideos : nat) (st : BatchState) : BatchState :=
  match tryVideo videoResult videoNumber totalVideos st with
  | (Normal _, st') => st'
  | (Continue, st') => st'
  | (Thrown errorMsg, st') =>
      catchVideo videoResult videoNumber totalVideos errorMsg st'
  end.

(** [for (let i = 0; i < videosWithScenes.length; i++)], started at index
    [i] on the videos that remain. *)
Fixpoint loop (remaining : list VideoResult) (i totalVideos : nat)
    (st : BatchState) : BatchState :=
  match remaining with
  | [] => st
  | videoResult :: rest =>
      loop rest (S i) totalVideos
        (processVideo videoResult (i + 1) totalVideos st)
  end.

(** The outer [catch (err)] block. *)
Definition catchBatch (errorMessage : string) (st : BatchState) : BatchState :=
  let st1 :=
    emitS (ConsoleError ("Batch analysis error: " ++ errorMessage))
      (emitS (SetError (Some errorMessage)) st) in
  match analyzedResults st1 with
  | [] => st1
  | _ :: _ =>
      let st2 :=
        emitS (ConsoleLog "Attempting to save partial results after error...")
          st1 in
      let outcome :=
        onAutoSaveCSV props (analyzedResults st2) "-partial-error-recovery" in
      let st3 :=
        emitS (AutoSaveCSV (analyzedResults st2) "-partial-error-recovery"
                 outcome) st2 in
      match outcome with
      | Returned _ =>
          emitS (ConsoleLog ("Saved "
                             ++ show_nat (List.length (analyzedResults st3))
                             ++ " videos before error")) st3
      | Raised message =>
          emitS (ConsoleError ("Emergency save failed: " ++ message)) st3
      end
  end.

(** The statements after the loop, up to the end of the outer [try]. *)
Definition finish (st : BatchState) : BatchState :=
  let st1 := emitS (SetProgress 100) st in
  let st2 :=
    emitS (SetCurrentStep
             (match failures st1 with
              | [] => AllAnalyzed
              | _ :: _ =>
                  CompletedWithFailures (List.length (failures st1))
                    (List.length (allAnalyses st1))
              end)) st1 in
  let st3 := emitS (AnalysisComplete (allAnalyses st2)) st2 in
  match onAnalysisComplete props (allAnalyses st2) with
  | Returned _ => emitS (SetIsComplete true) st3
  | Raised message => catchBatch message st3
  end.

Definition videosWithScenes : list VideoResult :=
  filter hasScenes (results props).

(** The state after the resets that precede the outer [try]. *)
Definition started : BatchState :=
  {| allAnalyses := [];
     analyzedResults := [];
     failures := [];
     trace :=
       [SetIsAnalyzing true; SetError None; SetIsComplete false;
        SetProcessedCount 0; SetProgress 0; SetCurrentStep Initializing;
        ResetFailedVideos] |}.

(** The outer [finally] block runs on every way out of the outer [try]. *)
Definition handleBatchAnalyze : BatchState :=
  if blank apiKey then
    emitS (SetError (Some
      "API key not found. Please add VITE_GEMINI_API_KEY to your .env.local file"))
      initialState
  else
    let totalVideos := List.length videosWithScenes in
    match videosWithScenes with
    | [] =>
        emitS (SetIsAnalyzing false)
          (emitS (SetIsAnalyzing false) (emitS (SetIsComplete true) started))
    | _ :: _ =>
        emitS (SetIsAnalyzing false)
          (finish (loop videosWithScenes 0 totalVideos started))
    end.

End Run.

End Batch.

(** ** Result merge ([App.handleBatchAnalysisComplete]) *)
Module Merge.

(** [analyses.find(a => a.resultId === id)] *)
Definition findAnalysis (analyses : list Analysis) (rid : string)
    : option Analysis :=
  find (fun a => String.eqb (resultId a) rid) analyses.

(** The updater passed to [setResults]. *)
Definition mergeResults (analyses : list Analysis)
    (prevResults : list VideoResult) : list VideoResult :=
  map (fun result =>
         match findAnalysis analyses (id result) with
         | Some analysis =>
             {| id := id result;
                videoName := videoName result;
                jsonData :=
                  withEnrichment (jsonData result) (vibe analysis)
                    (imagePrompts analysis) (videoPrompt analysis);
                file := file result |}
         | None => result
         end)
      prevResults.

(** The updater passed to [setHistory]; [results] is the result set
    captured by the callback. *)
Definition mergeHistory (results : list VideoResult)
    (analyses : list Analysis) (prevHistory : list HistoryItem)
    : list HistoryItem :=
  map (fun item =>
         match find (fun r => String.eqb (videoName r) (h_videoName item))
                 results with
         | Some result =>
             match findAnalysis analyses (id result) with
             | Some analysis =>
                 {| h_id := h_id item;
                    timestamp := timestamp item;
                    h_videoName := h_videoName item;
                    h_jsonData :=
                      withEnrichment (h_jsonData item) (vibe analysis)
                        (imagePrompts analysis) (videoPrompt analysis) |}
             | None => item
             end
         | None => item
         end)
      prevHistory.

(** The state of [App] that the callback touches. *)
Record AppState := {
  app_results : list VideoResult;
  app_history : list HistoryItem;
  isGeminiAnalysisComplete : bool
}.

Definition handleBatchAnalysisComplete (analyses : list Analysis)
    (st : AppState) : AppState :=
  {| app_results := mergeResults analyses (app_results st);
     app_history := mergeHistory (app_results st) analyses (app_history st);
     isGeminiAnalysisComplete := true |}.

End Merge.

(** ** Rendering of numbers *)
Module JsNumber.

Local Open Scope string_scope.

Definition digits (s : positive) : string :=
  NilEmpty.string_of_uint (Pos.to_uint s).

Fixpoint zeros (n : nat) : string :=
  match n with
  | O => ""
  | S n' => String "0" (zeros n')
  end.

(** Number of decimal digits of [s]. *)
Definition numDigits (s : positive) : Z := Z.of_nat (String.length (digits s)).

(** [Number.isInteger] *)
Definition isInteger (x : number) : bool :=
  match x with
  | Num0 => true
  | Num _ s n => (numDigits s <=? n)%Z
  end.

Definition signStr (neg : bool) : string := if neg then "-" else "".

(** Exponential notation, the last two cases of [Number::toString]. *)
Definition exponential (s : positive) (n : Z) : string :=
  let e := (n - 1)%Z in
  let mantissa :=
    match digits s with
    | String d EmptyString => String d EmptyString
    | String d rest => String d ("." ++ rest)
    | EmptyString => EmptyString
    end in
  mantissa ++ "e" ++ (if (e <? 0)%Z then "-" else "+")
           ++ show_nat (Z.abs_nat e).

(** [Number::toString] in radix 10 on a positive finite number. *)
Definition toStringPos (s : positive) (n : Z) : string :=
  let k := numDigits s in
  if ((k <=? n) && (n <=? 21))%Z then
    digits s ++ zeros (Z.to_nat (n - k))
  else if ((0 <? n) && (n <=? 21))%Z then
    substring 0 (Z.to_nat n) (digits s) ++ "."
    ++ substring (Z.to_nat n) (Z.to_nat (k - n)) (digits s)
  else if ((-6 <? n) && (n <=? 0))%Z then
    "0." ++ zeros (Z.to_nat (- n)) ++ digits s
  else exponential s n.

Definition toString (x : number) : string :=
  match x with
  | Num0 => "0"
  | Num neg s n => signStr neg ++ toStringPos s n
  end.

(** [x.toFixed(1)] at an integral [x], its only use in the program.  Below
    10^21 the digits of the integer are followed by one decimal; from 10^21
    on [toFixed] answers what [toString] answers.  (Above 2^53 [toFixed]
    writes the digits of the exact binary value where this writes the
    shortest digits and zeros; the shape of the text is the same.) *)
Definition toFixed1 (x : number) : string :=
  match x with
  | Num0 => "0.0"
  | Num neg s n =>
      if (n <=? 21)%Z then
        signStr neg ++ digits s ++ zeros (Z.to_nat (n - numDigits s)) ++ ".0"
      else signStr neg ++ toStringPos s n
  end.

End JsNumber.

(** ** [JSON.stringify] with the decimal replacer *)
Module Json.

Local Open Scope string_scope.

Definition dquote : ascii := "034"%char.
Definition backslash : ascii := "092"%char.

#[local] Set Warnings "-register-all".
Inductive json : Type :=
| JNull
| JBool (b : bool)
| JNumber (x : number)
| JString (s : string)
| JArray (items : list json)
| JObject (fields : list (string * json)).

(** What the replacer function returns for a number. *)
Inductive Replaced : Type :=
| Unchanged (value : number)
| Text (s : string).

(** [(key, value) => typeof value === 'number'
       ? (Number.isInteger(value) ? value.toFixed(1) : value) : value] *)
Definition decimalReplacer (value : number) : Replaced :=
  if JsNumber.isInteger value then Text (JsNumber.toFixed1 value)
  else Unchanged value.

Definition hexDigit (n : nat) : ascii :=
  if (n <? 10)%nat then ascii_of_nat (48 + n) else ascii_of_nat (87 + n).

(** One code unit inside [QuoteJSONString]. *)
Definition escapeChar (c : ascii) : string :=
  let k := nat_of_ascii c in
  if (k =? 34)%nat then String backslash (String dquote "")
  else if (k =? 92)%nat then String backslash (String backslash "")
  else if (k =? 8)%nat then String backslash "b"
  else if (k =? 12)%nat then String backslash "f"
  else if (k =? 10)%nat then String backslash "n"
  else if (k =? 13)%nat then String backslash "r"
  else if (k =? 9)%nat then String backslash "t"
  else if (k <? 32)%nat then
    String backslash ("u00" ++ String (hexDigit (k / 16))
                                  (String (hexDigit (k mod 16)) ""))
  else String c "".

Fixpoint escapeString (s : string) : string :=
  match s with
  | EmptyString => EmptyString
  | String c s' => escapeChar c ++ escapeString s'
  end.

Definition quoteJSONString (s : string) : string :=
  String dquote (escapeString s ++ String dquote "").

(** [JSON.stringify(value, replacer)] without indentation, for a replacer
    that only acts on numbers. *)
Fixpoint stringify (replacer : number -> Replaced) (value : json) : string :=
  match value with
  | JNull => "null"
  | JBool true => "true"
  | JBool false => "false"
  | JNumber x =>
      match replacer x with
      | Unchanged y => JsNumber.toString y
      | Text s => quoteJSONString s
      end
  | JString s => quoteJSONString s
  | JArray items =>
      "[" ++ String.concat "," (map (stringify replacer) items) ++ "]"
  | JObject fields =>
      "{" ++ String.concat ","
               (map (fun kv => quoteJSONString (fst kv) ++ ":"
                               ++ stringify replacer (snd kv)) fields)
          ++ "}"
  end.

Definition isDigit (c : ascii) : bool :=
  let k := nat_of_ascii c in ((48 <=? k) && (k <=? 57))%nat.

(** The longest prefix of digits and what follows it. *)
Fixpoint spanDigits (s : string) : string * string :=
  match s with
  | String c s' =>
      if isDigit c then
        let (ds, rest) := spanDigits s' in (String c ds, rest)
      else (EmptyString, s)
  | EmptyString => (EmptyString, EmptyString)
  end.

(** A match of [\d+\.\d+] and a closing quote at the head of [s]: the
    integer digits and the fractional digits.  Each quantifier is followed
    by a character outside its class, so the greedy match is the only
    one. *)
Definition matchUnsigned (s : string) : option (string * string) :=
  match spanDigits s with
  | (EmptyString, _) => None
  | (intPart, String c s2) =>
      if Ascii.eqb c "." then
        match spanDigits s2 with
        | (EmptyString, _) => None
        | (fracPart, String c' _) =>
            if Ascii.eqb c' dquote then Some (intPart, fracPart) else None
        | (_, EmptyString) => None
        end
      else None
  | (_, EmptyString) => None
  end.

(** A match of [-?\d+\.\d+] and a closing quote at the head of [s], the
    text that follows an opening quote: the captured group. *)
Definition matchNumeral (s : string) : option string :=
  let (sign, s1) :=
    match s with
    | String c s' => if Ascii.eqb c "-" then ("-", s') else ("", s)
    | EmptyString => ("", s)
    end in
  match matchUnsigned s1 with
  | Some (intPart, fracPart) => Some (sign ++ intPart ++ "." ++ fracPart)
  | None => None
  end.

(** The whole of [s] is [\d+\.\d+]. *)
Definition isUnsignedNumeral (s : string) : bool :=
  match spanDigits s with
  | (String _ _, String c s2) =>
      Ascii.eqb c "."
      && match spanDigits s2 with
         | (String _ _, EmptyString) => true
         | _ => false
         end
  | _ => false
  end.

(** The whole of [s] is a decimal numeral [-?\d+\.\d+]. *)
Definition isDecimalNumeral (s : string) : bool :=
  match s with
  | String c s' =>
      if Ascii.eqb c "-" then isUnsignedNumeral s' else isUnsignedNumeral s
  | EmptyString => false
  end.

(** The scan of [.replace(/Q(-?\d+\.\d+)Q/g, '$1')], with [Q] the double
    quote: at a position where
    the pattern matches, the captured group is copied and the scan resumes
    after the closing quote ([skip] counts the characters of the match that
    are still to be passed over); elsewhere the character is copied. *)
Fixpoint replaceFrom (skip : nat) (s : string) : string :=
  match s with
  | EmptyString => EmptyString
  | String c s' =>
      match skip with
      | S k => replaceFrom k s'
      | O =>
          match (if Ascii.eqb c dquote then matchNumeral s' else None) with
          | Some group => group ++ replaceFrom (S (String.length group)) s'
          | None => String c (replaceFrom 0 s')
          end
      end
  end.

Definition unquoteNumerals (s : string) : string := replaceFrom 0 s.

(** The characters of which a match of the pattern is made. *)
Definition inPattern (c : ascii) : bool :=
  isDigit c || Ascii.eqb c "-" || Ascii.eqb c "." || Ascii.eqb c dquote.

Fixpoint allDigits (s : string) : bool :=
  match s with
  | EmptyString => true
  | String c s' => isDigit c && allDigits s'
  end.

(** The last character of [s] is outside the pattern. *)
Fixpoint endsOutside (s : string) : bool :=
  match s with
  | EmptyString => false
  | String c EmptyString => negb (inPattern c)
  | String _ s' => endsOutside s'
  end.

(** The object literal [orderedJson]. *)
Definition orderedJson (j : OutputJson) : json :=
  JObject
    [ ("name", JString (name j));
      ("clips",
       JArray (map (fun clip =>
                      JObject [ ("index", JNumber (index clip));
                                ("duration", JNumber (duration clip));
                                ("required", JBool (required clip)) ])
                 (clips j)));
      ("transitions",
       JArray (map (fun transition =>
                      JObject
                        [ ("type", JString (type transition));
                          ("duration", JNumber (t_duration transition));
                          ("between_clips",
                           JArray [ JNumber (fst (between_clips transition));
                                    JNumber (snd (between_clips transition)) ])
                        ])
                 (transitions j)));
      ("logo_outro", JBool (logo_outro j));
      ("music_file", JString (music_file j));
      ("fade_in_duration", JNumber (fade_in_duration j));
      ("fade_out_duration", JNumber (fade_out_duration j)) ].

(** [jsonStringWithDecimals], the same expression in
    [App.generateAndDownloadCSV] and in [History.exportToCSV]. *)
Definition jsonStringWithDecimals (j : OutputJson) : string :=
  unquoteNumerals (stringify decimalReplacer (orderedJson j)).

(** [JSON.stringify(value, replacer, 2)]: the members of a non-empty
    array or object are written one per line, two spaces deeper than the
    line that opens it, and a key is followed by a colon and a space. *)
Fixpoint stringifyIndented (replacer : number -> Replaced) (indent : string)
    (value : json) : string :=
  let inner := indent ++ "  " in
  let newline := String "010"%char "" in
  match value with
  | JNull => "null"
  | JBool true => "true"
  | JBool false => "false"
  | JNumber x =>
      match replacer x with
      | Unchanged y => JsNumber.toString y
      | Text s => quoteJSONString s
      end
  | JString s => quoteJSONString s
  | JArray [] => "[]"
  | JArray items =>
      "[" ++ newline ++ inner
          ++ String.concat ("," ++ newline ++ inner)
               (map (stringifyIndented replacer inner) items)
          ++ newline ++ indent ++ "]"
  | JObject [] => "{}"
  | JObject fields =>
      "{" ++ newline ++ inner
          ++ String.concat ("," ++ newline ++ inner)
               (map (fun kv => quoteJSONString (fst kv) ++ ": "
                               ++ stringifyIndented replacer inner (snd kv))
                  fields)
          ++ newline ++ indent ++ "}"
  end.

(** [jsonString] of the JSON panel ([JsonOutput]). *)
Definition jsonString (j : OutputJson) : string :=
  unquoteNumerals (stringifyIndented decimalReplacer "" (orderedJson j)).

End Json.

(** ** CSV export ([App.generateAndDownloadCSV]) *)
Module Csv.

Local Open Scope string_scope.

Definition newline : ascii := "010"%char.

(** [text.replace(/\*\*/g, '')] *)
Fixpoint cleanMarkdown (text : string) : string :=
  match text with
  | String "*" (String "*" rest) => cleanMarkdown rest
  | String c rest => String c (cleanMarkdown rest)
  | EmptyString => EmptyString
  end.

Fixpoint includes (c : ascii) (value : string) : bool :=
  match value with
  | EmptyString => false
  | String d rest => Ascii.eqb c d || includes c rest
  end.

(** [value.replace(/Q/g, 'QQ')], with [Q] the double quote. *)
Fixpoint doubleQuotes (value : string) : string :=
  match value with
  | EmptyString => EmptyString
  | String c rest =>
      if Ascii.eqb c Json.dquote
      then String c (String c (doubleQuotes rest))
      else String c (doubleQuotes rest)
  end.

Definition escapeCSV (value : string) : string :=
  if includes "," value || includes Json.dquote value
     || includes newline value
  then String Json.dquote (doubleQuotes value ++ String Json.dquote "")
  else value.

Definition headers : list string :=
  [ "Filename"; "Clips Count"; "JSON Output"; "Vibe Description";
    "Image Prompt"; "Video Prompt" ].

(** [prompts.map((prompt, idx) => `Frame ${idx + 1}: ...`)] from [idx]. *)
Fixpoint framePrompts (idx : nat) (prompts : list string) : list string :=
  match prompts with
  | [] => []
  | prompt :: rest =>
      ("Frame " ++ show_nat (idx + 1) ++ ": " ++ cleanMarkdown prompt)
      :: framePrompts (S idx) rest
  end.

Definition row (result : VideoResult) : list string :=
  let imagePromptsFormatted :=
    match image_prompts (jsonData result) with
    | Some prompts =>
        String.concat (String newline (String newline ""))
          (framePrompts 0 prompts)
    | None => ""
    end in
  let cleanedVibe :=
    if truthy (vibe_description (jsonData result))
    then cleanMarkdown (or_else (vibe_description (jsonData result)) "")
    else "" in
  let cleanedVideoPrompt :=
    if truthy (video_prompt (jsonData result))
    then cleanMarkdown (or_else (video_prompt (jsonData result)) "")
    else "" in
  [ videoName result;
    show_nat (List.length (clips (jsonData result)));
    Json.jsonStringWithDecimals (jsonData result);
    cleanedVibe;
    imagePromptsFormatted;
    cleanedVideoPrompt ].

Definition csvContent (resultsToExport : list VideoResult) : string :=
  String.concat (String newline "")
    (String.concat "," (map escapeCSV headers)
     :: map (fun r => String.concat "," (map escapeCSV (row r)))
          resultsToExport).

(** [s.replace(/:/g, '-')] *)
Fixpoint colonsToDashes (s : string) : string :=
  match s with
  | EmptyString => EmptyString
  | String ":" rest => String "-" (colonsToDashes rest)
  | String c rest => String c (colonsToDashes rest)
  end.

(** [isoNow] is [new Date().toISOString()].  The result is the file offered
    for download, or nothing when the function returns at its first line. *)
Definition generateAndDownloadCSV (isoNow : string)
    (resultsToExport : list VideoResult) (filenameSuffix : string)
    : option Download :=
  match resultsToExport with
  | [] => None
  | _ :: _ =>
      let timestamp := colonsToDashes (substring 0 19 isoNow) in
      Some {| filename := "video-analysis-batch-" ++ timestamp
                          ++ filenameSuffix ++ ".csv";
              content := csvContent resultsToExport |}
  end.

End Csv.

(** ** The properties as [App] and [ResultsCarousel] wire them *)
Definition appProps (isoNow : string) (rs : list VideoResult)
    : BatchGeminiAnalysisProps :=
  {| results := rs;
     onAnalysisComplete := fun _ => Returned tt;
     onAutoSaveCSV :=
       fun resultsToExport filenameSuffix =>
         Returned
           (Csv.generateAndDownloadCSV isoNow resultsToExport
              filenameSuffix) |}.

(** ** Vocabulary of the properties *)

(** The values passed to [setProgress], in order. *)
Definition progressValues (tr : list Event) : list Z :=
  flat_map (fun e => match e with SetProgress p => [p] | _ => [] end) tr.

(** The values passed to [setProcessedCount], in order. *)
Definition processedCounts (tr : list Event) : list nat :=
  flat_map (fun e => match e with SetProcessedCount n => [n] | _ => [] end) tr.

(** The calls of [onAutoSaveCSV]: what was exported and under which
    suffix. *)
Definition exportCalls (tr : list Event) : list (list VideoResult * string) :=
  flat_map (fun e => match e with
                     | AutoSaveCSV rs sfx _ => [(rs, sfx)]
                     | _ => []
                     end) tr.

(** The network exchanges: position of the video and request. *)
Definition fetches (tr : list Event) : list (nat * Stage) :=
  flat_map (fun e => match e with Fetch k stage => [(k, stage)] | _ => [] end)
    tr.

Definition isOk {A} (answer : Fetched A) : bool :=
  match answer with Ok _ => true | _ => false end.

(** A soft failure of the vibe stage: a 2xx answer with [failed] set or
    without a usable [vibe_extraction]. *)
Definition softFailure (answer : Fetched VibeData) : bool :=
  match answer with
  | Ok d => failed d || negb (truthy (vibe_extraction d))
  | _ => false
  end.

Section Outcome.

Variable apiKey : string.
Variable service : Service.

(** The video at position [k] passes the three stages. *)
Definition completes (v : VideoResult) (k : nat) : bool :=
  match vibe_extraction_endpoint service k apiKey (file v),
        scenes (jsonData v) with
  | Ok d, Some scs =>
      negb (failed d) && truthy (vibe_extraction d)
      && match image_prompts_endpoint service k apiKey scs with
         | Ok ip =>
             isOk (video_prompt_endpoint service k apiKey (r_image_prompts ip))
         | _ => false
         end
  | _, _ => false
  end.

(** Positions [i+1, i+2, ...] paired with the videos. *)
Fixpoint numbered (i : nat) (vs : list VideoResult)
    : list (nat * VideoResult) :=
  match vs with
  | [] => []
  | v :: rest => (i + 1, v)%nat :: numbered (S i) rest
  end.

Definition completesAt (kv : nat * VideoResult) : bool :=
  completes (snd kv) (fst kv).

End Outcome.

(** The checkpoint condition of the loop body. *)
Definition checkpointDue (k N : nat) : bool :=
  ((k mod 5 =? 0) || (k =? N))%nat.

(** [st'] is [st] with more entries at the end of the trace and of the
    accumulators. *)
Definition extends (st st' : BatchState) : Prop :=
  (exists x, allAnalyses st' = allAnalyses st ++ x)
  /\ (exists x, analyzedResults st' = analyzedResults st ++ x)
  /\ (exists x, failures st' = failures st ++ x)
  /\ (exists x, trace st' = trace st ++ x).

(** The calls of the export callback made by the outer error handler. *)
Definition emergencyExports (tr : list Event)
    : list (list VideoResult * string) :=
  filter (fun c => String.eqb (snd c) "-partial-error-recovery")
    (exportCalls tr).

(** The reading of the scene-count validation: whenever the image-prompts
    stage answers 2xx with a number of prompts other than the number of
    scenes, the video ends with a failure record, without an analysis, and
    its video prompt is never requested. *)
Definition rejectsLengthMismatch (apiKey : string) (service : Service)
    (props : BatchGeminiAnalysisProps) : Prop :=
  forall k v d scs ip prompts,
    nth_error (Batch.videosWithScenes props) k = Some v ->
    vibe_extraction_endpoint service (k + 1) apiKey (file v) = Ok d ->
    softFailure (Ok d) = false ->
    scenes (jsonData v) = Some scs ->
    image_prompts_endpoint service (k + 1) apiKey scs = Ok ip ->
    r_image_prompts ip = Some prompts ->
    List.length prompts <> List.length scs ->
    let final := Batch.handleBatchAnalyze apiKey service props in
    In (videoName v) (map fv_videoName (failures final))
    /\ ~ In (id v) (map resultId (allAnalyses final))
    /\ forall sent, ~ In (k + 1, VideoPrompt apiKey sent)
                         (fetches (trace final)).

(** The reading of the checkpoint schedule: an export after every fifth
    position and after the last one, whatever the outcome of the video at
    that position. *)
Definition checkpointsAtEveryFifthAndLast (N : nat)
    (calls : list (list VideoResult * string)) : Prop :=
  map snd calls
  = map (fun k => ("-progress-" ++ show_nat k)%string)
      (filter (fun k => checkpointDue k N) (seq 1 N)).

(** Two records that agree on every field except the enrichment. *)
Definition sameButEnrichment (j j' : OutputJson) : Prop :=
  name j' = name j
  /\ clips j' = clips j
  /\ transitions j' = transitions j
  /\ logo_outro j' = logo_outro j
  /\ music_file j' = music_file j
  /\ fade_in_duration j' = fade_in_duration j
  /\ fade_out_duration j' = fade_out_duration j
  /\ scenes j' = scenes j.

(** The enrichment fields of [j] are those of the analysis [a]. *)
Definition enrichedBy (a : Analysis) (j : OutputJson) : Prop :=
  vibe_description j = Some (vibe a)
  /\ image_prompts j = imagePrompts a
  /\ video_prompt j = videoPrompt a.

(** A callback that never throws. *)
Definition alwaysReturns {A B C} (cb : A -> B -> Completion C) : Prop :=
  forall a b, exists c, cb a b = Returned c.

(** ** Sample batches

    Concrete videos and services on which the properties are exercised. *)
Module Samples.

Definition scene (i : nat) : SceneData :=
  {| scene_index := match i with
                    | O => Num0
                    | S _ => Num false (Pos.of_nat i) (JsNumber.numDigits (Pos.of_nat i))
                    end;
     frame_preview := "data:image/png;base64,AAAA";
     frame_path := None |}.

(** A video with [sceneCount] scenes and a file of [bytes] bytes. *)
Definition video (nm : string) (sceneCount : nat) (bytes : N) : VideoResult :=
  {| id := ("id-" ++ nm)%string;
     videoName := nm;
     jsonData :=
       {| name := nm;
          clips := [];
          transitions := [];
          logo_outro := false;
          music_file := "";
          fade_in_duration := Num0;
          fade_out_duration := Num0;
          scenes := Some (map scene (seq 0 sceneCount));
          vibe_description := None;
          image_prompts := None;
          video_prompt := None |};
     file := {| file_name := (nm ++ ".mp4")%string; size := bytes |} |}.

Definition goodVibe : Fetched VibeData :=
  Ok {| failed := false; error := None; vibe_extraction := Some "calm" |}.

Definition noContent : Fetched VibeData :=
  Ok {| failed := true; error := Some "no content"; vibe_extraction := None |}.

(** One prompt per scene. *)
Definition promptsFor (scs : list SceneData) : Fetched ImagePromptsData :=
  Ok {| r_image_prompts := Some (map (fun _ => "a frame") scs) |}.

Definition goodVideoPrompt : Fetched VideoPromptData :=
  Ok {| r_video_prompt := Some "a film" |}.

(** Every stage succeeds, except that the vibe stage answers with a soft
    failure at the positions selected by [bad]. *)
Definition softFailingAt (bad : nat -> bool) : Service :=
  {| vibe_extraction_endpoint :=
       fun k _ _ => if bad k then noContent else goodVibe;
     image_prompts_endpoint := fun _ _ scs => promptsFor scs;
     video_prompt_endpoint := fun _ _ _ => goodVideoPrompt |}.

Definition allGood : Service := softFailingAt (fun _ => false).

(** The image-prompts stage answers 2xx with one prompt less than there
    are scenes. *)
Definition onePromptShort : Service :=
  {| vibe_extraction_endpoint := fun _ _ _ => goodVibe;
     image_prompts_endpoint :=
       fun _ _ scs =>
         Ok {| r_image_prompts := Some (map (fun _ => "a frame") (tl scs)) |};
     video_prompt_endpoint := fun _ _ _ => goodVideoPrompt |}.

(** The image-prompts stage answers 503 at the positions selected by
    [bad]. *)
Definition unavailableAt (bad : nat -> bool) : Service :=
  {| vibe_extraction_endpoint := fun _ _ _ => goodVibe;
     image_prompts_endpoint :=
       fun k _ scs =>
         if bad k then NotOk (Some "Service Unavailable") else promptsFor scs;
     video_prompt_endpoint := fun _ _ _ => goodVideoPrompt |}.

Definition isoNow : string := "2025-01-02T03:04:05.678Z".

Definition fiveVideos : list VideoResult :=
  [ video "a" 2 10; video "b" 3 10; video "c" 1 10; video "d" 2 10;
    video "e" 1 10 ].

Definition threeVideos : list VideoResult :=
  [ video "a" 2 10; video "b" 3 10; video "c" 1 10 ].

(** Properties whose completion callback throws. *)
Definition throwingProps (rs : list VideoResult) : BatchGeminiAnalysisProps :=
  {| results := rs;
     onAnalysisComplete := fun _ => Raised "parent failed";
     onAutoSaveCSV :=
       fun resultsToExport filenameSuffix =>
         Returned
           (Csv.generateAndDownloadCSV isoNow resultsToExport
              filenameSuffix) |}.

(** A record whose [name] and [music_file] read as numerals. *)
Definition numeralNames : OutputJson :=
  {| name := "1.5";
     clips := [ {| index := Num0; duration := Num false 25 1;
                   required := true |} ];
     transitions := [];
     logo_outro := false;
     music_file := "-20.25";
     fade_in_duration := Num false 2 1;
     fade_out_duration := Num false 15 1;
     scenes := None;
     vibe_description := None;
     image_prompts := None;
     video_prompt := None |}.

(** A record whose [fade_in_duration] is 10^21. *)
Definition hugeFade : OutputJson :=
  {| name := "clip";
     clips := [];
     transitions := [];
     logo_outro := false;
     music_file := "a.mp3";
     fade_in_duration := Num false 1 22;
     fade_out_duration := Num false 2 1;
     scenes := None;
     vibe_description := None;
     image_prompts := None;
     video_prompt := None |}.

(** An application state with two results and a history of two entries,
    one of which bears the name of a result. *)
Definition mergeState : Merge.AppState :=
  {| Merge.app_results := [video "a" 2 10; video "b" 1 10];
     Merge.app_history :=
       [ {| h_id := "h1"; timestamp := Num false 17 13;
            h_videoName := "a"; h_jsonData := jsonData (video "a" 2 10) |};
         {| h_id := "h2"; timestamp := Num false 16 13;
            h_videoName := "z"; h_jsonData := jsonData (video "z" 1 10) |} ];
     Merge.isGeminiAnalysisComplete := false |}.

Definition analysisOf (rid : string) : Analysis :=
  {| resultId := rid; vibe := "calm";
     imagePrompts := Some ["a frame"; "a frame"];
     videoPrompt := Some "a film" |}.

End Samples.

(** * The rest of the front end *)

(** ** [ProgressStage] ([types.ts]) *)
Inductive ProgressStage : Type :=
| IDLE | UPLOADING | ANALYZING | DETECTING | EXPORTING | DONE.

(** ** [ResultsCarousel]: the two navigation handlers

    The updaters passed to [setCurrentIndex]; an index is a JavaScript
    number, here an integer. *)
Module ResultsCarousel.

Definition handlePrevious (results : list VideoResult) (prev : Z) : Z :=
  if (prev >? 0)%Z then (prev - 1)%Z
  else (Z.of_nat (List.length results) - 1)%Z.

Definition handleNext (results : list VideoResult) (prev : Z) : Z :=
  if (prev <? Z.of_nat (List.length results) - 1)%Z then (prev + 1)%Z
  else 0%Z.

(** [results[currentIndex]] *)
Definition currentResult (results : list VideoResult) (currentIndex : Z)
    : option VideoResult :=
  if (currentIndex <? 0)%Z then None
  else nth_error results (Z.to_nat currentIndex).

End ResultsCarousel.

(** ** [sceneDetectionService]

    A value that is thrown or with which a promise rejects: an [Error]
    with its message, or anything else. *)
Inductive Exception : Type :=
| ErrorOf (message : string)
| NotAnError.

Module SceneDetection.

(** The body of an answer whose status is outside 200-299, as
    [response.json()] gives it: unreadable, or an object with or without
    an [error]. *)
Inductive ErrorBody : Type :=
| Unreadable
| ErrorData (error : option string).

(** One exchange with the back end: [fetch] rejects, or answers with a
    status outside 200-299, or answers 2xx with a body that
    [response.json()] rejects, or with a parsed body. *)
Inductive Response (A : Type) : Type :=
| Failed (cause : Exception)
| Status (status : nat) (errorData : ErrorBody)
| Garbled (cause : Exception)
| Answer (jsonData : A).
Arguments Failed {A} cause.
Arguments Status {A} status errorData.
Arguments Garbled {A} cause.
Arguments Answer {A} jsonData.

(** The [try] block shared by the two functions: the parsed body, or what
    is thrown. *)
Definition request {A} (response : Response A) : A + Exception :=
  match response with
  | Failed cause => inr cause
  | Status status errorData =>
      let error :=
        match errorData with
        | Unreadable => Some "Unknown error"
        | ErrorData e => e
        end in
      inr (ErrorOf (or_else error ("Server error: " ++ show_nat status)))
  | Garbled cause => inr cause
  | Answer jsonData => inl jsonData
  end.

Definition analyzeVideoForScenes (response : Response OutputJson)
    : Completion OutputJson :=
  match request response with
  | inl jsonData => Returned jsonData
  | inr (ErrorOf message) => Raised ("Failed to analyze video: " ++ message)
  | inr NotAnError =>
      Raised "An unknown error occurred during video analysis."
  end.

Definition editJson (response : Response OutputJson)
    : Completion OutputJson :=
  match request response with
  | inl jsonData => Returned jsonData
  | inr (ErrorOf message) => Raised ("Failed to edit JSON: " ++ message)
  | inr NotAnError => Raised "An unknown error occurred during JSON editing."
  end.

End SceneDetection.

(** ** [App]: upload, history and view *)
Module App.

(** The state of the component, without the flag that guards the
    persistence of the history. *)
Record State := {
  videoFiles : list File;
  currentVideoIndex : nat;
  progressStage : ProgressStage;
  results : list VideoResult;
  isLoading : bool;
  error : option string;
  threshold : Z;
  history : list HistoryItem;
  showHistory : bool;
  isGeminiAnalysisComplete : bool
}.

Definition initial : State :=
  {| videoFiles := []; currentVideoIndex := 0; progressStage := IDLE;
     results := []; isLoading := false; error := None; threshold := 15%Z;
     history := []; showHistory := false;
     isGeminiAnalysisComplete := false |}.

(** What the environment supplies during an upload: the answer of the back
    end to the request for the file at a position, the identifiers drawn
    for the result and for the history entry of that file
    ([Date.now()] and [Math.random()]), and the clock. *)
Record Browser := {
  backend : nat -> File -> Z -> SceneDetection.Response OutputJson;
  resultIdAt : nat -> string;
  historyIdAt : nat -> string;
  dateNowAt : nat -> number
}.

(** [s.split(sep)] for a separator of one character. *)
Fixpoint split (sep : ascii) (s : string) : list string :=
  match s with
  | EmptyString => [EmptyString]
  | String c s' =>
      if Ascii.eqb c sep then EmptyString :: split sep s'
      else match split sep s' with
           | piece :: pieces => String c piece :: pieces
           | [] => [String c EmptyString]
           end
  end.

(** [file.name.split('.').slice(0, -1).join('.')] *)
Definition baseName (fileName : string) : string :=
  String.concat "." (removelast (split "." fileName)).

(** The updater of [addToHistory]. *)
Definition addToHistory (newId : string) (now : number)
    (jsonData : OutputJson) (videoName : string)
    (prev : list HistoryItem) : list HistoryItem :=
  {| h_id := newId; timestamp := now; h_videoName := videoName;
     h_jsonData := jsonData |} :: prev.

(** The updater of [deleteFromHistory]. *)
Definition deleteFromHistory (id : string) (prev : list HistoryItem)
    : list HistoryItem :=
  filter (fun item => negb (String.eqb (h_id item) id)) prev.

Definition resetState (st : State) : State :=
  {| videoFiles := []; currentVideoIndex := 0; progressStage := IDLE;
     results := []; isLoading := false; error := None; threshold := 15%Z;
     history := history st; showHistory := showHistory st;
     isGeminiAnalysisComplete := false |}.

(** [now] is the text of [Date.now()]. *)
Definition viewHistoryItem (now : string) (jsonData : OutputJson)
    (videoName : string) (st : State) : State :=
  let singleResult :=
    {| id := "history-" ++ now;
       videoName := videoName;
       jsonData := jsonData;
       file := {| file_name := videoName; size := 0%N |} |} in
  {| videoFiles := videoFiles st;
     currentVideoIndex := currentVideoIndex st;
     progressStage := DONE;
     results := [singleResult];
     isLoading := isLoading st;
     error := error st;
     threshold := threshold st;
     history := history st;
     showHistory := false;
     isGeminiAnalysisComplete :=
       truthy (vibe_description jsonData)
       || match image_prompts jsonData with Some _ => true | None => false end
       || truthy (video_prompt jsonData) |}.

(** The statements of one iteration of the loop of [handleFileUpload] that
    precede the request. *)
Definition beforeRequest (i : nat) (st : State) : State :=
  {| videoFiles := videoFiles st;
     currentVideoIndex := i;
     progressStage := DETECTING;
     results := results st;
     isLoading := isLoading st;
     error := error st;
     threshold := threshold st;
     history := history st;
     showHistory := showHistory st;
     isGeminiAnalysisComplete := isGeminiAnalysisComplete st |}.

(** The statements that follow an answer. *)
Definition afterAnswer (item : list HistoryItem -> list HistoryItem)
    (st : State) : State :=
  {| videoFiles := videoFiles st;
     currentVideoIndex := currentVideoIndex st;
     progressStage := EXPORTING;
     results := results st;
     isLoading := isLoading st;
     error := error st;
     threshold := threshold st;
     history := item (history st);
     showHistory := showHistory st;
     isGeminiAnalysisComplete := isGeminiAnalysisComplete st |}.

(** The end of the [try] block. *)
Definition uploaded (newResults : list VideoResult) (st : State) : State :=
  {| videoFiles := videoFiles st;
     currentVideoIndex := currentVideoIndex st;
     progressStage := DONE;
     results := newResults;
     isLoading := isLoading st;
     error := error st;
     threshold := threshold st;
     history := history st;
     showHistory := showHistory st;
     isGeminiAnalysisComplete := isGeminiAnalysisComplete st |}.

(** The [catch] block. *)
Definition uploadFailed (message : string) (st : State) : State :=
  {| videoFiles := videoFiles st;
     currentVideoIndex := currentVideoIndex st;
     progressStage := IDLE;
     results := results st;
     isLoading := isLoading st;
     error := Some message;
     threshold := threshold st;
     history := history st;
     showHistory := showHistory st;
     isGeminiAnalysisComplete := isGeminiAnalysisComplete st |}.

Section Upload.

Variable browser : Browser.

(** The sensitivity that the callback has captured. *)
Variable captured : Z.

(** [for (let i = 0; i < files.length; i++)] from index [i] on the files
    that remain, with the results gathered so far. *)
Fixpoint uploadFrom (remaining : list File) (i : nat)
    (newResults : list VideoResult) (st : State) : State :=
  match remaining with
  | [] => uploaded newResults st
  | file :: rest =>
      let st1 := beforeRequest i st in
      match SceneDetection.analyzeVideoForScenes
              (backend browser i file captured) with
      | Raised message => uploadFailed message st1
      | Returned result =>
          let name := baseName (file_name file) in
          let videoResult :=
            {| id := resultIdAt browser i;
               videoName := name;
               jsonData := result;
               file := file |} in
          uploadFrom rest (S i) (newResults ++ [videoResult])
            (afterAnswer
               (addToHistory (historyIdAt browser i) (dateNowAt browser i)
                  result name)
               st1)
      end
  end.

End Upload.

(** [handleFileUpload]: the state when the promise settles. *)
Definition handleFileUpload (browser : Browser) (files : list File)
    (st : State) : State :=
  let st0 := resetState st in
  let st1 :=
    {| videoFiles := files;
       currentVideoIndex := currentVideoIndex st0;
       progressStage := progressStage st0;
       results := results st0;
       isLoading := true;
       error := error st0;
       threshold := threshold st0;
       history := history st0;
       showHistory := showHistory st0;
       isGeminiAnalysisComplete := isGeminiAnalysisComplete st0 |} in
  let st2 := uploadFrom browser (threshold st) files 0 [] st1 in
  {| videoFiles := videoFiles st2;
     currentVideoIndex := currentVideoIndex st2;
     progressStage := progressStage st2;
     results := results st2;
     isLoading := false;
     error := error st2;
     threshold := threshold st2;
     history := history st2;
     showHistory := showHistory st2;
     isGeminiAnalysisComplete := isGeminiAnalysisComplete st2 |}.

(** [handleBatchAnalysisComplete] on the whole state. *)
Definition handleBatchAnalysisComplete (analyses : list Analysis)
    (st : State) : State :=
  {| videoFiles := videoFiles st;
     currentVideoIndex := currentVideoIndex st;
     progressStage := progressStage st;
     results := Merge.mergeResults analyses (results st);
     isLoading := isLoading st;
     error := error st;
     threshold := threshold st;
     history := Merge.mergeHistory (results st) analyses (history st);
     showHistory := showHistory st;
     isGeminiAnalysisComplete := true |}.

(** [exportAllToCSV] *)
Definition exportAllToCSV (isoNow : string) (st : State) : option Download :=
  Csv.generateAndDownloadCSV isoNow (results st) "".

End App.

(** ** [BatchGeminiAnalysis]: the effect that starts the run

    The second effect of the component, which runs when the key or the
    results change; the three flags are the state of the component at that
    moment. *)
Module BatchMount.

Definition autoStart (apiKey : string) (service : Service)
    (props : BatchGeminiAnalysisProps)
    (isComplete isAnalyzing : bool) (error : option string) : BatchState :=
  if negb (String.eqb apiKey "")
     && negb (Nat.eqb (List.length (results props)) 0)
     && negb isComplete && negb isAnalyzing && negb (truthy error)
  then
    match Batch.videosWithScenes props with
    | _ :: _ => Batch.handleBatchAnalyze apiKey service props
    | [] =>
        Batch.emitS (AnalysisComplete [])
          (Batch.emitS (SetIsComplete true) initialState)
    end
  else initialState.

(** What the component renders: nothing when no video is eligible. *)
Definition rendersPanel (props : BatchGeminiAnalysisProps) : bool :=
  negb (Nat.eqb (List.length (Batch.videosWithScenes props)) 0).

End BatchMount.

(** ** The value of a stored number *)

(** [s * 10^(n - k)], with [k] the number of digits of [s]. *)
Definition valueOf (x : number) : Q :=
  match x with
  | Num0 => 0%Q
  | Num neg s n =>
      let v := (inject_Z (Zpos s) * Qpower 10 (n - JsNumber.numDigits s))%Q in
      if neg then (- v)%Q else v
  end.

(** ** [History] *)
Module History.

Inductive SortOrder : Type := ascending | descending.

(** The comparison functions [(a, b) => a.timestamp - b.timestamp] and
    [(a, b) => b.timestamp - a.timestamp].  Only the sign of the result is
    used, and the difference of two doubles has the sign of the exact
    difference. *)
Definition compareFn (sortOrder : SortOrder) (a b : HistoryItem) : Q :=
  match sortOrder with
  | ascending => (valueOf (timestamp a) - valueOf (timestamp b))%Q
  | descending => (valueOf (timestamp b) - valueOf (timestamp a))%Q
  end.

(** [Array.prototype.sort] is stable: elements that compare equal keep
    their order.  With a comparison that orders the elements this fixes the
    result, written here by insertion. *)
Fixpoint insert (cmp : HistoryItem -> HistoryItem -> Q) (x : HistoryItem)
    (l : list HistoryItem) : list HistoryItem :=
  match l with
  | [] => [x]
  | y :: l' =>
      if Qle_bool (cmp x y) 0 then x :: y :: l' else y :: insert cmp x l'
  end.

Fixpoint sort (cmp : HistoryItem -> HistoryItem -> Q)
    (items : list HistoryItem) : list HistoryItem :=
  match items with
  | [] => []
  | x :: rest => insert cmp x (sort cmp rest)
  end.

Definition sortedHistoryItems (historyItems : list HistoryItem)
    (sortOrder : SortOrder) : list HistoryItem :=
  sort (compareFn sortOrder) historyItems.

Definition toggleSortOrder (prev : SortOrder) : SortOrder :=
  match prev with
  | ascending => descending
  | descending => ascending
  end.

(** [toggleExpand]: the new value of [expandedId]. *)
Definition toggleExpand (expandedId : option string) (id : string)
    : option string :=
  match expandedId with
  | Some e => if String.eqb e id then None else Some id
  | None => Some id
  end.

(** [new Date(timestamp).getTime()]: the time value, which is the number
    truncated to an integer, or nothing (an invalid date) when it is beyond
    8.64e15 milliseconds from the epoch. *)
Definition timeValue (timestamp : number) : option Z :=
  let v := valueOf timestamp in
  if Qle_bool (Qabs v) (inject_Z 8640000000000000)
  then Some (Z.quot (Qnum v) (Zpos (Qden v)))
  else None.

Section FormatDate.

(** [date.toLocaleDateString('en-US', ...)] on a time value. *)
Variable toLocaleDateString : Z -> string.

(** The time value of [new Date()]. *)
Variable now : Z.

(** [`${n}`] for an integer. *)
Definition show_Z (n : Z) : string :=
  if (n <? 0)%Z then "-" ++ show_nat (Z.abs_nat n) else show_nat (Z.to_nat n).

Definition formatDate (timestamp : number) : string :=
  match timeValue timestamp with
  | None => "Invalid Date"
  | Some date =>
      let diffMs := Binary64.RN (inject_Z now - inject_Z date) in
      let diffMins :=
        Binary64.Math_floor (Binary64.fdiv diffMs (inject_Z 60000)) in
      let diffHours :=
        Binary64.Math_floor (Binary64.fdiv diffMs (inject_Z 3600000)) in
      let diffDays :=
        Binary64.Math_floor (Binary64.fdiv diffMs (inject_Z 86400000)) in
      if (diffMins <? 1)%Z then "Just now"
      else if (diffMins <? 60)%Z then show_Z diffMins ++ "m ago"
      else if (diffHours <? 24)%Z then show_Z diffHours ++ "h ago"
      else if (diffDays <? 7)%Z then show_Z diffDays ++ "d ago"
      else toLocaleDateString date
  end.

End FormatDate.

End History.

(** ** Vocabulary of the upload *)
Module UploadTerms.

Section Terms.

Variable browser : App.Browser.
Variable captured : Z.

(** A position of the upload, its file and the record the back end
    answered with. *)
Definition Answered : Type := (nat * (File * OutputJson))%type.

(** The files from position [i] on, each with its answer. *)
Definition answered (i : nat) (files : list File) (answers : list OutputJson)
    : list Answered :=
  combine (seq i (List.length files)) (combine files answers).

(** The back end answers the request of that position with that record. *)
Definition answeredWith (x : Answered) : Prop :=
  SceneDetection.analyzeVideoForScenes
    (App.backend browser (fst x) (fst (snd x)) captured)
  = Returned (snd (snd x)).

(** The result made of an answered file. *)
Definition videoResultOf (x : Answered) : VideoResult :=
  {| id := App.resultIdAt browser (fst x);
     videoName := App.baseName (file_name (fst (snd x)));
     jsonData := snd (snd x);
     file := fst (snd x) |}.

(** The history entry made of an answered file. *)
Definition historyItemOf (x : Answered) : HistoryItem :=
  {| h_id := App.historyIdAt browser (fst x);
     timestamp := App.dateNowAt browser (fst x);
     h_videoName := App.baseName (file_name (fst (snd x)));
     h_jsonData := snd (snd x) |}.

End Terms.

End UploadTerms.

(** ** [GeminiAnalysis]: the analysis of a single video *)
Module GeminiAnalysis.

Local Open Scope string_scope.

Record AnalysisResults := {
  vibeExtraction : option string;
  ar_imagePrompts : option (list string);
  ar_videoPrompt : option string
}.

(** The text shown by [setCurrentStep], without its pictograms. *)
Inductive Step : Type :=
| Preparing
| ExtractingVibe
| GeneratingImagePrompts
| SynthesizingVideoPrompt
| Complete
| NoStep.

(** Observable effects of [handleAnalyze], in the order they happen. *)
Inductive Event : Type :=
| SetIsAnalyzing (b : bool)
| SetError (e : option string)
| SetAnalysisResults (r : option AnalysisResults)
| SetCurrentStep (s : Step)
| SetExpandedContainer (index : option nat)
| Fetch (stage : Stage)
| AnalysisComplete (results : AnalysisResults)
| ConsoleError (text : string).

(** The optional [onAnalysisComplete] property. *)
Definition Callback : Type :=
  option (AnalysisResults -> option Exception).

(** [await fetch(...)], the [ok] test with its fallback text and
    [await response.json()]: the parsed body, or what is thrown. *)
Definition fetchJson {A} (answer : Fetched A) (fallback : string)
    : A + Exception :=
  match answer with
  | Rejected message => inr (ErrorOf message)
  | NotOk err => inr (ErrorOf (or_else err fallback))
  | BadBody message => inr (ErrorOf message)
  | Ok body => inl body
  end.

(** [err instanceof Error ? err.message : ...] *)
Definition messageOf (err : Exception) : string :=
  match err with
  | ErrorOf message => message
  | NotAnError => "An unexpected error occurred"
  end.

(** The [catch] block. *)
Definition caught (err : Exception) : list Event :=
  let errorMessage := messageOf err in
  [SetError (Some errorMessage);
   ConsoleError ("Analysis error: " ++ errorMessage)].

Section Analyze.

Variable apiKey : string.
Variable scenes : list SceneData.
Variable videoFile : File.
Variable service : Service.
Variable onAnalysisComplete : Callback.

(** The statements of the [try] block.  The service is asked as for the
    first video of a run. *)
Definition tryAnalyze : list Event :=
  [SetCurrentStep ExtractingVibe; Fetch (VibeExtraction apiKey videoFile)]
  ++ match fetchJson (vibe_extraction_endpoint service 1 apiKey videoFile)
             "Failed to extract vibe" with
     | inr err => caught err
     | inl vibeData =>
         [SetCurrentStep GeneratingImagePrompts;
          Fetch (ImagePrompts apiKey scenes)]
         ++ match fetchJson (image_prompts_endpoint service 1 apiKey scenes)
                    "Failed to generate image prompts" with
            | inr err => caught err
            | inl imagePromptsData =>
                [SetCurrentStep SynthesizingVideoPrompt;
                 Fetch (VideoPrompt apiKey
                          (r_image_prompts imagePromptsData))]
                ++ match fetchJson
                           (video_prompt_endpoint service 1 apiKey
                              (r_image_prompts imagePromptsData))
                           "Failed to generate video prompt" with
                   | inr err => caught err
                   | inl videoPromptData =>
                       let results :=
                         {| vibeExtraction := vibe_extraction vibeData;
                            ar_imagePrompts :=
                              r_image_prompts imagePromptsData;
                            ar_videoPrompt :=
                              r_video_prompt videoPromptData |} in
                       [SetCurrentStep Complete;
                        SetAnalysisResults (Some results)]
                       ++ match onAnalysisComplete with
                          | None => [SetExpandedContainer (Some 1)]
                          | Some callback =>
                              AnalysisComplete results
                              :: match callback results with
                                 | None =>
                                     [SetExpandedContainer (Some 1)]
                                 | Some err => caught err
                                 end
                          end
                   end
            end
     end.

Definition handleAnalyze : list Event :=
  if blank apiKey then
    [SetError (Some
       "Gemini API key not found. Please add VITE_GEMINI_API_KEY to your .env.local file")]
  else
    [SetIsAnalyzing true; SetError None; SetAnalysisResults None;
     SetCurrentStep Preparing]
    ++ tryAnalyze
    ++ [SetIsAnalyzing false; SetCurrentStep NoStep].

End Analyze.

(** The requests of a trace, in order. *)
Definition requests (tr : list Event) : list Stage :=
  flat_map (fun e => match e with Fetch stage => [stage] | _ => [] end) tr.

(** The values given to [setAnalysisResults] and to [setError]. *)
Definition resultsSet (tr : list Event) : list (option AnalysisResults) :=
  flat_map (fun e => match e with SetAnalysisResults r => [r] | _ => [] end)
    tr.

Definition errorsSet (tr : list Event) : list (option string) :=
  flat_map (fun e => match e with SetError m => [m] | _ => [] end) tr.

(** [toggleContainer]: the new value of [expandedContainer]. *)
Definition toggleContainer (expandedContainer : option nat) (index : nat)
    : option nat :=
  match expandedContainer with
  | Some e => if Nat.eqb e index then None else Some index
  | None => Some index
  end.

End GeminiAnalysis.

(** ** [UploadZone] *)
Module UploadZone.

Local Open Scope string_scope.

(** A file of a drop or of the file picker, with the media type the
    browser gives it ([file.type]). *)
Record Offered := {
  offered : File;
  mediaType : string
}.

Inductive Effect : Type :=
| SetIsDragging (b : bool)
| Alert (message : string)
| FileUpload (files : list File)
| ClearData.

(** [file.type.startsWith('video/')] *)
Definition isVideo (f : Offered) : bool := String.prefix "video/" (mediaType f).

(** [handleDrop], for the files of [e.dataTransfer.files]. *)
Definition handleDrop (isLoading : bool) (files : list Offered)
    : list Effect :=
  SetIsDragging false
  :: if isLoading then []
     else
       match files with
       | [] => []
       | _ :: _ =>
           let videoFiles := filter isVideo files in
           (match videoFiles with
            | [] => [Alert "Please upload valid video files."]
            | _ :: _ =>
                (if (List.length videoFiles <? List.length files)%nat
                 then [Alert (show_nat (List.length files
                                        - List.length videoFiles)
                              ++ " non-video file(s) were skipped.")]
                 else [])
                ++ [FileUpload (map offered videoFiles)]%list
            end)
           ++ [ClearData]
       end%list.

(** [handleFileChange], for the files of [e.target.files]. *)
Definition handleFileChange (files : list Offered) : list Effect :=
  match files with
  | [] => []
  | _ :: _ => [FileUpload (map offered files)]
  end.

(** The calls of [onFileUpload]. *)
Definition uploads (effects : list Effect) : list (list File) :=
  flat_map (fun e => match e with FileUpload fs => [fs] | _ => [] end)
    effects.

End UploadZone.

(** ** [DownloadAllFramesButton] and [SceneFramesPreview]: the files of the
    archive *)
Module Frames.

Local Open Scope string_scope.

(** [s.padStart(targetLength, '0')] *)
Definition padStart (targetLength : nat) (s : string) : string :=
  JsNumber.zeros (targetLength - String.length s) ++ s.

(** The name of the file of a scene, the same in both components. *)
Definition fileName (scene : SceneData) : string :=
  "scene_" ++ padStart 3 (JsNumber.toString (scene_index scene))
  ++ "_frame.png".

(** [scene.frame_preview.split(',')[1] || scene.frame_preview] *)
Definition base64Data (scene : SceneData) : string :=
  or_else (nth_error (App.split "," (frame_preview scene)) 1)
    (frame_preview scene).

(** The test that skips a result, negated: the result has scenes. *)
Definition framed (result : VideoResult) : bool :=
  match scenes (jsonData result) with
  | Some (_ :: _) => true
  | _ => false
  end.

(** [hasAnyScenes]: the button is rendered. *)
Definition hasAnyScenes (results : list VideoResult) : bool :=
  existsb framed results.

End Frames.

(** ** Vocabulary of the frame names *)
Module FrameTerms.

(** A text as [toString] writes it: the single digit zero, or a text that
    starts with zero and a point, or a text that starts with neither a
    zero nor a point. *)
Definition headed (s : string) : Prop :=
  s = "0"%string
  \/ (exists r, s = String "0" (String "." r))
  \/ (exists c r, s = String c r /\ c <> "0"%char /\ c <> "."%char).

End FrameTerms.

(** ** [App.renderContent] *)
Module Content.

Local Open Scope string_scope.

(** What the main area shows: the failure with its text and the button
    that resets; the carousel; the progress of the upload, with its
    heading, the name of the current video, the stage of the bar and
    whether the line that asks for patience is there; or the form with the
    sensitivity and the upload zone. *)
Inductive View : Type :=
| AnalysisFailed (error : string)
| Carousel (results : list VideoResult)
| Analyzing (heading currentVideoName : string)
            (currentStage : ProgressStage) (isLoading : bool)
| UploadForm (threshold : Z) (isLoading : bool).

Definition renderContent (st : App.State) : View :=
  if truthy (App.error st) then AnalysisFailed (or_else (App.error st) "")
  else if (0 <? List.length (App.results st))%nat
  then Carousel (App.results st)
  else if App.isLoading st || (0 <? List.length (App.videoFiles st))%nat
  then
    let currentVideoName :=
      match nth_error (App.videoFiles st) (App.currentVideoIndex st) with
      | Some currentFile => App.baseName (file_name currentFile)
      | None => ""
      end in
    Analyzing
      ("Analyzing "
       ++ (if (1 <? List.length (App.videoFiles st))%nat
           then "Video " ++ show_nat (App.currentVideoIndex st + 1) ++ " of "
                ++ show_nat (List.length (App.videoFiles st))
           else "Video"))
      currentVideoName (App.progressStage st) (App.isLoading st)
  else UploadForm (App.threshold st) (App.isLoading st).

End Content.

(** ** A reader of comma-separated values

    The reader against which the export is checked.  It follows the usual
    rules (RFC 4180): fields are separated by commas and records by line
    feeds; a field that opens with a double quote runs to the closing
    double quote, and inside it two double quotes stand for one. *)
Module CsvReader.

Inductive Mode : Type :=
| Plain       (* in a field without quotes, or at the start of a field *)
| Quoted      (* inside the quotes of a field *)
| QuoteSeen.  (* inside the quotes, right after a double quote *)

(** [field] and [record] are the characters of the current field and the
    fields of the current record that were read so far. *)
Fixpoint read (mode : Mode) (field : string) (record : list string)
    (s : string) : list (list string) :=
  match s with
  | EmptyString => [record ++ [field]]
  | String c rest =>
      match mode with
      | Quoted =>
          if Ascii.eqb c Json.dquote then read QuoteSeen field record rest
          else read Quoted (field ++ String c "") record rest
      | Plain | QuoteSeen =>
          if Ascii.eqb c Json.dquote then
            match mode with
            | QuoteSeen =>
                read Quoted (field ++ String c "") record rest
            | _ => read Quoted field record rest
            end
          else if Ascii.eqb c ","
          then read Plain "" (record ++ [field]) rest
          else if Ascii.eqb c Csv.newline
          then (record ++ [field]) :: read Plain "" [] rest
          else read Plain (field ++ String c "") record rest
      end
  end.

Definition readCSV (s : string) : list (list string) := read Plain "" [] s.

(** What follows a field: the end of the text, or the comma or the line
    feed that ends the field. *)
Definition afterField (t : string) : Prop :=
  t = ""%string
  \/ (exists t', t = String "," t')
  \/ (exists t', t = String Csv.newline t').

End CsvReader.

(** ** Sample uploads and histories *)
Module Scenarios.

Local Open Scope string_scope.

Definition clipFile (nm : string) : File :=
  {| file_name := nm ++ ".mp4"; size := 2048%N |}.

Definition analysed (nm : string) : OutputJson :=
  jsonData (Samples.video nm 2 2048).

(** A back end that analyses every file but the one called [broken.mp4],
    for which it answers 500 with an error text. *)
Definition browser : App.Browser :=
  {| App.backend :=
       fun _ file _ =>
         if String.eqb (file_name file) "broken.mp4"
         then SceneDetection.Status 500
                (SceneDetection.ErrorData (Some "decoder crashed"))
         else SceneDetection.Answer
                (analysed (App.baseName (file_name file)));
     App.resultIdAt := fun i => "r" ++ show_nat i;
     App.historyIdAt := fun i => "h" ++ show_nat i;
     App.dateNowAt := fun i => Num false (Pos.of_nat (1700 + i)) 13 |}.

(** The state of [App] with a sensitivity of 12 chosen and one entry in the
    history. *)
Definition tuned : App.State :=
  {| App.videoFiles := []; App.currentVideoIndex := 0;
     App.progressStage := IDLE; App.results := []; App.isLoading := false;
     App.error := None; App.threshold := 12%Z;
     App.history :=
       [ {| h_id := "old"; timestamp := Num false 16 13;
            h_videoName := "earlier"; h_jsonData := analysed "earlier" |} ];
     App.showHistory := false;
     App.isGeminiAnalysisComplete := true |}.


End Scenarios.

(** ** Vocabulary of the export texts *)
Module TextTerms.

(** The number of occurrences of [c] in [s]. *)
Fixpoint count (c : ascii) (s : string) : nat :=
  match s with
  | EmptyString => 0
  | String d rest => (if Ascii.eqb d c then 1 else 0) + count c rest
  end.

(** [s] contains two asterisks in a row. *)
Fixpoint hasDoubleAsterisk (s : string) : bool :=
  match s with
  | EmptyString => false
  | String c rest =>
      (Ascii.eqb c "*"
       && match rest with
          | String d _ => Ascii.eqb d "*"
          | EmptyString => false
          end)
      || hasDoubleAsterisk rest
  end.

(** The test of [escapeCSV]: the value holds a comma, a double quote or a
    line feed. *)
Definition needsQuotes (value : string) : bool :=
  Csv.includes "," value || Csv.includes Json.dquote value
  || Csv.includes Csv.newline value.





End TextTerms.

(** ** Vocabulary of the history list *)
Module HistoryTerms.

(** [a] is not placed after [b] by the comparison function. *)
Definition inOrder (sortOrder : History.SortOrder) (a b : HistoryItem) : Prop :=
  (History.compareFn sortOrder a b <= 0)%Q.

(** The entry is stamped with the time [t]. *)
Definition stampedAt (t : Q) (item : HistoryItem) : bool :=
  Qeq_bool (valueOf (timestamp item)) t.

End HistoryTerms.

(** ** Vocabulary of the requests and failures of a run *)
Module RunTerms.

Local Open Scope string_scope.

(** What an exchange that does not end with a parsed 2xx answer throws. *)
Definition stageError {A} (what videoName : string) (answer : Fetched A)
    : option string :=
  match answer with
  | Rejected message => Some message
  | NotOk err =>
      Some ("Failed to " ++ what ++ " for " ++ videoName ++ ": "
            ++ or_else err "Unknown error")
  | BadBody message => Some message
  | Ok _ => None
  end.

Section Terms.

Variable apiKey : string.
Variable service : Service.

(** The reason with which the video at position [k] fails, if it does: the
    first stage that does not succeed tells it. *)
Definition failureReason (v : VideoResult) (k : nat) : option string :=
  match vibe_extraction_endpoint service k apiKey (file v) with
  | Ok d =>
      if softFailure (Ok d)
      then Some (or_else (error d) "API returned no content")
      else
        match scenes (jsonData v) with
        | None => Some "Cannot read properties of undefined (reading 'map')"
        | Some scs =>
            match image_prompts_endpoint service k apiKey scs with
            | Ok ip =>
                stageError "generate video prompt" (videoName v)
                  (video_prompt_endpoint service k apiKey
                     (r_image_prompts ip))
            | other =>
                stageError "generate image prompts" (videoName v) other
            end
        end
  | other => stageError "extract vibe" (videoName v) other
  end.

(** A request is in its place: it is made for the video [v] at position
    [k] with the key of the run, the image prompts are asked for the scenes
    of the video after a usable answer of the vibe stage, and the video
    prompt is asked for the prompts that the image-prompts stage has
    answered. *)
Definition inPlace (v : VideoResult) (k : nat) (stage : Stage) : Prop :=
  match stage with
  | VibeExtraction key video => key = apiKey /\ video = file v
  | ImagePrompts key scs =>
      key = apiKey /\ scenes (jsonData v) = Some scs
      /\ exists d, vibe_extraction_endpoint service k apiKey (file v) = Ok d
                   /\ softFailure (Ok d) = false
  | VideoPrompt key prompts =>
      key = apiKey
      /\ (exists d, vibe_extraction_endpoint service k apiKey (file v) = Ok d
                    /\ softFailure (Ok d) = false)
      /\ exists scs ip,
           scenes (jsonData v) = Some scs
           /\ image_prompts_endpoint service k apiKey scs = Ok ip
           /\ prompts = r_image_prompts ip
  end.

End Terms.

(** The result [r] is the video [v] with the enrichment of the analysis
    [a] and nothing else changed. *)
Definition enrichmentOf (a : Analysis) (v r : VideoResult) : Prop :=
  resultId a = id v /\ id r = id v /\ videoName r = videoName v
  /\ file r = file v
  /\ sameButEnrichment (jsonData v) (jsonData r)
  /\ enrichedBy a (jsonData r)
  /\ vibe a <> "".

(** The exports made so far carry initial parts of what is accumulated,
    and none is empty. *)
Definition payloadsSoFar (st : BatchState) : Prop :=
  Forall (fun c => fst c <> []
                   /\ exists more, analyzedResults st = (fst c ++ more)%list)
    (exportCalls (trace st)).

End RunTerms.

(** * Properties *)

(** ** Rounding to binary64 *)
Module Binary64Facts.

Import Binary64.
Local Open Scope Q_scope.

Lemma pow2_pos (e : Z) : 0 < 2 ^ e.
Proof. apply Qpower_0_lt. reflexivity. Qed.

Lemma pow2_add (a b : Z) : 2 ^ (a + b) == 2 ^ a * 2 ^ b.
Proof. apply Qpower_plus. discriminate. Qed.

Lemma pow2_le (a b : Z) : (a <= b)%Z -> 2 ^ a <= 2 ^ b.
Proof. intros H. apply Qpower_le_compat_l; [exact H | discriminate]. Qed.

Lemma pow2_inject (n : Z) : (0 <= n)%Z -> inject_Z (2 ^ n) == 2 ^ n.
Proof. intros H. apply (Zpower_Qpower 2 n H). Qed.

(** *** Rounding to the nearest integer *)

Lemma rne_floor (x : Q) : (Qfloor x <= rne x <= Qfloor x + 1)%Z.
Proof.
  unfold rne. destruct (Qcompare _ _); [destruct (Z.even _)| |]; lia.
Qed.

Lemma rne_ge (x : Q) (z : Z) : inject_Z z <= x -> (z <= rne x)%Z.
Proof.
  intros H. apply Qfloor_resp_le in H. rewrite Qfloor_Z in H.
  pose proof (rne_floor x). lia.
Qed.

Lemma rne_le (x : Q) (z : Z) : x <= inject_Z z -> (rne x <= z)%Z.
Proof.
  intros H. pose proof (rne_floor x) as Hf.
  destruct (Z.eq_dec (Qfloor x) z) as [E | N].
  - unfold rne. rewrite E.
    assert (Hc : Qcompare (x - inject_Z z) (1 # 2) = Lt).
    { apply (proj1 (Qlt_alt _ _)). lra. }
    rewrite Hc. lia.
  - apply Qfloor_resp_le in H. rewrite Qfloor_Z in H. lia.
Qed.

Lemma rne_mono (x y : Q) : x <= y -> (rne x <= rne y)%Z.
Proof.
  intros H. pose proof (Qfloor_resp_le _ _ H) as Hf.
  pose proof (rne_floor x) as Hx. pose proof (rne_floor y) as Hy.
  destruct (Z.eq_dec (Qfloor x) (Qfloor y)) as [E | N]; [|lia].
  unfold rne. rewrite <- E.
  destruct (Qcompare (x - inject_Z (Qfloor x)) (1 # 2)) eqn:Cx;
    destruct (Qcompare (y - inject_Z (Qfloor x)) (1 # 2)) eqn:Cy;
    try (destruct (Z.even (Qfloor x))); try lia;
    exfalso;
    rewrite <- ?Qeq_alt, <- ?Qlt_alt, <- ?Qgt_alt in Cx;
    rewrite <- ?Qeq_alt, <- ?Qlt_alt, <- ?Qgt_alt in Cy; lra.
Qed.

(** *** The binary exponent *)

Lemma log2_Q (a : Z) :
  (0 < a)%Z ->
  2 ^ Z.log2 a <= inject_Z a /\ inject_Z a < 2 ^ (Z.log2 a + 1).
Proof.
  intros H. destruct (Z.log2_spec a H) as [L U].
  pose proof (Z.log2_nonneg a) as Hn.
  rewrite <- !pow2_inject by lia. rewrite <- Zle_Qle, <- Zlt_Qlt.
  replace (Z.log2 a + 1)%Z with (Z.succ (Z.log2 a)) by lia. auto.
Qed.

Lemma ilog2_spec (q : Q) :
  0 < q -> 2 ^ ilog2 q <= q /\ q < 2 ^ (ilog2 q + 1).
Proof.
  intros Hq. unfold ilog2.
  set (a := Qnum q). set (b := Qden q).
  assert (Ha : (0 < a)%Z).
  { unfold Qlt in Hq. cbn in Hq. subst a. lia. }
  destruct (log2_Q a Ha) as [La Ua].
  destruct (log2_Q (Zpos b) eq_refl) as [Lb Ub].
  set (la := Z.log2 a) in *. set (lb := Z.log2 (Zpos b)) in *.
  assert (Eq : q == inject_Z a / inject_Z (Zpos b)).
  { destruct q as [n d]. apply Qmake_Qdiv. }
  assert (Hb : 0 < inject_Z (Zpos b)) by reflexivity.
  destruct (Qle_bool (2 ^ (la - lb)) q) eqn:C.
  - apply Qle_bool_iff in C. split; [exact C|].
    rewrite Eq. apply Qlt_shift_div_r; [exact Hb|].
    pose proof (pow2_pos (la - lb + 1)) as Hx.
    assert (Hm : 2 ^ (la - lb + 1) * 2 ^ lb == 2 ^ (la + 1)).
    { rewrite <- pow2_add. replace (la - lb + 1 + lb)%Z with (la + 1)%Z by lia.
      reflexivity. }
    nra.
  - assert (C' : q < 2 ^ (la - lb)).
    { apply Qnot_le_lt. intros H. apply Qle_bool_iff in H. congruence. }
    replace (la - lb - 1 + 1)%Z with (la - lb)%Z by lia.
    split; [|exact C'].
    rewrite Eq. apply Qle_shift_div_l; [exact Hb|].
    pose proof (pow2_pos (la - lb - 1)) as Hx.
    assert (Hm : 2 ^ (la - lb - 1) * 2 ^ (lb + 1) == 2 ^ la).
    { rewrite <- pow2_add. replace (la - lb - 1 + (lb + 1))%Z with la by lia.
      reflexivity. }
    nra.
Qed.

Lemma ilog2_mono (x y : Q) : 0 < x -> x <= y -> (ilog2 x <= ilog2 y)%Z.
Proof.
  intros Hx Hxy.
  destruct (ilog2_spec x Hx) as [Lx _].
  destruct (ilog2_spec y (Qlt_le_trans _ _ _ Hx Hxy)) as [_ Uy].
  destruct (Z_lt_le_dec (ilog2 y) (ilog2 x)) as [H | H]; [|exact H].
  exfalso. pose proof (pow2_le (ilog2 y + 1) (ilog2 x) ltac:(lia)). lra.
Qed.

(** *** Rounding to 53 bits *)

(** The scaled operand lies between 2^52 and 2^53. *)
Lemma scaled_range (q : Q) :
  0 < q ->
  inject_Z (2 ^ 52) <= q / 2 ^ (ilog2 q - 52)
  /\ q / 2 ^ (ilog2 q - 52) <= inject_Z (2 ^ 53).
Proof.
  intros Hq. destruct (ilog2_spec q Hq) as [L U].
  pose proof (pow2_pos (ilog2 q - 52)) as He.
  rewrite !pow2_inject by lia.
  assert (E1 : 2 ^ 52 * 2 ^ (ilog2 q - 52) == 2 ^ ilog2 q).
  { rewrite <- pow2_add. replace (52 + (ilog2 q - 52))%Z with (ilog2 q) by lia.
    reflexivity. }
  assert (E2 : 2 ^ 53 * 2 ^ (ilog2 q - 52) == 2 ^ (ilog2 q + 1)).
  { rewrite <- pow2_add.
    replace (53 + (ilog2 q - 52))%Z with (ilog2 q + 1)%Z by lia.
    reflexivity. }
  split.
  - apply Qle_shift_div_l; [exact He|]. rewrite E1. exact L.
  - apply Qle_shift_div_r; [exact He|]. rewrite E2. apply Qlt_le_weak.
    exact U.
Qed.

(** The rounded value stays in the binade of its operand. *)
Lemma RNpos_range (q : Q) :
  0 < q -> 2 ^ ilog2 q <= RNpos q /\ RNpos q <= 2 ^ (ilog2 q + 1).
Proof.
  intros Hq. destruct (scaled_range q Hq) as [L U].
  apply rne_ge in L. apply rne_le in U.
  unfold RNpos. cbv zeta.
  set (m := rne (q / 2 ^ (ilog2 q - 52))) in *.
  pose proof (pow2_pos (ilog2 q - 52)) as He.
  assert (E1 : 2 ^ 52 * 2 ^ (ilog2 q - 52) == 2 ^ ilog2 q).
  { rewrite <- pow2_add. replace (52 + (ilog2 q - 52))%Z with (ilog2 q) by lia.
    reflexivity. }
  assert (E2 : 2 ^ 53 * 2 ^ (ilog2 q - 52) == 2 ^ (ilog2 q + 1)).
  { rewrite <- pow2_add.
    replace (53 + (ilog2 q - 52))%Z with (ilog2 q + 1)%Z by lia.
    reflexivity. }
  rewrite Zle_Qle in L, U. rewrite !pow2_inject in L, U by lia.
  split.
  - rewrite <- E1. apply Qmult_le_compat_r; [exact L|].
    apply Qlt_le_weak. exact He.
  - rewrite <- E2. apply Qmult_le_compat_r; [exact U|].
    apply Qlt_le_weak. exact He.
Qed.

Lemma RNpos_pos (q : Q) : 0 < q -> 0 < RNpos q.
Proof.
  intros Hq. destruct (RNpos_range q Hq) as [L _].
  apply Qlt_le_trans with (2 ^ ilog2 q); [apply pow2_pos | exact L].
Qed.

Lemma RNpos_mono (x y : Q) : 0 < x -> x <= y -> RNpos x <= RNpos y.
Proof.
  intros Hx Hxy.
  assert (Hy : 0 < y) by (apply Qlt_le_trans with x; assumption).
  pose proof (ilog2_mono x y Hx Hxy) as Hl.
  destruct (Z.eq_dec (ilog2 x) (ilog2 y)) as [E | N].
  - unfold RNpos. cbv zeta. rewrite E.
    pose proof (pow2_pos (ilog2 y - 52)) as He.
    apply Qmult_le_compat_r; [|apply Qlt_le_weak; exact He].
    rewrite <- Zle_Qle. apply rne_mono.
    unfold Qdiv. apply Qmult_le_compat_r; [exact Hxy|].
    apply Qinv_le_0_compat. apply Qlt_le_weak. exact He.
  - destruct (RNpos_range x Hx) as [_ Ux].
    destruct (RNpos_range y Hy) as [Ly _].
    pose proof (pow2_le (ilog2 x + 1) (ilog2 y) ltac:(lia)). lra.
Qed.

Lemma Qnum_pos (q : Q) : 0 < q <-> exists p, Qnum q = Zpos p.
Proof.
  destruct q as [[|p|p] d]; unfold Qlt; cbn; split; intros H;
    try lia; try (destruct H; discriminate); eauto.
Qed.

Lemma RN_nonneg_mono (x y : Q) : 0 <= x -> x <= y -> RN x <= RN y.
Proof.
  intros Hx Hxy. unfold RN.
  destruct (Qnum x) as [|p|p] eqn:Ex.
  - destruct (Qnum y) as [|p'|p'] eqn:Ey.
    + apply Qle_refl.
    + apply Qlt_le_weak. apply RNpos_pos. apply Qnum_pos. eauto.
    + exfalso. assert (Hy : 0 <= y) by (apply Qle_trans with x; assumption).
      unfold Qle in Hy. cbn in Hy. rewrite Ey in Hy. lia.
  - assert (Hp : 0 < x) by (apply Qnum_pos; eauto).
    assert (Hy : 0 < y) by (apply Qlt_le_trans with x; assumption).
    apply Qnum_pos in Hy. destruct Hy as [p' Ey]. rewrite Ey.
    apply RNpos_mono; assumption.
  - exfalso. unfold Qle in Hx. cbn in Hx. rewrite Ex in Hx. lia.
Qed.

(** Rounding does not depend on the representation of the rational. *)
Lemma RN_nonneg_comp (x y : Q) : 0 <= x -> x == y -> RN x == RN y.
Proof.
  intros Hx E. apply Qle_antisym.
  - apply RN_nonneg_mono; [exact Hx | rewrite E; apply Qle_refl].
  - apply RN_nonneg_mono; [rewrite <- E; exact Hx | rewrite E; apply Qle_refl].
Qed.



Lemma RN_zero : RN 0 == 0.
Proof. reflexivity. Qed.

End Binary64Facts.


(** ** The progress percentage *)
Section Progress.

Local Open Scope Z_scope.









End Progress.


(** ** Tactics *)

Ltac norm :=
  cbv beta iota zeta delta
    [Batch.processVideo Batch.tryVideo Batch.fetchJson Batch.autoSave
     Batch.bind Batch.emit Batch.throw Batch.ret Batch.continue
     Batch.pushFailure Batch.pushAnalysis Batch.getAnalyzedResults
     Batch.catchVideo Batch.emitS Batch.pushFailureS
     trace allAnalyses analyzedResults failures fst snd
     completes softFailure isOk truthy negb andb orb].

(** Case analysis on the answers of the service and of the export
    callback, in the order in which the loop body consults them. *)
Ltac cases :=
  repeat
    (norm;
     match goal with
     | |- context [vibe_extraction_endpoint ?s ?k ?a ?f] =>
         destruct (vibe_extraction_endpoint s k a f) eqn:?
     | |- context [failed ?d] => destruct (failed d) eqn:?
     | |- context [vibe_extraction ?d] =>
         destruct (vibe_extraction d) as [[|? ?]|] eqn:?
     | |- context [scenes ?j] => destruct (scenes j) eqn:?
     | |- context [image_prompts_endpoint ?s ?k ?a ?f] =>
         destruct (image_prompts_endpoint s k a f) eqn:?
     | |- context [video_prompt_endpoint ?s ?k ?a ?f] =>
         destruct (video_prompt_endpoint s k a f) eqn:?
     | |- context [if ?b then _ else _] => destruct b eqn:?
     | |- context [onAutoSaveCSV ?p ?a ?b] =>
         destruct (onAutoSaveCSV p a b) eqn:?
     end);
  norm.

Ltac returns Hret :=
  match goal with
  | H : onAutoSaveCSV _ ?a ?b = Raised _ |- _ =>
      destruct (Hret a b); congruence
  end.

Ltac appended :=
  repeat split;
  rewrite <- ?app_assoc;
  solve [ eexists; reflexivity
        | exists []; rewrite ?app_nil_r; reflexivity ].

Ltac case_export :=
  match goal with
  | |- context [onAutoSaveCSV ?p ?a ?b] => destruct (onAutoSaveCSV p a b)
  end.

Ltac case_complete :=
  match goal with
  | |- context [onAnalysisComplete ?p ?a] => destruct (onAnalysisComplete p a)
  end.

Ltac fields := cbn [allAnalyses analyzedResults failures trace].

(** ** One iteration of the batch loop *)
Section Iteration.

Variable apiKey : string.
Variable service : Service.
Variable props : BatchGeminiAnalysisProps.



Lemma exportCalls_app (a b : list Event) :
  exportCalls (a ++ b) = exportCalls a ++ exportCalls b.
Proof. apply flat_map_app. Qed.

Lemma fetches_app (a b : list Event) :
  fetches (a ++ b) = fetches a ++ fetches b.
Proof. apply flat_map_app. Qed.

(** The accumulators after one video: exactly one of them grows by one
    entry, chosen by the answers of the service. *)
Lemma processVideo_accumulators (v : VideoResult) (k N : nat) (st : BatchState) :
  alwaysReturns (onAutoSaveCSV props) ->
  let st' := Batch.processVideo apiKey service props v k N st in
  if completes apiKey service v k
  then map resultId (allAnalyses st') = map resultId (allAnalyses st) ++ [id v]
       /\ map id (analyzedResults st') = map id (analyzedResults st) ++ [id v]
       /\ failures st' = failures st
  else allAnalyses st' = allAnalyses st
       /\ analyzedResults st' = analyzedResults st
       /\ map fv_videoName (failures st')
          = map fv_videoName (failures st) ++ [videoName v].
Proof.
  intros Hret. cases; try returns Hret;
    rewrite ?map_app; cbn [map]; auto.
Qed.


(** The export callback is called by an iteration only when the video has
    passed the three stages and the checkpoint is due. *)
Lemma processVideo_exportCalls (v : VideoResult) (k N : nat) (st : BatchState) :
  let st' := Batch.processVideo apiKey service props v k N st in
  exportCalls (trace st')
  = exportCalls (trace st)
    ++ (if completes apiKey service v k && checkpointDue k N
        then [(analyzedResults st', ("-progress-" ++ show_nat k)%string)]
        else []).
Proof.
  unfold checkpointDue.
  cases; rewrite ?exportCalls_app;
    cbn [exportCalls flat_map app andb];
    rewrite ?app_nil_r; auto;
    match goal with H : ?b = _ |- context [?b] => rewrite H end;
    rewrite ?app_nil_r; reflexivity.
Qed.

Lemma extends_refl st : extends st st.
Proof. repeat split; exists []; rewrite app_nil_r; reflexivity. Qed.

Lemma extends_trans a b c : extends a b -> extends b c -> extends a c.
Proof.
  intros (x1 & x2 & x3 & x4) (y1 & y2 & y3 & y4).
  destruct x1 as [x1 E1], x2 as [x2 E2], x3 as [x3 E3], x4 as [x4 E4].
  destruct y1 as [y1 F1], y2 as [y2 F2], y3 as [y3 F3], y4 as [y4 F4].
  repeat split;
    [ exists (x1 ++ y1) | exists (x2 ++ y2)
    | exists (x3 ++ y3) | exists (x4 ++ y4) ];
    rewrite app_assoc; congruence.
Qed.

Lemma extends_emitS e st : extends st (Batch.emitS e st).
Proof.
  repeat split; cbn; try (exists []; rewrite app_nil_r; reflexivity).
  exists [e]. reflexivity.
Qed.

Lemma processVideo_extends (v : VideoResult) (k N : nat) (st : BatchState) :
  extends st (Batch.processVideo apiKey service props v k N st).
Proof. unfold extends. cases; appended. Qed.

(** The first exchange of an iteration is the vibe extraction of its own
    video. *)
Lemma processVideo_fetches_vibe (v : VideoResult) (k N : nat) (st : BatchState) :
  exists more,
    fetches (trace (Batch.processVideo apiKey service props v k N st))
    = fetches (trace st) ++ (k, VibeExtraction apiKey (file v)) :: more.
Proof.
  cases; rewrite ?fetches_app; cbn [fetches flat_map app];
    rewrite <- ?app_assoc; cbn [app]; eexists; reflexivity.
Qed.


(** A 2xx answer of the image-prompts stage is passed on as it is,
    whatever the number of prompts it carries. *)
Lemma processVideo_imagePrompts (v : VideoResult) (k N : nat) (st : BatchState)
    (d : VibeData) (scs : list SceneData) (ip : ImagePromptsData) :
  vibe_extraction_endpoint service k apiKey (file v) = Ok d ->
  softFailure (Ok d) = false ->
  scenes (jsonData v) = Some scs ->
  image_prompts_endpoint service k apiKey scs = Ok ip ->
  let st' := Batch.processVideo apiKey service props v k N st in
  In (k, VideoPrompt apiKey (r_image_prompts ip)) (fetches (trace st'))
  /\ forall vp,
       video_prompt_endpoint service k apiKey (r_image_prompts ip) = Ok vp ->
       allAnalyses st'
       = allAnalyses st
         ++ [{| resultId := id v;
                vibe := or_else (vibe_extraction d) "";
                imagePrompts := r_image_prompts ip;
                videoPrompt := r_video_prompt vp |}].
Proof.
  intros Hv Hs Hsc Hi. norm. rewrite Hv. revert Hs. norm.
  destruct (failed d); [discriminate|].
  destruct (vibe_extraction d) as [[|c s]|]; try discriminate.
  intros _. norm. rewrite Hsc. norm. rewrite Hi.
  cases; (split; [| intros vp' Hvp; try discriminate ]);
    rewrite ?fetches_app; cbn [fetches flat_map app or_else];
    rewrite ?app_nil_r, ?in_app_iff; cbn [In]; auto 8.
  all: inversion Hvp; subst; reflexivity.
Qed.

End Iteration.

(** ** The loop over the eligible videos *)
Section Loop.

Variable apiKey : string.
Variable service : Service.
Variable props : BatchGeminiAnalysisProps.

Local Abbreviation loop := (Batch.loop apiKey service props).
Local Abbreviation processVideo :=
  (Batch.processVideo apiKey service props).

Lemma numbered_length i vs : List.length (numbered i vs) = List.length vs.
Proof.
  revert i. induction vs as [|v vs IH]; intros i; cbn; [|rewrite IH]; auto.
Qed.

Lemma numbered_fst i vs : map fst (numbered i vs) = seq (i + 1) (List.length vs).
Proof.
  revert i. induction vs as [|v vs IH]; intros i; cbn [numbered map fst];
    [reflexivity|].
  rewrite IH. reflexivity.
Qed.

Lemma numbered_snd i vs : map snd (numbered i vs) = vs.
Proof.
  revert i. induction vs as [|v vs IH]; intros i; cbn; [|rewrite IH]; auto.
Qed.

Lemma numbered_app i l1 l2 :
  numbered i (l1 ++ l2) = numbered i l1 ++ numbered (i + List.length l1) l2.
Proof.
  revert i. induction l1 as [|v l1 IH]; intros i; cbn.
  - rewrite Nat.add_0_r. reflexivity.
  - rewrite IH. do 3 f_equal. lia.
Qed.

Lemma loop_app l1 l2 i N st :
  loop (l1 ++ l2) i N st = loop l2 (i + List.length l1) N (loop l1 i N st).
Proof.
  revert i st. induction l1 as [|v l1 IH]; intros i st; cbn.
  - rewrite Nat.add_0_r. reflexivity.
  - rewrite IH. f_equal. lia.
Qed.

Lemma loop_extends vs i N st : extends st (loop vs i N st).
Proof.
  revert i st. induction vs as [|v vs IH]; intros i st; cbn.
  - apply extends_refl.
  - eapply extends_trans; [apply processVideo_extends | apply IH].
Qed.

(** After the loop the success accumulator lists the videos that passed
    the three stages and the failure accumulator the others, each in the
    order of the batch. *)
Lemma loop_accumulators vs i N st :
  alwaysReturns (onAutoSaveCSV props) ->
  map resultId (allAnalyses (loop vs i N st))
  = map resultId (allAnalyses st)
    ++ map (fun kv => id (snd kv))
         (filter (completesAt apiKey service) (numbered i vs))
  /\ map id (analyzedResults (loop vs i N st))
     = map id (analyzedResults st)
       ++ map (fun kv => id (snd kv))
            (filter (completesAt apiKey service) (numbered i vs))
  /\ map fv_videoName (failures (loop vs i N st))
     = map fv_videoName (failures st)
       ++ map (fun kv => videoName (snd kv))
            (filter (fun kv => negb (completesAt apiKey service kv))
               (numbered i vs)).
Proof.
  intros Hret. revert i st.
  induction vs as [|v vs IH]; intros i st; cbn [Batch.loop numbered filter].
  - cbn. rewrite !app_nil_r. auto.
  - destruct (IH (S i) (processVideo v (i + 1) N st)) as (E1 & E2 & E3).
    rewrite E1, E2, E3. clear E1 E2 E3 IH.
    pose proof (processVideo_accumulators apiKey service props v (i + 1) N st
                  Hret) as H.
    cbv zeta in H.
    assert (Hc : completesAt apiKey service ((i + 1)%nat, v)
                 = completes apiKey service v (i + 1)) by reflexivity.
    rewrite Hc. clear Hc.
    destruct (completes apiKey service v (i + 1));
      destruct H as (H1 & H2 & H3); rewrite H1, H2, H3;
      cbn [negb map app snd]; rewrite <- ?app_assoc; auto.
Qed.


(** The suffixes of the checkpoint exports made by the loop: one for every
    position that is due and whose video passed the three stages. *)
Lemma loop_exportSuffixes vs i N st :
  map snd (exportCalls (trace (loop vs i N st)))
  = map snd (exportCalls (trace st))
    ++ map (fun kv => ("-progress-" ++ show_nat (fst kv))%string)
         (filter (fun kv => completesAt apiKey service kv
                            && checkpointDue (fst kv) N)
            (numbered i vs)).
Proof.
  revert i st.
  induction vs as [|v vs IH]; intros i st; cbn [Batch.loop numbered filter].
  - cbn. rewrite app_nil_r. reflexivity.
  - rewrite IH, processVideo_exportCalls, map_app, <- app_assoc.
    f_equal.
    assert (Hc : completesAt apiKey service ((i + 1)%nat, v)
                 = completes apiKey service v (i + 1)) by reflexivity.
    rewrite Hc. cbn [fst snd].
    destruct (completes apiKey service v (i + 1) && checkpointDue (i + 1) N);
      reflexivity.
Qed.

(** Every position of the batch is reached: its vibe extraction is
    requested. *)
Lemma loop_fetches_vibe vs i N st k v :
  nth_error vs k = Some v ->
  In (i + k + 1, VibeExtraction apiKey (file v))
     (fetches (trace (loop vs i N st))).
Proof.
  revert i st k. induction vs as [|w vs IH]; intros i st k Hk.
  - destruct k; discriminate.
  - cbn [Batch.loop]. destruct k as [|k]; cbn in Hk.
    + inversion Hk; subst w.
      destruct (processVideo_fetches_vibe apiKey service props v (i + 1) N st)
        as [more E].
      destruct (loop_extends vs (S i) N (processVideo v (i + 1) N st))
        as (_ & _ & _ & [x Ex]).
      rewrite Ex, fetches_app, E, Nat.add_0_r.
      apply in_or_app. left. apply in_or_app. right. left. reflexivity.
    + replace (i + S k + 1) with (S i + k + 1) by lia. apply IH. exact Hk.
Qed.

End Loop.

(** ** The whole run *)
Section Run.

Variable apiKey : string.
Variable service : Service.
Variable props : BatchGeminiAnalysisProps.

Local Abbreviation vs := (Batch.videosWithScenes props).
Local Abbreviation afterLoop :=
  (Batch.loop apiKey service props vs 0 (List.length vs) Batch.started).
Local Abbreviation final := (Batch.handleBatchAnalyze apiKey service props).

Lemma run_unfold :
  blank apiKey = false ->
  vs <> [] ->
  final = Batch.emitS (SetIsAnalyzing false)
            (Batch.finish props afterLoop).
Proof.
  intros Hk Hvs. unfold Batch.handleBatchAnalyze. rewrite Hk.
  destruct (Batch.videosWithScenes props); [contradiction | reflexivity].
Qed.

Lemma run_empty :
  blank apiKey = false ->
  vs = [] ->
  final = Batch.emitS (SetIsAnalyzing false)
            (Batch.emitS (SetIsAnalyzing false)
               (Batch.emitS (SetIsComplete true) Batch.started)).
Proof.
  intros Hk Hvs. unfold Batch.handleBatchAnalyze. rewrite Hk, Hvs.
  reflexivity.
Qed.

Lemma catchBatch_accumulators msg st :
  allAnalyses (Batch.catchBatch props msg st) = allAnalyses st
  /\ analyzedResults (Batch.catchBatch props msg st) = analyzedResults st
  /\ failures (Batch.catchBatch props msg st) = failures st.
Proof.
  unfold Batch.catchBatch, Batch.emitS.
  cbn [allAnalyses analyzedResults failures trace].
  destruct (analyzedResults st); [auto|].
  case_export; auto.
Qed.

Lemma finish_accumulators st :
  allAnalyses (Batch.finish props st) = allAnalyses st
  /\ analyzedResults (Batch.finish props st) = analyzedResults st
  /\ failures (Batch.finish props st) = failures st.
Proof.
  unfold Batch.finish. cbv zeta. case_complete.
  - unfold Batch.emitS. fields. auto.
  - match goal with
    | |- context [Batch.catchBatch props ?m ?s] =>
        destruct (catchBatch_accumulators m s) as (E1 & E2 & E3)
    end.
    rewrite E1, E2, E3. unfold Batch.emitS. fields. auto.
Qed.

Lemma catchBatch_extends msg st : extends st (Batch.catchBatch props msg st).
Proof.
  unfold Batch.catchBatch, extends, Batch.emitS.
  cbn [allAnalyses analyzedResults failures trace].
  destruct (analyzedResults st) eqn:E;
    cbn [allAnalyses analyzedResults failures trace]; [appended|].
  case_export; cbn [allAnalyses analyzedResults failures trace];
    rewrite ?E; appended.
Qed.

Lemma finish_extends st : extends st (Batch.finish props st).
Proof.
  unfold Batch.finish. cbv zeta.
  case_complete.
  - unfold extends, Batch.emitS.
    cbn [allAnalyses analyzedResults failures trace]. appended.
  - eapply extends_trans; [|apply catchBatch_extends].
    unfold extends, Batch.emitS.
    cbn [allAnalyses analyzedResults failures trace]. appended.
Qed.

Lemma run_extends :
  blank apiKey = false -> vs <> [] -> extends afterLoop final.
Proof.
  intros Hk Hvs. rewrite (run_unfold Hk Hvs).
  eapply extends_trans; [apply finish_extends | apply extends_emitS].
Qed.

Lemma run_accumulators :
  blank apiKey = false ->
  vs <> [] ->
  allAnalyses final = allAnalyses afterLoop
  /\ analyzedResults final = analyzedResults afterLoop
  /\ failures final = failures afterLoop.
Proof.
  intros Hk Hvs. rewrite (run_unfold Hk Hvs). cbn.
  apply finish_accumulators.
Qed.



Lemma in_extends_fetches st st' x :
  extends st st' -> In x (fetches (trace st)) -> In x (fetches (trace st')).
Proof.
  intros (_ & _ & _ & [y E]) H. rewrite E, fetches_app.
  apply in_or_app. auto.
Qed.

Lemma in_extends_failures st st' x :
  extends st st' -> In x (failures st) -> In x (failures st').
Proof.
  intros (_ & _ & [y E] & _) H. rewrite E. apply in_or_app. auto.
Qed.

Lemma in_extends_allAnalyses st st' x :
  extends st st' -> In x (allAnalyses st) -> In x (allAnalyses st').
Proof.
  intros ([y E] & _) H. rewrite E. apply in_or_app. auto.
Qed.

(** The loop seen from the iteration of one position. *)
Lemma loop_at k v :
  nth_error vs k = Some v ->
  exists before,
    extends Batch.started before
    /\ extends
         (Batch.processVideo apiKey service props v (k + 1) (List.length vs)
            before)
         afterLoop.
Proof.
  intros Hk. destruct (nth_error_split vs k Hk) as (l1 & l2 & E & Hl).
  exists (Batch.loop apiKey service props l1 0 (List.length vs) Batch.started).
  split; [apply loop_extends|].
  rewrite E at 3. rewrite loop_app. cbn [Batch.loop plus].
  rewrite Hl. apply loop_extends.
Qed.

End Run.

(** ** Checkpoints and the outer error handler *)
Section Checkpoints.

Variable apiKey : string.
Variable service : Service.
Variable props : BatchGeminiAnalysisProps.

Local Abbreviation vs := (Batch.videosWithScenes props).
Local Abbreviation afterLoop :=
  (Batch.loop apiKey service props vs 0 (List.length vs) Batch.started).
Local Abbreviation final := (Batch.handleBatchAnalyze apiKey service props).

Lemma catchBatch_exportCalls msg st :
  exportCalls (trace (Batch.catchBatch props msg st))
  = exportCalls (trace st)
    ++ match analyzedResults st with
       | [] => []
       | _ :: _ => [(analyzedResults st, "-partial-error-recovery")]
       end.
Proof.
  unfold Batch.catchBatch, Batch.emitS. fields.
  destruct (analyzedResults st); fields.
  - rewrite !exportCalls_app. cbn [exportCalls flat_map].
    rewrite !app_nil_r. reflexivity.
  - case_export; fields; rewrite !exportCalls_app;
      cbn [exportCalls flat_map app]; rewrite <- !app_assoc; reflexivity.
Qed.

Lemma finish_exportCalls st :
  exportCalls (trace (Batch.finish props st))
  = exportCalls (trace st)
    ++ match onAnalysisComplete props (allAnalyses st) with
       | Returned _ => []
       | Raised _ =>
           match analyzedResults st with
           | [] => []
           | _ :: _ => [(analyzedResults st, "-partial-error-recovery")]
           end
       end.
Proof.
  unfold Batch.finish, Batch.emitS. cbv zeta. fields.
  destruct (onAnalysisComplete props (allAnalyses st)).
  - fields. rewrite !exportCalls_app. cbn [exportCalls flat_map].
    rewrite !app_nil_r. reflexivity.
  - rewrite catchBatch_exportCalls. fields. rewrite !exportCalls_app.
    cbn [exportCalls flat_map]. rewrite !app_nil_r. reflexivity.
Qed.


(** A video that passes the three stages enters the export accumulator. *)
Lemma processVideo_completes_nonempty v k N st :
  completes apiKey service v k = true ->
  analyzedResults (Batch.processVideo apiKey service props v k N st) <> [].
Proof.
  cases; intros; try discriminate;
    match goal with |- ?l ++ [_] <> [] => destruct l; discriminate end.
Qed.

(** As long as nothing has been accumulated the loop makes no export. *)
Lemma loop_no_success l i N st :
  analyzedResults (Batch.loop apiKey service props l i N st) = [] ->
  exportCalls (trace (Batch.loop apiKey service props l i N st))
  = exportCalls (trace st).
Proof.
  revert i st. induction l as [|v l IH]; intros i st H; cbn [Batch.loop] in *.
  - reflexivity.
  - rewrite (IH _ _ H).
    destruct (loop_extends apiKey service props l (S i) N
                (Batch.processVideo apiKey service props v (i + 1) N st))
      as (_ & [x E] & _).
    rewrite H in E. symmetry in E. apply app_eq_nil in E. destruct E as [E _].
    rewrite processVideo_exportCalls.
    destruct (completes apiKey service v (i + 1)) eqn:C.
    + exfalso. revert E. apply processVideo_completes_nonempty. exact C.
    + cbn [andb]. apply app_nil_r.
Qed.

Lemma filter_by_snd {A B} (f : B -> bool) (l : list (A * B)) :
  Forall (fun b => f b = false) (map snd l) ->
  filter (fun c => f (snd c)) l = [].
Proof.
  induction l as [|c l IH]; cbn; intros H; [reflexivity|].
  inversion H; subst.
  match goal with E : f (snd c) = false |- _ => rewrite E end. auto.
Qed.

(** The checkpoints of the loop are never mistaken for an emergency
    export: their suffixes differ. *)
Lemma loop_no_emergency :
  emergencyExports (trace afterLoop) = [].
Proof.
  unfold emergencyExports.
  apply (filter_by_snd (fun s => String.eqb s "-partial-error-recovery")).
  rewrite loop_exportSuffixes. cbn [Batch.started trace exportCalls flat_map
                                      map app].
  apply Forall_forall. intros sfx H. apply in_map_iff in H.
  destruct H as (kv & <- & _). reflexivity.
Qed.

End Checkpoints.

(** ** The claims about the batch run *)

Lemma appProps_returns isoNow rs :
  alwaysReturns (onAutoSaveCSV (appProps isoNow rs)).
Proof. intros a b. eexists. reflexivity. Qed.

(** C3.  For a batch of N eligible videos of which M fail at some stage,
    the run ends with exactly N - M entries in the success accumulator and
    exactly M entries in the failure accumulator: the successes are the
    videos that passed the three stages and the failures are the others,
    each video in exactly one of the two, in batch order. *)
Theorem C3_accumulators_partition_the_batch
    (apiKey : string) (service : Service) (isoNow : string)
    (rs : list VideoResult) :
  blank apiKey = false ->
  let props := appProps isoNow rs in
  let final := Batch.handleBatchAnalyze apiKey service props in
  let items := numbered 0 (Batch.videosWithScenes props) in
  let N := List.length items in
  let M := List.length
             (filter (fun kv => negb (completesAt apiKey service kv)) items) in
  List.length (allAnalyses final) = N - M
  /\ List.length (failures final) = M
  /\ map resultId (allAnalyses final)
     = map (fun kv => id (snd kv)) (filter (completesAt apiKey service) items)
  /\ map fv_videoName (failures final)
     = map (fun kv => videoName (snd kv))
         (filter (fun kv => negb (completesAt apiKey service kv)) items).
Proof.
  intros Hk props final items N M.
  assert (Hlists :
    map resultId (allAnalyses final)
    = map (fun kv => id (snd kv)) (filter (completesAt apiKey service) items)
    /\ map fv_videoName (failures final)
       = map (fun kv => videoName (snd kv))
           (filter (fun kv => negb (completesAt apiKey service kv)) items)).
  { subst final items.
    destruct (Batch.videosWithScenes props) eqn:E.
    - rewrite (run_empty apiKey service props Hk E). cbn. auto.
    - assert (Hne : Batch.videosWithScenes props <> []) by (rewrite E; discriminate).
      destruct (run_accumulators apiKey service props Hk Hne) as (E1 & _ & E3).
      rewrite E1, E3.
      destruct (loop_accumulators apiKey service props
                  (Batch.videosWithScenes props) 0
                  (List.length (Batch.videosWithScenes props)) Batch.started
                  (appProps_returns isoNow rs)) as (A1 & _ & A3).
      rewrite A1, A3, E. cbn [Batch.started allAnalyses failures map app].
      auto. }
  destruct Hlists as (H1 & H2).
  assert (L1 : List.length (allAnalyses final)
               = List.length (filter (completesAt apiKey service) items)).
  { rewrite <- (length_map resultId), H1, length_map. reflexivity. }
  assert (L2 : List.length (failures final) = M).
  { rewrite <- (length_map fv_videoName), H2, length_map. reflexivity. }
  pose proof (filter_length (completesAt apiKey service) items) as HL.
  fold M N in HL.
  repeat split; auto. lia.
Qed.

Lemma C3_witness :
  blank "key" = false
  /\ let props := appProps Samples.isoNow Samples.threeVideos in
     let service := Samples.unavailableAt (fun k => Nat.eqb k 2) in
     let final := Batch.handleBatchAnalyze "key" service props in
     let items := numbered 0 (Batch.videosWithScenes props) in
     let N := List.length items in
     let M := List.length
                (filter (fun kv => negb (completesAt "key" service kv))
                   items) in
     List.length (allAnalyses final) = N - M
     /\ List.length (failures final) = M
     /\ map resultId (allAnalyses final)
        = map (fun kv => id (snd kv))
            (filter (completesAt "key" service) items)
     /\ map fv_videoName (failures final)
        = map (fun kv => videoName (snd kv))
            (filter (fun kv => negb (completesAt "key" service kv)) items).
Proof.
  split; [reflexivity|].
  apply (C3_accumulators_partition_the_batch "key"
           (Samples.unavailableAt (fun k => Nat.eqb k 2))
           Samples.isoNow Samples.threeVideos).
  reflexivity.
Defined.

(** The scenario of three videos whose second one meets a 503 on its
    image prompts: two analyses, one failure with the transport reason,
    progress at 100. *)
Example three_videos_second_unavailable :
  let final :=
    Batch.handleBatchAnalyze "key" (Samples.unavailableAt (fun k => Nat.eqb k 2))
      (appProps Samples.isoNow Samples.threeVideos) in
  map resultId (allAnalyses final) = ["id-a"; "id-c"]
  /\ failures final
     = [ {| fv_videoName := "b";
            reason := "Failed to generate image prompts for b: Service Unavailable" |} ]
  /\ progressValues (trace final) = [0; 33; 66; 100; 100]%Z.
Proof. vm_compute. auto. Qed.



(** C2, as the code has it.  A 2xx answer of the image-prompts stage is
    accepted whatever the number of prompts it carries: the sequence is
    sent as it is to the video-prompt stage and, when that stage answers
    2xx, stored as it is in the analysis of the video, neither truncated
    nor padded. *)
Theorem C2_image_prompts_accepted_at_any_length
    (apiKey : string) (service : Service) (props : BatchGeminiAnalysisProps)
    (k : nat) (v : VideoResult) (d : VibeData) (scs : list SceneData)
    (ip : ImagePromptsData) :
  blank apiKey = false ->
  nth_error (Batch.videosWithScenes props) k = Some v ->
  vibe_extraction_endpoint service (k + 1) apiKey (file v) = Ok d ->
  softFailure (Ok d) = false ->
  scenes (jsonData v) = Some scs ->
  image_prompts_endpoint service (k + 1) apiKey scs = Ok ip ->
  let final := Batch.handleBatchAnalyze apiKey service props in
  In (k + 1, VideoPrompt apiKey (r_image_prompts ip)) (fetches (trace final))
  /\ forall vp,
       video_prompt_endpoint service (k + 1) apiKey (r_image_prompts ip)
       = Ok vp ->
       In {| resultId := id v;
             vibe := or_else (vibe_extraction d) "";
             imagePrompts := r_image_prompts ip;
             videoPrompt := r_video_prompt vp |}
          (allAnalyses final).
Proof.
  intros Hk Hv Hd Hs Hsc Hi final.
  assert (Hne : Batch.videosWithScenes props <> []).
  { intros E. rewrite E in Hv. destruct k; discriminate. }
  pose proof (run_extends apiKey service props Hk Hne) as Hext.
  destruct (loop_at apiKey service props k v Hv) as (before & _ & Hafter).
  destruct (processVideo_imagePrompts apiKey service props v (k + 1)
              (List.length (Batch.videosWithScenes props)) before d scs ip
              Hd Hs Hsc Hi) as (F & A).
  split.
  - apply (in_extends_fetches _ _ _ Hext).
    apply (in_extends_fetches _ _ _ Hafter). exact F.
  - intros vp Hvp. apply (in_extends_allAnalyses _ _ _ Hext).
    apply (in_extends_allAnalyses _ _ _ Hafter).
    rewrite (A vp Hvp). apply in_or_app. right. left. reflexivity.
Qed.

Lemma C2_witness :
  let props := appProps Samples.isoNow [Samples.video "a" 2 10] in
  let final := Batch.handleBatchAnalyze "key" Samples.onePromptShort props in
  In (1, VideoPrompt "key" (Some ["a frame"])) (fetches (trace final))
  /\ In {| resultId := "id-a";
           vibe := "calm";
           imagePrompts := Some ["a frame"];
           videoPrompt := Some "a film" |}
        (allAnalyses final).
Proof.
  pose proof (C2_image_prompts_accepted_at_any_length "key"
                Samples.onePromptShort
                (appProps Samples.isoNow [Samples.video "a" 2 10])
                0 (Samples.video "a" 2 10)
                {| failed := false; error := None;
                   vibe_extraction := Some "calm" |}
                (map Samples.scene [0; 1])
                {| r_image_prompts := Some ["a frame"] |}
                eq_refl eq_refl eq_refl eq_refl eq_refl eq_refl) as (F & A).
  split; [exact F|].
  apply (A {| r_video_prompt := Some "a film" |}). reflexivity.
Defined.

(** C2, as stated, fails: a video with two scenes whose image-prompts
    answer carries a single prompt is not failed. *)
Lemma C2_counterexample :
  ~ rejectsLengthMismatch "key" Samples.onePromptShort
      (appProps Samples.isoNow [Samples.video "a" 2 10]).
Proof.
  intros H.
  destruct (H 0 (Samples.video "a" 2 10)
              {| failed := false; error := None;
                 vibe_extraction := Some "calm" |}
              (map Samples.scene [0; 1])
              {| r_image_prompts := Some ["a frame"] |}
              ["a frame"]
              eq_refl eq_refl eq_refl eq_refl eq_refl eq_refl)
    as (Hf & _).
  - cbn. lia.
  - vm_compute in Hf. exact Hf.
Qed.

(** The run only looks at the eligible videos and at the two callbacks. *)
Lemma run_depends_on_eligible (apiKey : string) (service : Service)
    (rs rs' : list VideoResult) onComplete onSave :
  filter hasScenes rs = filter hasScenes rs' ->
  Batch.handleBatchAnalyze apiKey service
    {| results := rs; onAnalysisComplete := onComplete;
       onAutoSaveCSV := onSave |}
  = Batch.handleBatchAnalyze apiKey service
      {| results := rs'; onAnalysisComplete := onComplete;
         onAutoSaveCSV := onSave |}.
Proof.
  intros E. unfold Batch.handleBatchAnalyze, Batch.videosWithScenes.
  cbn [results]. rewrite E. reflexivity.
Qed.

(** The failure records of a run carry names of eligible videos. *)
Lemma loop_failure_names (apiKey : string) (service : Service)
    (props : BatchGeminiAnalysisProps) (all vs : list VideoResult) i N st :
  incl vs all ->
  Forall (fun f => In (fv_videoName f) (map videoName all)) (failures st) ->
  Forall (fun f => In (fv_videoName f) (map videoName all))
    (failures (Batch.loop apiKey service props vs i N st)).
Proof.
  revert i st. induction vs as [|v vs IH]; intros i st Hin Hst; cbn [Batch.loop].
  - exact Hst.
  - apply IH; [intros x Hx; apply Hin; right; exact Hx|].
    assert (Hv : In (videoName v) (map videoName all)).
    { apply in_map. apply Hin. left. reflexivity. }
    revert Hst. cases; intros Hst; rewrite ?Forall_app; repeat split;
      auto; repeat constructor; exact Hv.
Qed.

(** C6.  A video without scenes or with an empty file is left out before
    the processing starts: it is not among the videos of the batch, the
    total does not count it, the run is the one of the input without it,
    and every failure record bears the name of an eligible video. *)
Theorem C6_ineligible_videos_are_excluded
    (apiKey : string) (service : Service)
    (onComplete : list Analysis -> Completion unit)
    (onSave : list VideoResult -> string -> Completion (option Download))
    (l1 l2 : list VideoResult) (r : VideoResult) :
  scenes (jsonData r) = None \/ scenes (jsonData r) = Some []
  \/ size (file r) = 0%N ->
  let props :=
    {| results := l1 ++ r :: l2; onAnalysisComplete := onComplete;
       onAutoSaveCSV := onSave |} in
  let without :=
    {| results := l1 ++ l2; onAnalysisComplete := onComplete;
       onAutoSaveCSV := onSave |} in
  let final := Batch.handleBatchAnalyze apiKey service props in
  ~ In r (Batch.videosWithScenes props)
  /\ List.length (Batch.videosWithScenes props)
     = List.length (filter hasScenes (l1 ++ l2))
  /\ final = Batch.handleBatchAnalyze apiKey service without
  /\ Forall (fun f => exists w, In w (l1 ++ l2) /\ hasScenes w = true
                                /\ fv_videoName f = videoName w)
       (failures final).
Proof.
  intros Hr props without final.
  assert (Hf : hasScenes r = false).
  { unfold hasScenes. destruct Hr as [E | [E | E]]; rewrite E; try reflexivity.
    destruct (scenes (jsonData r)) as [[|? ?]|]; reflexivity. }
  assert (E : filter hasScenes (l1 ++ r :: l2) = filter hasScenes (l1 ++ l2)).
  { rewrite !filter_app. cbn [filter]. rewrite Hf. reflexivity. }
  split; [|split; [|split]].
  - unfold Batch.videosWithScenes. cbn [props results].
    intros Hin. apply filter_In in Hin. destruct Hin as [_ Hin].
    congruence.
  - unfold Batch.videosWithScenes. cbn [props results]. rewrite E.
    reflexivity.
  - apply run_depends_on_eligible. exact E.
  - assert (Hnames :
      Forall (fun f => In (fv_videoName f)
                         (map videoName (Batch.videosWithScenes props)))
        (failures final)).
    { subst final. unfold Batch.handleBatchAnalyze.
      destruct (blank apiKey); [constructor|].
      destruct (Batch.videosWithScenes props) eqn:Evs; [constructor|].
      rewrite <- Evs. unfold Batch.emitS at 1. fields.
      match goal with
      | |- context [Batch.finish props ?s] =>
          destruct (finish_accumulators props s) as (_ & _ & E3)
      end.
      rewrite E3. apply loop_failure_names;
        [apply incl_refl | constructor]. }
    eapply Forall_impl; [|exact Hnames].
    intros f Hin. cbn beta in Hin. apply in_map_iff in Hin.
    destruct Hin as (w & Hw & Hin). exists w.
    unfold Batch.videosWithScenes in Hin. cbn [props results] in Hin.
    rewrite E in Hin. apply filter_In in Hin. destruct Hin. auto.
Qed.

Lemma C6_witness :
  let history := Samples.video "h" 2 0 in
  let props := appProps Samples.isoNow
                 (Samples.video "a" 2 10 :: history :: [Samples.video "c" 1 10]) in
  let without := appProps Samples.isoNow
                   (Samples.video "a" 2 10 :: [Samples.video "c" 1 10]) in
  size (file history) = 0%N
  /\ ~ In history (Batch.videosWithScenes props)
  /\ List.length (Batch.videosWithScenes props) = 2
  /\ Batch.handleBatchAnalyze "key" Samples.allGood props
     = Batch.handleBatchAnalyze "key" Samples.allGood without.
Proof.
  pose proof (C6_ineligible_videos_are_excluded "key" Samples.allGood
                (fun _ => Returned tt)
                (fun resultsToExport filenameSuffix =>
                   Returned (Csv.generateAndDownloadCSV Samples.isoNow
                               resultsToExport filenameSuffix))
                [Samples.video "a" 2 10] [Samples.video "c" 1 10]
                (Samples.video "h" 2 0)
                (or_intror (or_intror eq_refl))) as (H1 & H2 & H3 & _).
  split; [reflexivity|]. split; [exact H1|]. split; [exact H2|exact H3].
Defined.

(** C10.  When the completion callback throws, the outer handler calls the
    export callback exactly when something has been accumulated, and then
    once, with everything accumulated; with nothing accumulated the run
    has made no export call at all, and the export helper of [App] offers
    no file for an empty list anyway. *)
Theorem C10_emergency_export_iff_accumulated
    (apiKey : string) (service : Service) (props : BatchGeminiAnalysisProps)
    (message : string) :
  blank apiKey = false ->
  Batch.videosWithScenes props <> [] ->
  let final := Batch.handleBatchAnalyze apiKey service props in
  onAnalysisComplete props (allAnalyses final) = Raised message ->
  emergencyExports (trace final)
  = match analyzedResults final with
    | [] => []
    | _ :: _ => [(analyzedResults final, "-partial-error-recovery")]
    end
  /\ (emergencyExports (trace final) <> [] <-> analyzedResults final <> [])
  /\ (analyzedResults final = [] -> exportCalls (trace final) = [])
  /\ forall isoNow suffix,
       Csv.generateAndDownloadCSV isoNow [] suffix = None.
Proof.
  intros Hk Hne final Hraise.
  destruct (run_accumulators apiKey service props Hk Hne) as (E1 & E2 & _).
  fold final in E1, E2. rewrite E1 in Hraise. rewrite E2.
  set (afterLoop := Batch.loop apiKey service props
                      (Batch.videosWithScenes props) 0
                      (List.length (Batch.videosWithScenes props))
                      Batch.started) in *.
  assert (Hcalls :
    exportCalls (trace final)
    = exportCalls (trace afterLoop)
      ++ match analyzedResults afterLoop with
         | [] => []
         | _ :: _ => [(analyzedResults afterLoop, "-partial-error-recovery")]
         end).
  { unfold final. rewrite (run_unfold apiKey service props Hk Hne).
    fold afterLoop. unfold Batch.emitS at 1. fields.
    rewrite exportCalls_app. cbn [exportCalls flat_map].
    rewrite app_nil_r, finish_exportCalls, Hraise. reflexivity. }
  assert (Hem :
    emergencyExports (trace final)
    = match analyzedResults afterLoop with
      | [] => []
      | _ :: _ => [(analyzedResults afterLoop, "-partial-error-recovery")]
      end).
  { unfold emergencyExports. rewrite Hcalls, filter_app.
    pose proof (loop_no_emergency apiKey service props) as Hno.
    unfold emergencyExports in Hno. fold afterLoop in Hno. rewrite Hno.
    destruct (analyzedResults afterLoop); reflexivity. }
  split; [exact Hem|]. split; [|split].
  - rewrite Hem. destruct (analyzedResults afterLoop); split; intros H;
      try discriminate; try (exfalso; apply H; reflexivity).
  - intros Hnil. rewrite Hcalls, Hnil, app_nil_r. subst afterLoop.
    rewrite (loop_no_success apiKey service props _ _ _ _ Hnil).
    reflexivity.
  - reflexivity.
Qed.

Lemma C10_witness :
  let props := Samples.throwingProps Samples.threeVideos in
  let final :=
    Batch.handleBatchAnalyze "key"
      (Samples.softFailingAt (fun _ => true)) props in
  onAnalysisComplete props (allAnalyses final) = Raised "parent failed"
  /\ analyzedResults final = []
  /\ emergencyExports (trace final) = []
  /\ exportCalls (trace final) = [].
Proof.
  pose proof (C10_emergency_export_iff_accumulated "key"
                (Samples.softFailingAt (fun _ => true))
                (Samples.throwingProps Samples.threeVideos)
                "parent failed" eq_refl
                ltac:(discriminate) eq_refl) as (H1 & _ & H3 & _).
  split; [reflexivity|]. split; [reflexivity|].
  split; [exact H1 | exact (H3 eq_refl)].
Defined.

(** The other side of the same handler: with one analysis accumulated the
    export callback is called once more, under the recovery suffix. *)
Example emergency_export_after_one_success :
  let final :=
    Batch.handleBatchAnalyze "key"
      (Samples.softFailingAt (fun k => negb (Nat.eqb k 1)))
      (Samples.throwingProps Samples.threeVideos) in
  map snd (exportCalls (trace final)) = ["-partial-error-recovery"]
  /\ map id (analyzedResults final) = ["id-a"].
Proof. vm_compute. auto. Qed.

(** The checkpoints of a run as [App] wires it: one for every position
    that is due and whose video passed the three stages, and none for a
    due position whose video failed. *)
Lemma checkpoints_only_after_successes
    (apiKey : string) (service : Service) (isoNow : string)
    (rs : list VideoResult) :
  blank apiKey = false ->
  let props := appProps isoNow rs in
  let final := Batch.handleBatchAnalyze apiKey service props in
  let N := List.length (Batch.videosWithScenes props) in
  map snd (exportCalls (trace final))
  = map (fun kv => ("-progress-" ++ show_nat (fst kv))%string)
      (filter (fun kv => completesAt apiKey service kv
                         && checkpointDue (fst kv) N)
         (numbered 0 (Batch.videosWithScenes props))).
Proof.
  intros Hk props final N. subst final N.
  destruct (Batch.videosWithScenes props) eqn:E.
  - rewrite (run_empty apiKey service props Hk E). reflexivity.
  - assert (Hne : Batch.videosWithScenes props <> [])
      by (rewrite E; discriminate).
    rewrite (run_unfold apiKey service props Hk Hne), <- E.
    unfold Batch.emitS at 1. fields.
    rewrite exportCalls_app, finish_exportCalls. cbn [exportCalls flat_map].
    cbn [props appProps onAnalysisComplete]. rewrite !app_nil_r.
    rewrite loop_exportSuffixes. reflexivity.
Qed.

(** C1, on the code.  Five eligible videos, the fifth of which meets a soft
    failure of the vibe stage: the five positions are processed, four
    analyses are accumulated, and the export callback is never called,
    although a checkpoint is due after the fifth and last position. *)
Theorem C1_no_checkpoint_when_the_due_video_fails :
  let final :=
    Batch.handleBatchAnalyze "key"
      (Samples.softFailingAt (fun k => Nat.eqb k 5))
      (appProps Samples.isoNow Samples.fiveVideos) in
  processedCounts (trace final) = [0; 1; 2; 3; 4; 5]
  /\ List.length (allAnalyses final) = 4
  /\ exportCalls (trace final) = []
  /\ ~ checkpointsAtEveryFifthAndLast 5 (exportCalls (trace final)).
Proof.
  vm_compute. repeat split; try reflexivity. discriminate.
Qed.

(** The same batch without the failure is checkpointed once, after the
    fifth video, with the five analysed results. *)
Example checkpoint_after_five_successes :
  let final :=
    Batch.handleBatchAnalyze "key" Samples.allGood
      (appProps Samples.isoNow Samples.fiveVideos) in
  map (fun c => (map id (fst c), snd c)) (exportCalls (trace final))
  = [(["id-a"; "id-b"; "id-c"; "id-d"; "id-e"], "-progress-5")]
  /\ checkpointsAtEveryFifthAndLast 5 (exportCalls (trace final)).
Proof. vm_compute. auto. Qed.

(** A single video that fails is never exported. *)
Example no_checkpoint_for_a_single_failed_video :
  let final :=
    Batch.handleBatchAnalyze "key" (Samples.softFailingAt (fun _ => true))
      (appProps Samples.isoNow [Samples.video "a" 2 10]) in
  exportCalls (trace final) = []
  /\ failures final = [ {| fv_videoName := "a"; reason := "no content" |} ].
Proof. vm_compute. auto. Qed.



(** On every batch of up to 100 videos the rounding model gives the
    percentages of the hardware doubles. *)
Example progress_agrees_with_hardware :
  forallb (fun n => forallb (fun k => Z.eqb (hardwarePercent k n)
                                        (progressPercent k n))
                      (seq 1 n))
    (seq 1 100)
  = true.
Proof. vm_compute. reflexivity. Qed.

(** The percentage is the one of double precision: after 29 of 100 videos
    the quotient 0.29 times 100 is 28.999999999999996, shown as 28. *)
Example progress_after_29_of_100 :
  map (fun k => progressPercent k 100) [7; 28; 29; 57; 58; 100]%nat
  = [7; 28; 28; 56; 57; 100]%Z.
Proof. vm_compute. reflexivity. Qed.

(** ** Strings *)
Section Strings.

Local Open Scope string_scope.

Lemma append_assoc (a b c : string) : (a ++ b) ++ c = a ++ (b ++ c).
Proof. induction a as [|x a IH]; cbn; [|rewrite IH]; reflexivity. Qed.

Lemma append_nil_r (a : string) : a ++ "" = a.
Proof. induction a as [|x a IH]; cbn; [|rewrite IH]; reflexivity. Qed.

Lemma length_append (a b : string) :
  String.length (a ++ b) = String.length a + String.length b.
Proof. induction a as [|x a IH]; cbn; [|rewrite IH]; reflexivity. Qed.

End Strings.

(** ** The scan that removes the quotes around numerals *)
Module ScanFacts.

Import Json.
Local Open Scope string_scope.

Lemma spanDigits_split (s : string) :
  s = fst (spanDigits s) ++ snd (spanDigits s).
Proof.
  induction s as [|c s IH]; cbn; [reflexivity|].
  destruct (isDigit c); [|reflexivity].
  destruct (spanDigits s) as [ds rest]. cbn in *. congruence.
Qed.

Lemma spanDigits_digits (s : string) : allDigits (fst (spanDigits s)) = true.
Proof.
  induction s as [|c s IH]; cbn; [reflexivity|].
  destruct (isDigit c) eqn:D; [|reflexivity].
  destruct (spanDigits s) as [ds rest]. cbn in *. rewrite D. exact IH.
Qed.

(** A character that is not a digit ends the span where it would have
    ended without what follows. *)
Lemma spanDigits_app (a : string) (c : ascii) (b : string) :
  isDigit c = false ->
  spanDigits (a ++ String c b)
  = (fst (spanDigits a), snd (spanDigits a) ++ String c b).
Proof.
  intros Hc. induction a as [|x a IH]; cbn.
  - rewrite Hc. reflexivity.
  - destruct (isDigit x); [|reflexivity].
    rewrite IH. destruct (spanDigits a). reflexivity.
Qed.

Lemma matchUnsigned_app (a : string) (c : ascii) (b : string) :
  inPattern c = false ->
  matchUnsigned (a ++ String c b) = matchUnsigned a.
Proof.
  unfold inPattern. intros Hc.
  apply orb_false_elim in Hc. destruct Hc as [Hc Hq].
  apply orb_false_elim in Hc. destruct Hc as [Hc Hdot].
  apply orb_false_elim in Hc. destruct Hc as [Hd _].
  unfold matchUnsigned. rewrite (spanDigits_app a c b Hd).
  destruct (spanDigits a) as [ds rest]. cbn [fst snd].
  destruct ds as [|d ds]; [reflexivity|].
  destruct rest as [|c1 s2]; cbn [append].
  - rewrite Hdot. reflexivity.
  - destruct (Ascii.eqb c1 "."); [|reflexivity].
    rewrite (spanDigits_app s2 c b Hd).
    destruct (spanDigits s2) as [fs r2]. cbn [fst snd].
    destruct fs as [|f fs]; [reflexivity|].
    destruct r2 as [|c2 r2]; cbn [append]; [rewrite Hq|]; reflexivity.
Qed.

(** What follows a character outside the pattern has no part in a match
    that starts before it. *)
Lemma matchNumeral_app (a : string) (c : ascii) (b : string) :
  inPattern c = false ->
  matchNumeral (a ++ String c b) = matchNumeral a.
Proof.
  intros Hc. unfold matchNumeral. destruct a as [|x a]; cbn [append].
  - assert (Hm : Ascii.eqb c "-" = false).
    { unfold inPattern in Hc. destruct (Ascii.eqb c "-"); [|reflexivity].
      rewrite orb_true_r in Hc. discriminate. }
    rewrite Hm. pose proof (matchUnsigned_app "" c b Hc) as E.
    cbn [append] in E. rewrite E. reflexivity.
  - destruct (Ascii.eqb x "-").
    + rewrite (matchUnsigned_app a c b Hc). reflexivity.
    + pose proof (matchUnsigned_app (String x a) c b Hc) as E.
      cbn [append] in E. rewrite E. reflexivity.
Qed.

Lemma matchUnsigned_length (s ip fp : string) :
  matchUnsigned s = Some (ip, fp) ->
  S (String.length (ip ++ "." ++ fp)) <= String.length s.
Proof.
  unfold matchUnsigned. pose proof (spanDigits_split s) as E1.
  destruct (spanDigits s) as [ds rest]. cbn [fst snd] in E1.
  destruct ds as [|d ds]; [discriminate|].
  destruct rest as [|c s2]; [discriminate|].
  destruct (Ascii.eqb c "."); [|discriminate].
  pose proof (spanDigits_split s2) as E2.
  destruct (spanDigits s2) as [fs r2]. cbn [fst snd] in E2.
  destruct fs as [|f fs]; [discriminate|].
  destruct r2 as [|c' r2]; [discriminate|].
  destruct (Ascii.eqb c' dquote); [|discriminate].
  intros H. inversion H; subst ip fp. rewrite E1, E2.
  rewrite !length_append. cbn [String.length append].
  rewrite !length_append. cbn [String.length]. lia.
Qed.

(** A match lies within the text and is followed by its closing quote. *)
Lemma matchNumeral_length (s g : string) :
  matchNumeral s = Some g -> S (String.length g) <= String.length s.
Proof.
  unfold matchNumeral. destruct s as [|x s].
  - cbn. discriminate.
  - destruct (Ascii.eqb x "-").
    + destruct (matchUnsigned s) as [[ip fp]|] eqn:M; [|discriminate].
      intros H. inversion H; subst g.
      apply matchUnsigned_length in M. cbn [append String.length] in *. lia.
    + destruct (matchUnsigned (String x s)) as [[ip fp]|] eqn:M;
        [|discriminate].
      intros H. inversion H; subst g.
      apply matchUnsigned_length in M. cbn [append String.length] in *. lia.
Qed.

(** The scan treats the two sides of a character outside the pattern
    independently. *)
Lemma replaceFrom_split (a : string) (c : ascii) (b : string) (skip : nat) :
  inPattern c = false ->
  skip <= String.length a ->
  replaceFrom skip (a ++ String c b)
  = replaceFrom skip a ++ String c (replaceFrom 0 b).
Proof.
  intros Hc. revert skip.
  assert (Hq : Ascii.eqb c dquote = false).
  { unfold inPattern in Hc. destruct (Ascii.eqb c dquote); [|reflexivity].
    rewrite orb_true_r in Hc. discriminate. }
  induction a as [|x a IH]; intros skip Hs; cbn [append replaceFrom].
  - cbn in Hs. replace skip with 0 by lia. rewrite Hq. reflexivity.
  - destruct skip as [|k].
    + destruct (Ascii.eqb x dquote).
      * rewrite (matchNumeral_app a c b Hc).
        destruct (matchNumeral a) as [g|] eqn:M.
        -- rewrite IH by (apply matchNumeral_length; exact M).
           rewrite append_assoc. reflexivity.
        -- rewrite IH by lia. reflexivity.
      * rewrite IH by lia. reflexivity.
    + rewrite IH by (cbn in Hs; lia). reflexivity.
Qed.

Lemma unquoteNumerals_split (a : string) (c : ascii) (b : string) :
  inPattern c = false ->
  unquoteNumerals (a ++ String c b)
  = unquoteNumerals a ++ String c (unquoteNumerals b).
Proof. intros Hc. apply replaceFrom_split; [exact Hc | lia]. Qed.

Lemma replaceFrom_skip (a b : string) :
  replaceFrom (String.length a) (a ++ b) = replaceFrom 0 b.
Proof. induction a as [|x a IH]; cbn; [reflexivity | exact IH]. Qed.

(** *** Numerals *)

Lemma isUnsignedNumeral_parts (s : string) :
  isUnsignedNumeral s = true ->
  exists ip fp,
    s = ip ++ "." ++ fp
    /\ ip <> "" /\ fp <> ""
    /\ allDigits ip = true /\ allDigits fp = true
    /\ forall rest,
         matchUnsigned (s ++ String dquote rest) = Some (ip, fp).
Proof.
  unfold isUnsignedNumeral.
  pose proof (spanDigits_split s) as E1.
  pose proof (spanDigits_digits s) as D1.
  destruct (spanDigits s) as [ds rest] eqn:S1. cbn [fst snd] in E1, D1.
  destruct ds as [|d ds]; [discriminate|].
  destruct rest as [|c s2]; [discriminate|].
  destruct (Ascii.eqb_spec c "."); [subst c|discriminate]. cbn [andb].
  pose proof (spanDigits_split s2) as E2.
  pose proof (spanDigits_digits s2) as D2.
  destruct (spanDigits s2) as [fs r2] eqn:S2. cbn [fst snd] in E2, D2.
  destruct fs as [|f fs]; [discriminate|].
  destruct r2 as [|c' r2]; [|discriminate]. intros _.
  rewrite append_nil_r in E2.
  exists (String d ds), (String f fs).
  repeat split; auto; try discriminate.
  - rewrite E1 at 1. rewrite E2 at 1. reflexivity.
  - intros rest. unfold matchUnsigned.
    rewrite (spanDigits_app s dquote rest eq_refl), S1. cbn [fst snd append].
    cbn [Ascii.eqb Bool.eqb].
    rewrite (spanDigits_app s2 dquote rest eq_refl), S2.
    cbn [fst snd append]. reflexivity.
Qed.

Lemma isDecimalNumeral_parts (num : string) :
  isDecimalNumeral num = true ->
  exists sign ip fp,
    num = sign ++ ip ++ "." ++ fp
    /\ (sign = "" \/ sign = "-")
    /\ ip <> "" /\ fp <> ""
    /\ allDigits ip = true /\ allDigits fp = true
    /\ forall rest, matchNumeral (num ++ String dquote rest) = Some num.
Proof.
  destruct num as [|x num']; [discriminate|].
  unfold isDecimalNumeral.
  destruct (Ascii.eqb_spec x "-") as [-> | Hx]; intros H;
    destruct (isUnsignedNumeral_parts _ H)
      as (ip & fp & E & Hip & Hfp & Dip & Dfp & M).
  - exists "-", ip, fp. repeat split; auto.
    + cbn [append]. rewrite E at 1. reflexivity.
    + intros rest. unfold matchNumeral. cbn [append Ascii.eqb Bool.eqb].
      rewrite M. f_equal. f_equal. symmetry. exact E.
  - exists "", ip, fp. repeat split; auto.
    intros rest. unfold matchNumeral. cbn [append].
    destruct (Ascii.eqb_spec x "-"); [contradiction|].
    change (String x (num' ++ String dquote rest))
      with (String x num' ++ String dquote rest).
    rewrite M. f_equal. symmetry. exact E.
Qed.

Lemma escapeChar_plain (c : ascii) :
  isDigit c || Ascii.eqb c "-" || Ascii.eqb c "." = true ->
  escapeChar c = String c "".
Proof.
  intros H. unfold escapeChar, isDigit in *.
  destruct (Ascii.eqb_spec c "-"); [subst; reflexivity|].
  destruct (Ascii.eqb_spec c "."); [subst; reflexivity|].
  rewrite !orb_false_r in H. apply andb_prop in H. destruct H as [H1 H2].
  apply Nat.leb_le in H1, H2.
  repeat match goal with
         | |- context [(?a =? ?b)%nat] =>
             destruct (Nat.eqb_spec a b); [lia|]
         | |- context [(?a <? ?b)%nat] =>
             destruct (Nat.ltb_spec a b); [lia|]
         end.
  reflexivity.
Qed.

Lemma escapeString_app (a b : string) :
  escapeString (a ++ b) = escapeString a ++ escapeString b.
Proof.
  induction a as [|x a IH]; cbn; [reflexivity|].
  rewrite IH, append_assoc. reflexivity.
Qed.

Lemma escapeString_digits (s : string) :
  allDigits s = true -> escapeString s = s.
Proof.
  induction s as [|c s IH]; cbn; [reflexivity|].
  intros H. apply andb_prop in H. destruct H as [Hc Hs].
  rewrite escapeChar_plain by (rewrite Hc; reflexivity).
  rewrite (IH Hs). reflexivity.
Qed.

(** A numeral needs no escape. *)
Lemma escapeString_numeral (num : string) :
  isDecimalNumeral num = true -> escapeString num = num.
Proof.
  intros H. destruct (isDecimalNumeral_parts num H)
    as (sign & ip & fp & E & Hsign & _ & _ & Dip & Dfp & _).
  subst num. rewrite !escapeString_app, (escapeString_digits ip Dip),
    (escapeString_digits fp Dfp).
  destruct Hsign as [-> | ->]; reflexivity.
Qed.

(** A quoted numeral is replaced by the numeral. *)
Lemma unquoteNumerals_numeral (num rest : string) :
  isDecimalNumeral num = true ->
  unquoteNumerals (quoteJSONString num ++ rest)
  = num ++ unquoteNumerals rest.
Proof.
  intros H. unfold unquoteNumerals, quoteJSONString.
  rewrite (escapeString_numeral num H).
  cbn [append replaceFrom]. cbn [Ascii.eqb Bool.eqb dquote].
  rewrite append_assoc. cbn [append].
  destruct (isDecimalNumeral_parts num H) as (_ & _ & _ & _ & _ & _ & _ & _ & _ & M).
  change (String "034" rest) with (String dquote rest).
  rewrite M. f_equal.
  change (S (String.length num)) with (String.length (String dquote num)).
  assert (E : replaceFrom (S (String.length num)) (num ++ String dquote rest)
              = replaceFrom 0 rest).
  { replace (S (String.length num))
      with (String.length (num ++ String dquote "")).
    - replace (num ++ String dquote rest)
        with ((num ++ String dquote "") ++ rest)
        by (rewrite append_assoc; reflexivity).
      apply replaceFrom_skip.
    - rewrite length_append. cbn. lia. }
  exact E.
Qed.

End ScanFacts.

Module SeparatorFacts.

Import Json ScanFacts.
Local Open Scope string_scope.

Lemma unquoteNumerals_colon (a b : string) :
  unquoteNumerals (a ++ ":" ++ b)
  = unquoteNumerals a ++ ":" ++ unquoteNumerals b.
Proof. apply (unquoteNumerals_split a ":" b). reflexivity. Qed.

Lemma unquoteNumerals_comma (a b : string) :
  unquoteNumerals (a ++ "," ++ b)
  = unquoteNumerals a ++ "," ++ unquoteNumerals b.
Proof. apply (unquoteNumerals_split a "," b). reflexivity. Qed.

Lemma unquoteNumerals_comma_first (b : string) :
  unquoteNumerals ("," ++ b) = "," ++ unquoteNumerals b.
Proof. apply (unquoteNumerals_comma ""). Qed.

Lemma concat_app (sep : string) (l1 l2 : list string) :
  l1 <> [] -> l2 <> [] ->
  String.concat sep (l1 ++ l2)
  = String.concat sep l1 ++ sep ++ String.concat sep l2.
Proof.
  intros H1 H2. induction l1 as [|x l1 IH]; [contradiction|].
  destruct l1 as [|y l1].
  - cbn. destruct l2; [contradiction | reflexivity].
  - assert (E1 : String.concat sep ((x :: y :: l1) ++ l2)%list
                 = x ++ sep ++ String.concat sep ((y :: l1) ++ l2)%list)
      by reflexivity.
    assert (E2 : String.concat sep (x :: y :: l1)
                 = x ++ sep ++ String.concat sep (y :: l1))
      by reflexivity.
    rewrite E1, E2, IH by discriminate.
    rewrite !append_assoc. reflexivity.
Qed.

End SeparatorFacts.

Module PieceFacts.

Import Json ScanFacts SeparatorFacts.
Local Open Scope string_scope.

Lemma endsOutside_last (p : string) :
  endsOutside p = true ->
  exists a c, p = a ++ String c "" /\ inPattern c = false.
Proof.
  induction p as [|x p IH]; [discriminate|].
  destruct p as [|y p].
  - cbn. intros H. exists "", x. split; [reflexivity|].
    destruct (inPattern x); [discriminate | reflexivity].
  - intros H. destruct (IH H) as (a & c & E & Hc).
    exists (String x a), c. cbn [append]. rewrite <- E. auto.
Qed.

(** A piece of text that ends outside the pattern is scanned on its
    own. *)
Lemma unquoteNumerals_piece (p rest : string) :
  endsOutside p = true ->
  unquoteNumerals (p ++ rest) = unquoteNumerals p ++ unquoteNumerals rest.
Proof.
  intros H. destruct (endsOutside_last p H) as (a & c & -> & Hc).
  rewrite append_assoc. cbn [append].
  rewrite !(unquoteNumerals_split a c _ Hc), append_assoc. reflexivity.
Qed.

Lemma unquoteNumerals_empty (rest : string) :
  unquoteNumerals ("" ++ rest) = unquoteNumerals rest.
Proof. reflexivity. Qed.

(** A key and its colon, as [JSON.stringify] writes them without and with
    indentation. *)
Lemma unquoteNumerals_key (k v : string) :
  unquoteNumerals (quoteJSONString k ++ ":" ++ v)
  = unquoteNumerals (quoteJSONString k) ++ ":" ++ unquoteNumerals v.
Proof. apply unquoteNumerals_colon. Qed.

Lemma unquoteNumerals_key_space (k v : string) :
  unquoteNumerals (quoteJSONString k ++ ": " ++ v)
  = unquoteNumerals (quoteJSONString k) ++ ": " ++ unquoteNumerals v.
Proof.
  change (quoteJSONString k ++ ": " ++ v)
    with (quoteJSONString k ++ String ":" (" " ++ v)).
  rewrite (unquoteNumerals_split _ ":" _ eq_refl).
  rewrite (unquoteNumerals_piece " " v eq_refl). reflexivity.
Qed.

End PieceFacts.

(** ** Rendering of numbers *)
Module NumberFacts.

Import Json ScanFacts JsNumber.
Local Open Scope string_scope.

Lemma allDigits_app (a b : string) :
  allDigits (a ++ b) = allDigits a && allDigits b.
Proof.
  induction a as [|x a IH]; cbn; [reflexivity|].
  rewrite IH, andb_assoc. reflexivity.
Qed.

Lemma allDigits_uint (d : Decimal.uint) :
  allDigits (NilEmpty.string_of_uint d) = true.
Proof. induction d; cbn; auto. Qed.

Lemma allDigits_digits (s : positive) : allDigits (digits s) = true.
Proof. apply allDigits_uint. Qed.

Lemma allDigits_zeros (n : nat) : allDigits (zeros n) = true.
Proof. induction n; cbn; auto. Qed.

Lemma digits_nonempty (s : positive) : digits s <> "".
Proof.
  unfold digits. pose proof (Unsigned.to_uint_nonnil s) as H.
  destruct (Pos.to_uint s); cbn; try discriminate. contradiction.
Qed.

Lemma spanDigits_all (s : string) :
  allDigits s = true -> spanDigits s = (s, "").
Proof.
  induction s as [|c s IH]; cbn; [reflexivity|].
  intros H. apply andb_prop in H. destruct H as [Hc Hs].
  rewrite Hc, (IH Hs). reflexivity.
Qed.

Lemma isUnsignedNumeral_make (ip fp : string) :
  allDigits ip = true -> ip <> "" ->
  allDigits fp = true -> fp <> "" ->
  isUnsignedNumeral (ip ++ "." ++ fp) = true.
Proof.
  intros Di Ni Df Nf. unfold isUnsignedNumeral.
  change (ip ++ "." ++ fp) with (ip ++ String "." fp).
  rewrite (spanDigits_app ip "." fp eq_refl), (spanDigits_all ip Di).
  cbn [fst snd append]. destruct ip as [|d ip]; [contradiction|].
  cbn [Ascii.eqb Bool.eqb andb]. rewrite (spanDigits_all fp Df).
  destruct fp; [contradiction | reflexivity].
Qed.

Lemma digit_not_minus (c : ascii) : isDigit c = true -> Ascii.eqb c "-" = false.
Proof.
  intros H. destruct (Ascii.eqb_spec c "-"); [subst; discriminate|reflexivity].
Qed.

(** Digits, one point, digits, with or without a sign, is a numeral. *)
Lemma isDecimalNumeral_make (neg : bool) (ip fp : string) :
  allDigits ip = true -> ip <> "" ->
  allDigits fp = true -> fp <> "" ->
  isDecimalNumeral (signStr neg ++ ip ++ "." ++ fp) = true.
Proof.
  intros Di Ni Df Nf. pose proof (isUnsignedNumeral_make ip fp Di Ni Df Nf) as U.
  destruct neg; cbn [signStr append].
  - unfold isDecimalNumeral. cbn [Ascii.eqb Bool.eqb]. exact U.
  - destruct ip as [|d ip]; [contradiction|]. cbn [append] in *.
    cbn [allDigits] in Di. apply andb_prop in Di. destruct Di as [Dd _].
    unfold isDecimalNumeral. rewrite (digit_not_minus d Dd). exact U.
Qed.

(** An integral number below 10^21 is written with exactly one decimal,
    a zero, and without quotes. *)
Lemma integral_below_1e21_one_decimal (neg : bool) (s : positive) (n : Z) :
  (numDigits s <= n <= 21)%Z ->
  unquoteNumerals (stringify decimalReplacer (JNumber (Num neg s n)))
  = signStr neg ++ digits s ++ zeros (Z.to_nat (n - numDigits s)) ++ ".0".
Proof.
  intros [Hk Hn]. cbn [stringify]. unfold decimalReplacer.
  cbn [isInteger toFixed1].
  destruct (Z.leb_spec (numDigits s) n); [|lia].
  destruct (Z.leb_spec n 21); [|lia].
  set (ip := digits s ++ zeros (Z.to_nat (n - numDigits s))).
  assert (Dip : allDigits ip = true).
  { subst ip. rewrite allDigits_app, allDigits_digits, allDigits_zeros.
    reflexivity. }
  assert (Nip : ip <> "").
  { subst ip. pose proof (digits_nonempty s).
    destruct (digits s); [contradiction | discriminate]. }
  pose proof (isDecimalNumeral_make neg ip "0" Dip Nip eq_refl
                ltac:(discriminate)) as Hnum.
  replace (signStr neg ++ digits s ++ zeros (Z.to_nat (n - numDigits s)) ++ ".0")
    with (signStr neg ++ ip ++ "." ++ "0")
    by (subst ip; rewrite !append_assoc; reflexivity).
  rewrite <- (append_nil_r (quoteJSONString _)).
  rewrite (unquoteNumerals_numeral _ "" Hnum). cbn [unquoteNumerals replaceFrom].
  apply append_nil_r.
Qed.

Lemma zero_one_decimal :
  unquoteNumerals (stringify decimalReplacer (JNumber Num0)) = "0.0".
Proof. reflexivity. Qed.

(** A number that is not integral is written as [toString] writes it. *)
Lemma non_integral_unchanged (x : number) :
  isInteger x = false ->
  stringify decimalReplacer (JNumber x) = toString x.
Proof.
  intros H. cbn [stringify]. unfold decimalReplacer. rewrite H. reflexivity.
Qed.

(** From 10^21 on an integral number keeps its quotes: [toFixed] answers in
    exponential notation, which the replacement does not recognize. *)
Lemma integral_from_1e21_quoted (neg : bool) (s : positive) (n : Z) :
  (numDigits s <= n)%Z -> (21 < n)%Z ->
  stringify decimalReplacer (JNumber (Num neg s n))
  = quoteJSONString (signStr neg ++ exponential s n).
Proof.
  intros Hk Hn. cbn [stringify]. unfold decimalReplacer.
  cbn [isInteger toFixed1].
  destruct (Z.leb_spec (numDigits s) n); [|lia].
  destruct (Z.leb_spec n 21); [lia|].
  unfold toStringPos.
  destruct (Z.leb_spec n 21); [lia|]. rewrite !andb_false_r.
  destruct (Z.leb_spec n 0); [lia|]. rewrite andb_false_r. reflexivity.
Qed.

End NumberFacts.

(** ** Result merge *)
Section MergeFacts.

Import Merge.

Lemma sameButEnrichment_refl j : sameButEnrichment j j.
Proof. repeat split. Qed.

Lemma withEnrichment_same j v p w :
  sameButEnrichment j (withEnrichment j v p w).
Proof. repeat split. Qed.

(** An analysis without a target in the result set is never found. *)
Lemma findAnalysis_skip (l1 l2 : list Analysis) (a : Analysis) (rid : string) :
  resultId a <> rid ->
  findAnalysis (l1 ++ a :: l2) rid = findAnalysis (l1 ++ l2) rid.
Proof.
  intros H. unfold findAnalysis. induction l1 as [|b l1 IH]; cbn.
  - destruct (String.eqb_spec (resultId a) rid); [contradiction|reflexivity].
  - rewrite IH. reflexivity.
Qed.

Lemma mergeResults_skip (l1 l2 : list Analysis) (a : Analysis)
    (rs : list VideoResult) :
  (forall r, In r rs -> id r <> resultId a) ->
  mergeResults (l1 ++ a :: l2) rs = mergeResults (l1 ++ l2) rs.
Proof.
  intros H. unfold mergeResults. apply map_ext_in. intros r Hr.
  rewrite findAnalysis_skip; [reflexivity|].
  intros E. apply (H r Hr). symmetry. exact E.
Qed.

Lemma mergeHistory_skip (l1 l2 : list Analysis) (a : Analysis)
    (rs : list VideoResult) (hs : list HistoryItem) :
  (forall r, In r rs -> id r <> resultId a) ->
  mergeHistory rs (l1 ++ a :: l2) hs = mergeHistory rs (l1 ++ l2) hs.
Proof.
  intros H. unfold mergeHistory. apply map_ext. intros h.
  destruct (find _ rs) as [r|] eqn:F; [|reflexivity].
  apply find_some in F. destruct F as [Hr _].
  rewrite findAnalysis_skip; [reflexivity|].
  intros E. apply (H r Hr). symmetry. exact E.
Qed.

End MergeFacts.

(** C8.  The merge keeps the number of entries of the result set and of
    the history; an entry of the result set whose [id] is the [resultId]
    of an analysis, and an entry of the history whose [videoName] is that
    of a result with such an [id], get the three enrichment fields of that
    analysis and keep every other field; every other entry is left as it
    is; and an analysis whose [resultId] is the [id] of no result changes
    nothing. *)
Theorem C8_merge_overwrites_only_the_enrichment_of_matched_entries
    (analyses : list Analysis) (st : Merge.AppState) :
  let st' := Merge.handleBatchAnalysisComplete analyses st in
  List.length (Merge.app_results st') = List.length (Merge.app_results st)
  /\ List.length (Merge.app_history st') = List.length (Merge.app_history st)
  /\ (forall i r,
        nth_error (Merge.app_results st) i = Some r ->
        exists r',
          nth_error (Merge.app_results st') i = Some r'
          /\ id r' = id r /\ videoName r' = videoName r /\ file r' = file r
          /\ sameButEnrichment (jsonData r) (jsonData r')
          /\ match Merge.findAnalysis analyses (id r) with
             | Some a => enrichedBy a (jsonData r')
             | None => r' = r
             end)
  /\ (forall i h,
        nth_error (Merge.app_history st) i = Some h ->
        exists h',
          nth_error (Merge.app_history st') i = Some h'
          /\ h_id h' = h_id h /\ timestamp h' = timestamp h
          /\ h_videoName h' = h_videoName h
          /\ sameButEnrichment (h_jsonData h) (h_jsonData h')
          /\ match find (fun r => String.eqb (videoName r) (h_videoName h))
                     (Merge.app_results st) with
             | Some r =>
                 match Merge.findAnalysis analyses (id r) with
                 | Some a => enrichedBy a (h_jsonData h')
                 | None => h' = h
                 end
             | None => h' = h
             end)
  /\ (forall l1 a l2,
        analyses = l1 ++ a :: l2 ->
        (forall r, In r (Merge.app_results st) -> id r <> resultId a) ->
        st' = Merge.handleBatchAnalysisComplete (l1 ++ l2) st).
Proof.
  intros st'. subst st'. unfold Merge.handleBatchAnalysisComplete.
  cbn [Merge.app_results Merge.app_history].
  split; [apply length_map|]. split; [apply length_map|].
  split; [|split].
  - intros i r Hi. unfold Merge.mergeResults.
    rewrite nth_error_map, Hi. cbn [option_map].
    destruct (Merge.findAnalysis analyses (id r)) as [a|];
      eexists; (split; [reflexivity|]); cbn;
      repeat split; reflexivity.
  - intros i h Hi. unfold Merge.mergeHistory.
    rewrite nth_error_map, Hi. cbn [option_map].
    destruct (find _ (Merge.app_results st)) as [r|];
      [destruct (Merge.findAnalysis analyses (id r)) as [a|]|];
      eexists; (split; [reflexivity|]); cbn;
      repeat split; reflexivity.
  - intros l1 a l2 E H. subst analyses.
    rewrite mergeResults_skip, mergeHistory_skip by exact H. reflexivity.
Qed.

Lemma C8_witness :
  let st' :=
    Merge.handleBatchAnalysisComplete
      [Samples.analysisOf "id-a"; Samples.analysisOf "id-x"]
      Samples.mergeState in
  List.length (Merge.app_results st') = 2
  /\ List.length (Merge.app_history st') = 2
  /\ st' = Merge.handleBatchAnalysisComplete [Samples.analysisOf "id-a"]
             Samples.mergeState
  /\ map (fun h => vibe_description (h_jsonData h)) (Merge.app_history st')
     = [Some "calm"; None].
Proof.
  destruct (C8_merge_overwrites_only_the_enrichment_of_matched_entries
              [Samples.analysisOf "id-a"; Samples.analysisOf "id-x"]
              Samples.mergeState) as (H1 & H2 & _ & _ & H5).
  split; [exact H1|]. split; [exact H2|]. split.
  - apply (H5 [Samples.analysisOf "id-a"] (Samples.analysisOf "id-x") []).
    + reflexivity.
    + intros r [<- | [<- | []]]; discriminate.
  - reflexivity.
Defined.

(** ** The claims about the export encoding *)
Section EncodingClaims.

Import Json ScanFacts SeparatorFacts PieceFacts.
Local Open Scope string_scope.

Ltac peel :=
  repeat first
    [ rewrite unquoteNumerals_empty
    | rewrite unquoteNumerals_key
    | rewrite unquoteNumerals_key_space
    | rewrite unquoteNumerals_piece by reflexivity ].

(** C9.  A string field whose whole value reads as a decimal numeral is
    written between quotes by the stringification and loses them in the
    replacement that follows, in the export encoding and in the JSON panel
    alike: for such a [name] the text starts with the key, a colon and the
    bare numeral, and for such a [music_file] the key is followed by a
    colon, the bare numeral and the next key, so that the field reads as a
    JSON number. *)
Theorem C9_numeral_strings_lose_their_quotes (j : OutputJson) (num : string) :
  isDecimalNumeral num = true ->
  (name j = num ->
   (exists rest,
      stringify decimalReplacer (orderedJson j)
      = "{" ++ quoteJSONString "name" ++ ":" ++ quoteJSONString num
            ++ "," ++ rest)
   /\ (exists rest,
         jsonStringWithDecimals j
         = "{" ++ quoteJSONString "name" ++ ":" ++ num ++ ","
               ++ quoteJSONString "clips" ++ ":" ++ rest)
   /\ exists rest,
        jsonString j
        = "{" ++ String "010"%char ""
              ++ "  " ++ quoteJSONString "name" ++ ": " ++ num ++ ","
              ++ String "010"%char ""
              ++ "  " ++ quoteJSONString "clips" ++ ": " ++ rest)
  /\ (music_file j = num ->
      (exists before rest,
         jsonStringWithDecimals j
         = before ++ "," ++ quoteJSONString "music_file" ++ ":" ++ num
                  ++ "," ++ quoteJSONString "fade_in_duration" ++ ":" ++ rest)
      /\ exists before rest,
           jsonString j
           = before ++ "," ++ String "010"%char ""
                    ++ "  " ++ quoteJSONString "music_file" ++ ": " ++ num
                    ++ "," ++ String "010"%char ""
                    ++ "  " ++ quoteJSONString "fade_in_duration" ++ ": "
                    ++ rest).
Proof.
  intros Hnum. split.
  - intros Hname. split; [|split].
    + unfold orderedJson. cbn [stringify map fst snd String.concat].
      rewrite Hname, !append_assoc. eexists. reflexivity.
    + unfold jsonStringWithDecimals, orderedJson.
      cbn [stringify map fst snd String.concat].
      rewrite Hname, !append_assoc.
      rewrite (unquoteNumerals_piece "{") by reflexivity.
      rewrite unquoteNumerals_key.
      rewrite (unquoteNumerals_numeral num _ Hnum).
      rewrite (unquoteNumerals_piece ",") by reflexivity.
      rewrite unquoteNumerals_key.
      eexists. reflexivity.
    + unfold jsonString, orderedJson.
      cbn [stringifyIndented map fst snd String.concat].
      rewrite Hname, !append_assoc.
      peel. rewrite (unquoteNumerals_numeral num _ Hnum). peel.
      eexists. reflexivity.
  - intros Hmusic. split.
    + unfold jsonStringWithDecimals, orderedJson.
      cbn [stringify map fst snd].
      match goal with
      | |- context [String.concat "," (?f1 :: ?f2 :: ?f3 :: ?f4 :: ?tl)] =>
          change (f1 :: f2 :: f3 :: f4 :: tl)
            with ([f1; f2; f3; f4] ++ tl)%list;
          rewrite (concat_app "," [f1; f2; f3; f4] tl) by discriminate;
          set (fields := String.concat "," [f1; f2; f3; f4])
      end.
      cbn [String.concat]. rewrite Hmusic, !append_assoc.
      rewrite (unquoteNumerals_piece "{") by reflexivity.
      rewrite unquoteNumerals_comma, unquoteNumerals_key.
      rewrite (unquoteNumerals_numeral num _ Hnum).
      rewrite (unquoteNumerals_piece ",") by reflexivity.
      rewrite unquoteNumerals_key.
      exists ("{" ++ unquoteNumerals fields). eexists.
      rewrite !append_assoc. reflexivity.
    + unfold jsonString, orderedJson.
      cbn [stringifyIndented map fst snd].
      match goal with
      | |- context [String.concat ?sep (?f1 :: ?f2 :: ?f3 :: ?f4 :: ?tl)] =>
          change (f1 :: f2 :: f3 :: f4 :: tl)
            with ([f1; f2; f3; f4] ++ tl)%list;
          rewrite (concat_app sep [f1; f2; f3; f4] tl) by discriminate;
          set (fields := String.concat sep [f1; f2; f3; f4])
      end.
      cbn [String.concat]. rewrite Hmusic, !append_assoc.
      peel. rewrite unquoteNumerals_comma. peel.
      rewrite (unquoteNumerals_numeral num _ Hnum). peel.
      exists ("{" ++ String "010"%char "" ++ "  " ++ unquoteNumerals fields).
      eexists. rewrite !append_assoc. reflexivity.
Qed.

Lemma C9_witness :
  isDecimalNumeral "1.5" = true
  /\ exists rest,
       jsonStringWithDecimals Samples.numeralNames
       = "{" ++ quoteJSONString "name" ++ ":" ++ "1.5" ++ ","
             ++ quoteJSONString "clips" ++ ":" ++ rest.
Proof.
  split; [reflexivity|].
  destruct (C9_numeral_strings_lose_their_quotes Samples.numeralNames "1.5"
              eq_refl) as [H _].
  destruct (H eq_refl) as (_ & H2 & _). exact H2.
Defined.

Example numeral_names_rendered :
  jsonStringWithDecimals Samples.numeralNames
  = "{" ++ quoteJSONString "name" ++ ":1.5,"
        ++ quoteJSONString "clips" ++ ":[{" ++ quoteJSONString "index" ++ ":0.0,"
        ++ quoteJSONString "duration" ++ ":2.5,"
        ++ quoteJSONString "required" ++ ":true}],"
        ++ quoteJSONString "transitions" ++ ":[],"
        ++ quoteJSONString "logo_outro" ++ ":false,"
        ++ quoteJSONString "music_file" ++ ":-20.25,"
        ++ quoteJSONString "fade_in_duration" ++ ":2.0,"
        ++ quoteJSONString "fade_out_duration" ++ ":1.5}".
Proof. vm_compute. reflexivity. Qed.

(** C7, on the code.  A record whose [fade_in_duration] is the integral
    value 10^21 and whose [fade_out_duration] is 2: the second is written
    [2.0], the first is written as the quoted string [1e+21], with no
    decimal place, and reads back as a string. *)
Theorem C7_integral_1e21_is_exported_as_a_string :
  JsNumber.isInteger (fade_in_duration Samples.hugeFade) = true
  /\ jsonStringWithDecimals Samples.hugeFade
     = "{" ++ quoteJSONString "name" ++ ":" ++ quoteJSONString "clip" ++ ","
           ++ quoteJSONString "clips" ++ ":[],"
           ++ quoteJSONString "transitions" ++ ":[],"
           ++ quoteJSONString "logo_outro" ++ ":false,"
           ++ quoteJSONString "music_file" ++ ":"
           ++ quoteJSONString "a.mp3" ++ ","
           ++ quoteJSONString "fade_in_duration" ++ ":"
           ++ quoteJSONString "1e+21" ++ ","
           ++ quoteJSONString "fade_out_duration" ++ ":2.0}".
Proof. split; vm_compute; reflexivity. Qed.

(** The values named by the format: 2 is written 2.0, 0 is written 0.0
    and 1.5 is written 1.5. *)
Example canonical_numbers :
  map (fun x => unquoteNumerals (stringify decimalReplacer (JNumber x)))
    [Num false 2 1; Num0; Num false 15 1; Num true 3 1; Num false 12 3;
     Num false 5 (-6)]
  = ["2.0"; "0.0"; "1.5"; "-3.0"; "120.0"; "5e-7"].
Proof. vm_compute. reflexivity. Qed.

End EncodingClaims.

(** * Properties of the rest of the front end *)

(** ** Navigation of the carousel *)
Section CarouselFacts.

Import ResultsCarousel.
Local Open Scope Z_scope.

Variable results : list VideoResult.

Local Abbreviation len := (Z.of_nat (List.length results)).

Lemma currentResult_defined (i : Z) :
  0 <= i < len -> exists r, currentResult results i = Some r.
Proof.
  intros Hi. unfold currentResult.
  destruct (Z.ltb_spec i 0); [lia|].
  destruct (nth_error results (Z.to_nat i)) as [r|] eqn:E; [eauto|].
  apply nth_error_None in E. lia.
Qed.

(** [handleNext] is the successor modulo the number of results. *)
Lemma handleNext_mod (i : Z) :
  0 <= i < len -> handleNext results i = (i + 1) mod len.
Proof.
  intros Hi. unfold handleNext.
  destruct (Z.ltb_spec i (len - 1)).
  - rewrite Z.mod_small; lia.
  - replace (i + 1) with len by lia. rewrite Z.mod_same; lia.
Qed.

Lemma iter_handleNext (k : nat) (i : Z) :
  0 <= i < len ->
  Nat.iter k (handleNext results) i = (i + Z.of_nat k) mod len.
Proof.
  intros Hi. induction k as [|k IH].
  - cbn [Nat.iter nat_rect]. rewrite Z.add_0_r, Z.mod_small; lia.
  - change (Nat.iter (S k) (handleNext results) i)
      with (handleNext results (Nat.iter k (handleNext results) i)).
    rewrite IH, handleNext_mod.
    + rewrite Zplus_mod_idemp_l. f_equal. lia.
    + apply Z.mod_pos_bound. lia.
Qed.

(** X1.  On a non-empty result set the two arrows keep the index of the
    carousel on a result, they are inverse to each other, and each wraps
    around at its end of the list. *)
Theorem carousel_arrows_stay_in_range_and_are_inverse (i : Z) :
  0 <= i < len ->
  (0 <= handleNext results i < len
   /\ exists r, currentResult results (handleNext results i) = Some r)
  /\ (0 <= handlePrevious results i < len
      /\ exists r, currentResult results (handlePrevious results i) = Some r)
  /\ handlePrevious results (handleNext results i) = i
  /\ handleNext results (handlePrevious results i) = i
  /\ handleNext results (len - 1) = 0
  /\ handlePrevious results 0 = len - 1.
Proof.
  intros Hi.
  assert (Hn : 0 <= handleNext results i < len).
  { unfold handleNext. destruct (Z.ltb_spec i (len - 1)); lia. }
  assert (Hp : 0 <= handlePrevious results i < len).
  { unfold handlePrevious. destruct (Z.gtb_spec i 0); lia. }
  split; [split; [exact Hn | apply currentResult_defined; exact Hn]|].
  split; [split; [exact Hp | apply currentResult_defined; exact Hp]|].
  unfold handleNext, handlePrevious.
  split; [|split; [|split]].
  - destruct (Z.ltb_spec i (len - 1)).
    + destruct (Z.gtb_spec (i + 1) 0); lia.
    + destruct (Z.gtb_spec 0 0); lia.
  - destruct (Z.gtb_spec i 0).
    + destruct (Z.ltb_spec (i - 1) (len - 1)); lia.
    + destruct (Z.ltb_spec (len - 1) (len - 1)); lia.
  - destruct (Z.ltb_spec (len - 1) (len - 1)); lia.
  - destruct (Z.gtb_spec 0 0); lia.
Qed.

(** X2.  Pressing the right arrow [k] times moves the carousel [k] places
    forward modulo the number of results: every result is reached from
    every other, and as many presses as there are results lead back to the
    result shown. *)
Theorem carousel_next_cycles_through_all_results (i j : Z) :
  0 <= i < len -> 0 <= j < len ->
  Nat.iter (List.length results) (handleNext results) i = i
  /\ Nat.iter (Z.to_nat ((j - i) mod len)) (handleNext results) i = j.
Proof.
  intros Hi Hj. split.
  - rewrite iter_handleNext by exact Hi.
    rewrite <- (Z.mul_1_l len) at 1. rewrite Z.mod_add by lia.
    apply Z.mod_small. exact Hi.
  - rewrite iter_handleNext by exact Hi.
    rewrite Z2Nat.id by (apply Z.mod_pos_bound; lia).
    rewrite Zplus_mod_idemp_r.
    replace (i + (j - i)) with j by lia. apply Z.mod_small. exact Hj.
Qed.

End CarouselFacts.

Lemma carousel_arrows_witness :
  let rs := Samples.threeVideos in
  (0 <= 2 < Z.of_nat (List.length rs))%Z
  /\ ResultsCarousel.handleNext rs 2 = 0%Z
  /\ ResultsCarousel.handlePrevious rs 0 = 2%Z
  /\ ResultsCarousel.handlePrevious rs (ResultsCarousel.handleNext rs 2) = 2%Z.
Proof.
  assert (H : (0 <= 2 < Z.of_nat (List.length Samples.threeVideos))%Z)
    by (cbn; lia).
  destruct (carousel_arrows_stay_in_range_and_are_inverse
              Samples.threeVideos 2%Z H) as (_ & _ & H3 & _ & H5 & H6).
  split; [exact H|]. split; [exact H5|]. split; [exact H6 | exact H3].
Defined.

Lemma carousel_cycle_witness :
  let rs := Samples.threeVideos in
  (0 <= 1 < Z.of_nat (List.length rs))%Z
  /\ (0 <= 0 < Z.of_nat (List.length rs))%Z
  /\ Nat.iter 3 (ResultsCarousel.handleNext rs) 1%Z = 1%Z
  /\ Nat.iter 2 (ResultsCarousel.handleNext rs) 1%Z = 0%Z.
Proof.
  assert (H1 : (0 <= 1 < Z.of_nat (List.length Samples.threeVideos))%Z)
    by (cbn; lia).
  assert (H0 : (0 <= 0 < Z.of_nat (List.length Samples.threeVideos))%Z)
    by (cbn; lia).
  destruct (carousel_next_cycles_through_all_results
              Samples.threeVideos 1%Z 0%Z H1 H0) as (A & B).
  split; [exact H1|]. split; [exact H0|]. split; [exact A | exact B].
Defined.

(** ** The history of [App] *)
Section HistoryFacts.

Lemma deleteFromHistory_absent (id : string) (prev : list HistoryItem) :
  ~ In id (map h_id prev) -> App.deleteFromHistory id prev = prev.
Proof.
  unfold App.deleteFromHistory.
  induction prev as [|item prev IH]; cbn [filter map In]; intros H.
  - reflexivity.
  - destruct (String.eqb_spec (h_id item) id) as [E|E]; cbn [negb].
    + exfalso. apply H. left. exact E.
    + rewrite IH; [reflexivity|]. intros Hin. apply H. right. exact Hin.
Qed.

(** X3.  Deleting from the history removes every entry that bears the
    identifier and no other entry, keeps the order of those that stay, and
    changes nothing when no entry bears it; deleting the identifier of the
    entry just added, when it is new, gives back the history as it was. *)
Theorem history_delete_removes_exactly_the_entry
    (id : string) (prev : list HistoryItem) :
  (forall item, In item (App.deleteFromHistory id prev)
                <-> In item prev /\ h_id item <> id)
  /\ (forall l1 l2, prev = l1 ++ l2 ->
        App.deleteFromHistory id prev
        = App.deleteFromHistory id l1 ++ App.deleteFromHistory id l2)
  /\ (~ In id (map h_id prev) -> App.deleteFromHistory id prev = prev)
  /\ (forall now entry entryName,
        ~ In id (map h_id prev) ->
        App.deleteFromHistory id
          (App.addToHistory id now entry entryName prev) = prev).
Proof.
  split; [|split; [|split]].
  - intros item. unfold App.deleteFromHistory. rewrite filter_In.
    destruct (String.eqb_spec (h_id item) id); cbn [negb];
      intuition congruence.
  - intros l1 l2 ->. apply filter_app.
  - apply deleteFromHistory_absent.
  - intros now entry entryName H.
    unfold App.addToHistory, App.deleteFromHistory. cbn [filter h_id].
    rewrite String.eqb_refl. cbn [negb].
    apply deleteFromHistory_absent. exact H.
Qed.

End HistoryFacts.

(** ** Viewing an entry of the history *)
Section ViewFacts.

Variable apiKey : string.
Variable service : Service.
Variable onComplete : list Analysis -> Completion unit.
Variable onSave : list VideoResult -> string -> Completion (option Download).

(** X4.  An entry of the history that is viewed becomes the only result,
    with an empty file: whatever scenes it holds it is not eligible for
    the batch analysis, so that neither the effect that starts the run nor
    the run itself sends a request or exports a file; the effect reports
    an empty list of analyses, whose merge leaves the results and the
    history as they are and sets the completion flag. *)
Theorem viewed_history_entry_is_never_analysed
    (now : string) (entry : OutputJson) (entryName : string)
    (st : App.State) (isComplete isAnalyzing : bool) (error : option string) :
  let st' := App.viewHistoryItem now entry entryName st in
  let props :=
    {| results := App.results st'; onAnalysisComplete := onComplete;
       onAutoSaveCSV := onSave |} in
  let started := BatchMount.autoStart apiKey service props
                   isComplete isAnalyzing error in
  let run := Batch.handleBatchAnalyze apiKey service props in
  Batch.videosWithScenes props = []
  /\ BatchMount.rendersPanel props = false
  /\ fetches (trace started) = [] /\ exportCalls (trace started) = []
  /\ fetches (trace run) = [] /\ exportCalls (trace run) = []
  /\ (apiKey <> "" -> isComplete = false -> isAnalyzing = false ->
      truthy error = false ->
      trace started = [SetIsComplete true; AnalysisComplete []])
  /\ App.results (App.handleBatchAnalysisComplete [] st') = App.results st'
  /\ App.history (App.handleBatchAnalysisComplete [] st') = App.history st
  /\ App.isGeminiAnalysisComplete (App.handleBatchAnalysisComplete [] st')
     = true.
Proof.
  intros st' props started run.
  assert (Hvs : Batch.videosWithScenes props = []).
  { unfold Batch.videosWithScenes, props, st', App.viewHistoryItem.
    cbn [results App.results filter]. unfold hasScenes.
    cbn [jsonData file size].
    destruct (scenes entry) as [[|? ?]|]; reflexivity. }
  split; [exact Hvs|].
  split; [unfold BatchMount.rendersPanel; rewrite Hvs; reflexivity|].
  assert (Hst : trace started = []
                \/ trace started = [SetIsComplete true; AnalysisComplete []]).
  { unfold started, BatchMount.autoStart. rewrite Hvs.
    match goal with |- context [if ?b then _ else _] => destruct b end;
      [right | left]; reflexivity. }
  assert (Hrun : fetches (trace run) = [] /\ exportCalls (trace run) = []).
  { unfold run, Batch.handleBatchAnalyze. rewrite Hvs.
    destruct (blank apiKey); split; reflexivity. }
  split; [destruct Hst as [E|E]; rewrite E; reflexivity|].
  split; [destruct Hst as [E|E]; rewrite E; reflexivity|].
  split; [apply Hrun|]. split; [apply Hrun|].
  split.
  - intros Hk -> -> He. unfold started, BatchMount.autoStart.
    rewrite Hvs, He.
    destruct (String.eqb_spec apiKey ""); [contradiction|]. reflexivity.
  - unfold App.handleBatchAnalysisComplete, st', App.viewHistoryItem.
    cbn [App.results App.history App.isGeminiAnalysisComplete
         Merge.mergeResults Merge.findAnalysis find map].
    split; [reflexivity|]. split; [|reflexivity].
    unfold Merge.mergeHistory.
    rewrite <- (map_id (App.history st)) at 2.
    apply map_ext. intros item.
    match goal with |- context [find ?f ?l] => destruct (find f l) end;
      reflexivity.
Qed.

End ViewFacts.

(** ** Base names *)
Section BaseNames.

Local Open Scope string_scope.

Lemma split_nonempty (sep : ascii) (s : string) : App.split sep s <> [].
Proof.
  destruct s as [|c s]; cbn [App.split]; [discriminate|].
  destruct (Ascii.eqb c sep); [discriminate|].
  destruct (App.split sep s); discriminate.
Qed.

(** A string without the separator is a single piece. *)
Lemma split_without (sep : ascii) (s : string) :
  Csv.includes sep s = false -> App.split sep s = [s].
Proof.
  induction s as [|c s IH]; cbn [App.split Csv.includes]; [reflexivity|].
  rewrite Ascii.eqb_sym. intros H. apply orb_false_elim in H.
  destruct H as [Hc Hs]. rewrite Hc, (IH Hs). reflexivity.
Qed.

(** The pieces of [a], a separator, [b] are the pieces of [a] followed by
    those of [b]. *)
Lemma split_app (sep : ascii) (a b : string) :
  App.split sep (a ++ String sep b) = (App.split sep a ++ App.split sep b)%list.
Proof.
  induction a as [|c a IH]; cbn [App.split append].
  - rewrite Ascii.eqb_refl. reflexivity.
  - destruct (Ascii.eqb c sep); [rewrite IH; reflexivity|].
    rewrite IH.
    destruct (App.split sep a) as [|p ps] eqn:E; [|reflexivity].
    exfalso. exact (split_nonempty sep a E).
Qed.

(** Joining the pieces with the separator gives the string back. *)
Lemma join_split (sep : ascii) (s : string) :
  String.concat (String sep "") (App.split sep s) = s.
Proof.
  induction s as [|c s IH]; cbn [App.split]; [reflexivity|].
  destruct (Ascii.eqb_spec c sep) as [->|Hc].
  - pose proof (split_nonempty sep s) as Hne.
    destruct (App.split sep s) as [|p ps]; [contradiction|].
    cbn [String.concat append] in *. rewrite IH. reflexivity.
  - pose proof (split_nonempty sep s) as Hne.
    destruct (App.split sep s) as [|p ps]; [contradiction|].
    destruct ps as [|q ps]; cbn [String.concat append] in *;
      rewrite <- IH; reflexivity.
Qed.

(** X5.  The base name of a file is its name up to the last point: the
    last extension is taken off and nothing else, and a name without a
    point, which has no extension to take off, gets the empty base name. *)
Theorem baseName_drops_the_last_extension (stem ext : string) :
  Csv.includes "." ext = false ->
  App.baseName (stem ++ "." ++ ext) = stem
  /\ App.baseName ext = "".
Proof.
  intros He. unfold App.baseName. split.
  - change (stem ++ "." ++ ext) with (stem ++ String "." ext).
    rewrite split_app, (split_without "." ext He), removelast_last.
    apply join_split.
  - rewrite (split_without "." ext He). reflexivity.
Qed.

End BaseNames.

Lemma baseName_witness :
  Csv.includes "." "gz" = false
  /\ App.baseName "clip.tar.gz" = "clip.tar"
  /\ App.baseName "gz" = "".
Proof.
  split; [reflexivity|].
  exact (baseName_drops_the_last_extension "clip.tar" "gz" eq_refl).
Defined.

(** ** The upload *)
Section UploadFacts.

Import UploadTerms.

Variable browser : App.Browser.
Variable captured : Z.

Local Abbreviation uploadFrom := (App.uploadFrom browser captured).
Local Abbreviation answeredWith := (answeredWith browser captured).
Local Abbreviation videoResultOf := (videoResultOf browser).
Local Abbreviation historyItemOf := (historyItemOf browser).

Lemma answered_cons (i : nat) (file : File) (files : list File)
    (j : OutputJson) (js : list OutputJson) :
  answered i (file :: files) (j :: js)
  = (i, (file, j)) :: answered (S i) files js.
Proof. reflexivity. Qed.

(** The loop over files that are all answered. *)
Lemma uploadFrom_answered (files : list File) (js : list OutputJson)
    (i : nat) (acc : list VideoResult) (st : App.State) :
  List.length js = List.length files ->
  Forall answeredWith (answered i files js) ->
  let st' := uploadFrom files i acc st in
  App.results st' = acc ++ map videoResultOf (answered i files js)
  /\ App.history st'
     = rev (map historyItemOf (answered i files js)) ++ App.history st
  /\ App.progressStage st' = DONE
  /\ App.error st' = App.error st
  /\ App.videoFiles st' = App.videoFiles st
  /\ App.threshold st' = App.threshold st
  /\ App.currentVideoIndex st'
     = match files with
       | [] => App.currentVideoIndex st
       | _ :: _ => i + List.length files - 1
       end.
Proof.
  revert js i acc st.
  induction files as [|file files IH]; intros js i acc st Hlen Hall.
  - destruct js; [|discriminate]. cbn. rewrite app_nil_r. auto 10.
  - destruct js as [|j js]; [discriminate|].
    rewrite answered_cons in *. inversion Hall as [|x l Hx Hrest]; subst.
    unfold UploadTerms.answeredWith in Hx. cbn [fst snd] in Hx.
    cbn [App.uploadFrom]. rewrite Hx.
    match goal with
    | |- context [App.uploadFrom _ _ files (S i) ?a ?s] =>
        destruct (IH js (S i) a s) as (E1 & E2 & E3 & E4 & E5 & E6 & E7)
    end; [cbn in Hlen; lia | exact Hrest |].
    cbv zeta. rewrite E1, E2, E3, E4, E5, E6, E7.
    cbn [map rev App.history App.afterAnswer App.beforeRequest App.error
         App.videoFiles App.threshold App.currentVideoIndex
         App.addToHistory].
    rewrite <- !app_assoc. cbn [app List.length].
    repeat split; try reflexivity.
    destruct files; cbn [List.length]; lia.
Qed.

(** The loop over files of which the first ones are answered and the next
    one is not. *)
Lemma uploadFrom_failing (l1 : list File) (js : list OutputJson)
    (f : File) (l2 : list File) (message : string)
    (i : nat) (acc : list VideoResult) (st : App.State) :
  List.length js = List.length l1 ->
  Forall answeredWith (answered i l1 js) ->
  SceneDetection.analyzeVideoForScenes
    (App.backend browser (i + List.length l1) f captured) = Raised message ->
  let st' := uploadFrom (l1 ++ f :: l2) i acc st in
  App.results st' = App.results st
  /\ App.history st'
     = rev (map historyItemOf (answered i l1 js)) ++ App.history st
  /\ App.progressStage st' = IDLE
  /\ App.error st' = Some message
  /\ App.currentVideoIndex st' = i + List.length l1.
Proof.
  revert js i acc st.
  induction l1 as [|file l1 IH]; intros js i acc st Hlen Hall Hf.
  - destruct js; [|discriminate]. cbn [app App.uploadFrom List.length] in *.
    rewrite Nat.add_0_r in Hf. rewrite Hf. cbn. rewrite Nat.add_0_r. auto.
  - destruct js as [|j js]; [discriminate|].
    rewrite answered_cons in *. inversion Hall as [|x l Hx Hrest]; subst.
    unfold UploadTerms.answeredWith in Hx. cbn [fst snd] in Hx.
    cbn [app App.uploadFrom]. rewrite Hx.
    match goal with
    | |- context [App.uploadFrom _ _ (l1 ++ f :: l2) (S i) ?a ?s] =>
        destruct (IH js (S i) a s) as (E1 & E2 & E3 & E4 & E5)
    end; [cbn in Hlen; lia | exact Hrest | |].
    + cbn [List.length] in Hf.
      replace (S i + List.length l1) with (i + S (List.length l1)) by lia.
      exact Hf.
    + cbv zeta. rewrite E1, E2, E3, E4, E5.
      cbn [map rev App.history App.afterAnswer App.beforeRequest
           App.results App.addToHistory].
      rewrite <- !app_assoc. cbn [app List.length].
      repeat split; try reflexivity. lia.
Qed.

End UploadFacts.

Section UploadOutcomes.

Import UploadTerms.

Lemma answered_files (i : nat) (files : list File) (js : list OutputJson) :
  List.length js = List.length files ->
  map (fun x : Answered => fst (snd x)) (answered i files js) = files.
Proof.
  revert i js. induction files as [|f files IH]; intros i js H.
  - reflexivity.
  - destruct js as [|j js]; [discriminate|].
    rewrite answered_cons. cbn [map fst snd]. rewrite IH; [reflexivity|].
    cbn in H. lia.
Qed.

(** The text with which the service rejects. *)
Lemma analyzeVideoForScenes_message (response : SceneDetection.Response OutputJson)
    (message : string) :
  SceneDetection.analyzeVideoForScenes response = Raised message ->
  (exists cause, message = ("Failed to analyze video: " ++ cause)%string)
  \/ message = "An unknown error occurred during video analysis.".
Proof.
  unfold SceneDetection.analyzeVideoForScenes.
  destruct (SceneDetection.request response) as [j|[m|]]; intros H;
    inversion H; [left; exists m | right]; reflexivity.
Qed.

(** X6.  When the back end answers for every file, the upload ends with one
    result per file, in the order of the files, each bearing the base name
    of its file, the record answered for it and the file itself; the
    history has gained one entry per file, the last file first, above the
    entries it had; the stage is [DONE] and no error is set.  The requests
    carry the sensitivity that was chosen before the upload, while the
    state ends with the default of 15. *)
Theorem upload_gives_one_result_and_one_history_entry_per_file
    (browser : App.Browser) (files : list File) (js : list OutputJson)
    (st : App.State) :
  List.length js = List.length files ->
  Forall (answeredWith browser (App.threshold st)) (answered 0 files js) ->
  let st' := App.handleFileUpload browser files st in
  App.results st' = map (videoResultOf browser) (answered 0 files js)
  /\ map file (App.results st') = files
  /\ map videoName (App.results st')
     = map (fun f => App.baseName (file_name f)) files
  /\ App.history st'
     = rev (map (historyItemOf browser) (answered 0 files js))
       ++ App.history st
  /\ App.progressStage st' = DONE
  /\ App.error st' = None
  /\ App.isLoading st' = false
  /\ App.videoFiles st' = files
  /\ App.threshold st' = 15%Z
  /\ App.isGeminiAnalysisComplete st' = false.
Proof.
  intros Hlen Hall st'. subst st'. unfold App.handleFileUpload.
  cbv zeta.
  match goal with
  | |- context [App.uploadFrom browser ?t files 0 [] ?s] =>
      destruct (uploadFrom_answered browser t files js 0 [] s Hlen Hall)
        as (E1 & E2 & E3 & E4 & E5 & E6 & _);
      set (st2 := App.uploadFrom browser t files 0 [] s) in *
  end.
  cbn [App.results App.history App.progressStage App.error App.isLoading
       App.videoFiles App.threshold App.isGeminiAnalysisComplete].
  cbn [app] in E1. rewrite E1, E2, E3, E4, E5, E6.
  cbn [App.resetState App.history App.error App.videoFiles App.threshold].
  split; [reflexivity|].
  split.
  { rewrite map_map. cbn [file videoResultOf].
    apply answered_files. exact Hlen. }
  split.
  { rewrite map_map. cbn [videoName videoResultOf].
    rewrite <- (answered_files 0 files js Hlen) at 2.
    rewrite map_map. reflexivity. }
  repeat split.
  (* the flag is the one of the reset: the loop does not touch it *)
  subst st2. clear.
  match goal with
  | |- context [App.uploadFrom browser ?t files 0 ?a ?s] =>
      generalize a; generalize 0;
      assert (G : App.isGeminiAnalysisComplete s = false) by reflexivity;
      revert G; generalize s
  end.
  induction files as [|f files IH]; intros s G n a; cbn [App.uploadFrom].
  - exact G.
  - destruct (SceneDetection.analyzeVideoForScenes _).
    + apply IH. exact G.
    + exact G.
Qed.

(** X7.  When the back end fails for one file, the upload stops there: no
    result is kept, not even those of the files answered before, the error
    of the service is shown, which begins with the words of the service,
    and the stage is back to [IDLE]; but the history keeps the entries of
    the files that were answered before the failure. *)
Theorem failed_upload_drops_results_but_keeps_history
    (browser : App.Browser) (l1 : list File) (js : list OutputJson)
    (f : File) (l2 : list File) (message : string) (st : App.State) :
  List.length js = List.length l1 ->
  Forall (answeredWith browser (App.threshold st)) (answered 0 l1 js) ->
  SceneDetection.analyzeVideoForScenes
    (App.backend browser (List.length l1) f (App.threshold st))
  = Raised message ->
  let st' := App.handleFileUpload browser (l1 ++ f :: l2) st in
  App.results st' = []
  /\ App.history st'
     = rev (map (historyItemOf browser) (answered 0 l1 js)) ++ App.history st
  /\ List.length (App.history st')
     = List.length l1 + List.length (App.history st)
  /\ App.error st' = Some message
  /\ ((exists cause, message = ("Failed to analyze video: " ++ cause)%string)
      \/ message = "An unknown error occurred during video analysis.")
  /\ App.progressStage st' = IDLE
  /\ App.isLoading st' = false
  /\ App.currentVideoIndex st' = List.length l1.
Proof.
  intros Hlen Hall Hf st'. subst st'. unfold App.handleFileUpload.
  cbv zeta.
  match goal with
  | |- context [App.uploadFrom browser ?t (l1 ++ f :: l2) 0 [] ?s] =>
      destruct (uploadFrom_failing browser t l1 js f l2 message 0 [] s
                  Hlen Hall Hf)
        as (E1 & E2 & E3 & E4 & E5);
      set (st2 := App.uploadFrom browser t (l1 ++ f :: l2) 0 [] s) in *
  end.
  cbn [App.results App.history App.progressStage App.error App.isLoading
       App.currentVideoIndex].
  rewrite E1, E2, E3, E4, E5.
  cbn [App.resetState App.history App.results].
  split; [reflexivity|]. split; [reflexivity|].
  split.
  { rewrite length_app, length_rev, length_map.
    unfold answered, Answered.
    rewrite length_combine, length_combine, length_seq, Hlen.
    lia. }
  split; [reflexivity|].
  split; [eapply analyzeVideoForScenes_message; exact Hf|].
  auto.
Qed.

End UploadOutcomes.

Lemma upload_witness :
  let files := [Scenarios.clipFile "a"; Scenarios.clipFile "b.v2"] in
  let st' := App.handleFileUpload Scenarios.browser files Scenarios.tuned in
  map videoName (App.results st') = ["a"; "b.v2"]
  /\ map h_videoName (App.history st') = ["b.v2"; "a"; "earlier"]
  /\ App.progressStage st' = DONE
  /\ App.threshold st' = 15%Z.
Proof.
  pose proof (upload_gives_one_result_and_one_history_entry_per_file
                Scenarios.browser
                [Scenarios.clipFile "a"; Scenarios.clipFile "b.v2"]
                [Scenarios.analysed "a"; Scenarios.analysed "b.v2"]
                Scenarios.tuned eq_refl
                ltac:(repeat constructor))
    as (_ & _ & H3 & H4 & H5 & _ & _ & _ & H9 & _).
  split; [exact H3|]. split; [rewrite H4; reflexivity|].
  split; [exact H5 | exact H9].
Defined.

Lemma failed_upload_witness :
  let files := [Scenarios.clipFile "a"; Scenarios.clipFile "broken";
                Scenarios.clipFile "c"] in
  let st' := App.handleFileUpload Scenarios.browser files Scenarios.tuned in
  App.results st' = []
  /\ map h_videoName (App.history st') = ["a"; "earlier"]
  /\ App.error st' = Some "Failed to analyze video: decoder crashed".
Proof.
  pose proof (failed_upload_drops_results_but_keeps_history
                Scenarios.browser
                [Scenarios.clipFile "a"] [Scenarios.analysed "a"]
                (Scenarios.clipFile "broken") [Scenarios.clipFile "c"]
                "Failed to analyze video: decoder crashed"
                Scenarios.tuned eq_refl
                ltac:(repeat constructor) eq_refl)
    as (H1 & H2 & _ & H4 & _).
  split; [exact H1|]. split; [|exact H4].
  cbn [app] in H2. rewrite H2. reflexivity.
Defined.

(** ** The fields of the CSV export *)
Module CsvFacts.

Import Csv TextTerms.
Local Open Scope string_scope.

Lemma includes_count (c : ascii) (s : string) :
  includes c s = false <-> count c s = 0.
Proof.
  induction s as [|d s IH]; cbn [includes count]; [tauto|].
  rewrite (Ascii.eqb_sym c d).
  destruct (Ascii.eqb d c); cbn [orb]; [split; [discriminate | lia]|].
  exact IH.
Qed.

Lemma count_app (c : ascii) (a b : string) :
  count c (a ++ b) = count c a + count c b.
Proof.
  induction a as [|d a IH]; cbn [append count]; [reflexivity|].
  rewrite IH. lia.
Qed.

Lemma count_doubleQuotes (v : string) :
  count Json.dquote (doubleQuotes v) = 2 * count Json.dquote v.
Proof.
  induction v as [|c v IH]; cbn [doubleQuotes count]; [reflexivity|].
  destruct (Ascii.eqb c Json.dquote) eqn:E; cbn [count]; rewrite ?E, IH; lia.
Qed.

Lemma doubleQuotes_inj (a b : string) :
  doubleQuotes a = doubleQuotes b -> a = b.
Proof.
  revert b. induction a as [|c a IH]; intros [|d b]; cbn [doubleQuotes].
  - reflexivity.
  - destruct (Ascii.eqb d Json.dquote); discriminate.
  - destruct (Ascii.eqb c Json.dquote); discriminate.
  - destruct (Ascii.eqb c Json.dquote) eqn:Ec;
      destruct (Ascii.eqb d Json.dquote) eqn:Ed; intros H; inversion H; subst.
    + f_equal. apply IH. assumption.
    + congruence.
    + congruence.
    + f_equal. apply IH. assumption.
Qed.

Lemma append_inj_l (a b s : string) : a ++ s = b ++ s -> a = b.
Proof.
  revert b. induction a as [|c a IH]; intros [|d b]; cbn [append]; intros H.
  - reflexivity.
  - exfalso. apply (f_equal String.length) in H.
    cbn [String.length] in H. rewrite length_append in H. lia.
  - exfalso. apply (f_equal String.length) in H.
    cbn [String.length] in H. rewrite length_append in H. lia.
  - inversion H; subst. f_equal. apply IH. assumption.
Qed.

Lemma escapeCSV_unfold (v : string) :
  escapeCSV v
  = if needsQuotes v
    then String Json.dquote (doubleQuotes v ++ String Json.dquote "")
    else v.
Proof. reflexivity. Qed.

(** X8.  A value goes into a CSV field as it is exactly when it holds no
    comma, double quote or line feed; otherwise it is wrapped in double
    quotes with its own double quotes doubled.  So a field holds an even
    number of double quotes, a field that is not wrapped holds no
    separator, and two values are never written as the same field. *)
Theorem escapeCSV_loses_nothing (a b : string) :
  (escapeCSV a = a <-> needsQuotes a = false)
  /\ Nat.even (count Json.dquote (escapeCSV a)) = true
  /\ (needsQuotes a = false ->
      includes "," (escapeCSV a) = false
      /\ includes newline (escapeCSV a) = false)
  /\ (escapeCSV a = escapeCSV b -> a = b).
Proof.
  assert (Hq : forall v, needsQuotes v = false ->
                 count Json.dquote v = 0).
  { intros v H. unfold needsQuotes in H.
    apply orb_false_elim in H. destruct H as [H _].
    apply orb_false_elim in H. destruct H as [_ H].
    apply includes_count. exact H. }
  assert (Hw : forall v, needsQuotes v = true ->
                 includes Json.dquote (escapeCSV v) = true).
  { intros v H. rewrite escapeCSV_unfold, H. cbn [includes].
    rewrite Ascii.eqb_refl. reflexivity. }
  split; [|split; [|split]].
  - rewrite escapeCSV_unfold. destruct (needsQuotes a) eqn:E;
      split; intros H; try reflexivity; try discriminate.
    exfalso. apply (f_equal String.length) in H.
    cbn [String.length] in H. rewrite length_append in H.
    cbn [String.length] in H.
    assert (L : forall v, String.length v <= String.length (doubleQuotes v)).
    { induction v as [|c v IH]; cbn [doubleQuotes]; [lia|].
      destruct (Ascii.eqb c Json.dquote); cbn [String.length]; lia. }
    specialize (L a). lia.
  - rewrite escapeCSV_unfold. destruct (needsQuotes a) eqn:E.
    + cbn [count]. rewrite Ascii.eqb_refl, count_app, count_doubleQuotes.
      cbn [count]. rewrite Ascii.eqb_refl.
      replace (1 + (2 * count Json.dquote a + (1 + 0)))
        with (2 * (count Json.dquote a + 1)) by lia.
      rewrite Nat.even_mul. reflexivity.
    + rewrite (Hq a E). reflexivity.
  - intros E. rewrite escapeCSV_unfold, E. unfold needsQuotes in E.
    apply orb_false_elim in E. destruct E as [E E3].
    apply orb_false_elim in E. destruct E as [E1 _]. auto.
  - rewrite (escapeCSV_unfold a), (escapeCSV_unfold b).
    destruct (needsQuotes a) eqn:Ea; destruct (needsQuotes b) eqn:Eb;
      intros H.
    + inversion H as [H']. apply append_inj_l in H'.
      apply doubleQuotes_inj. exact H'.
    + exfalso. pose proof (Hq b Eb) as Hb. rewrite <- H in Hb.
      cbn [count] in Hb. rewrite Ascii.eqb_refl in Hb. lia.
    + exfalso. pose proof (Hq a Ea) as Ha. rewrite H in Ha.
      cbn [count] in Ha. rewrite Ascii.eqb_refl in Ha. lia.
    + exact H.
Qed.

(** *** Markdown emphasis *)

Lemma cleanMarkdown_stars (rest : string) :
  cleanMarkdown (String "*" (String "*" rest)) = cleanMarkdown rest.
Proof. reflexivity. Qed.

Lemma cleanMarkdown_other (c : ascii) (rest : string) :
  Ascii.eqb c "*"
  && match rest with String d _ => Ascii.eqb d "*" | EmptyString => false end
  = false ->
  cleanMarkdown (String c rest) = String c (cleanMarkdown rest).
Proof.
  intros H. destruct (Ascii.eqb_spec c "*") as [->|Hc].
  - cbn [andb] in H. destruct rest as [|d rest]; [reflexivity|].
    destruct (Ascii.eqb_spec d "*") as [->|Hd]; [discriminate|].
    destruct d as [[] [] [] [] [] [] [] []];
      try reflexivity; exfalso; apply Hd; reflexivity.
  - destruct c as [[] [] [] [] [] [] [] []];
      try reflexivity; exfalso; apply Hc; reflexivity.
Qed.

Lemma cleanMarkdown_head (rest : string) :
  match rest with String d _ => Ascii.eqb d "*" | EmptyString => false end
  = false ->
  match cleanMarkdown rest with
  | String d _ => Ascii.eqb d "*"
  | EmptyString => false
  end = false.
Proof.
  destruct rest as [|d rest]; [reflexivity|]. intros H.
  rewrite cleanMarkdown_other by (rewrite H; reflexivity). exact H.
Qed.

Lemma cleanMarkdown_clean (n : nat) :
  forall s, String.length s <= n -> hasDoubleAsterisk (cleanMarkdown s) = false.
Proof.
  induction n as [|n IH]; intros s Hn.
  - destruct s; [reflexivity | cbn in Hn; lia].
  - destruct s as [|c rest]; [reflexivity|].
    destruct (Ascii.eqb c "*"
              && match rest with
                 | String d _ => Ascii.eqb d "*"
                 | EmptyString => false
                 end) eqn:E.
    + apply andb_prop in E. destruct E as [Ec Er].
      apply Ascii.eqb_eq in Ec. subst c.
      destruct rest as [|d rest]; [discriminate|].
      apply Ascii.eqb_eq in Er. subst d.
      rewrite cleanMarkdown_stars. apply IH. cbn in Hn. lia.
    + rewrite (cleanMarkdown_other c rest E). cbn [hasDoubleAsterisk].
      rewrite IH by (cbn in Hn; lia). rewrite orb_false_r.
      destruct (Ascii.eqb c "*"); [|reflexivity]. cbn [andb] in *.
      apply cleanMarkdown_head. exact E.
Qed.

Lemma cleanMarkdown_fixed (s : string) :
  hasDoubleAsterisk s = false -> cleanMarkdown s = s.
Proof.
  induction s as [|c rest IH]; [reflexivity|].
  cbn [hasDoubleAsterisk]. intros H. apply orb_false_elim in H.
  destruct H as [H1 H2].
  rewrite (cleanMarkdown_other c rest H1), (IH H2). reflexivity.
Qed.

(** X9.  The text cleaned of its emphasis marks holds no pair of asterisks
    any more, although the pairs are taken out in a single pass from left
    to right; a text without such a pair is left as it is, and cleaning
    twice is cleaning once. *)
Theorem cleanMarkdown_leaves_no_emphasis_mark (text : string) :
  hasDoubleAsterisk (cleanMarkdown text) = false
  /\ cleanMarkdown (cleanMarkdown text) = cleanMarkdown text
  /\ (hasDoubleAsterisk text = false -> cleanMarkdown text = text).
Proof.
  assert (H : hasDoubleAsterisk (cleanMarkdown text) = false)
    by (apply (cleanMarkdown_clean (String.length text)); lia).
  split; [exact H|]. split; [apply cleanMarkdown_fixed; exact H|].
  apply cleanMarkdown_fixed.
Qed.

End CsvFacts.

(** ** Rounding of integers and of negative numbers *)
Module RoundingFacts.

Import Binary64 Binary64Facts.
Local Open Scope Q_scope.

Lemma RN_nonneg (q : Q) : 0 <= q -> 0 <= RN q.
Proof.
  intros H. apply Qle_trans with (RN 0); [apply Qle_refl|].
  apply RN_nonneg_mono; [apply Qle_refl | exact H].
Qed.

Lemma RN_negative (q : Q) : q < 0 -> RN q < 0.
Proof.
  intros H. unfold RN. destruct q as [[|p|p] d]; cbn [Qnum].
  - exfalso. unfold Qlt in H. cbn in H. lia.
  - exfalso. unfold Qlt in H. cbn in H. lia.
  - assert (Hp : 0 < RNpos (- (Z.neg p # d))).
    { apply RNpos_pos. reflexivity. }
    lra.
Qed.

Lemma rne_integer (x : Q) (m : Z) : x == inject_Z m -> rne x = m.
Proof.
  intros E. apply Z.le_antisymm.
  - apply rne_le. rewrite E. apply Qle_refl.
  - apply rne_ge. rewrite E. apply Qle_refl.
Qed.

(** An integer below 2^53 is a double. *)
Lemma RNpos_integer (n : Z) :
  (0 < n < 2 ^ 53)%Z -> RNpos (inject_Z n) == inject_Z n.
Proof.
  intros Hn.
  assert (Hq : 0 < inject_Z n) by (rewrite <- (Zlt_Qlt 0); lia).
  destruct (ilog2_spec (inject_Z n) Hq) as [L _].
  set (l := ilog2 (inject_Z n)) in *.
  assert (Hl : (l <= 52)%Z).
  { destruct (Z_lt_le_dec 52 l) as [H|H]; [|exact H]. exfalso.
    pose proof (pow2_le 53 l ltac:(lia)) as Hp.
    rewrite <- (pow2_inject 53) in Hp by lia.
    assert (Hc : inject_Z (2 ^ 53) <= inject_Z n) by lra.
    rewrite <- Zle_Qle in Hc. lia. }
  unfold RNpos. cbv zeta. fold l.
  set (e := (l - 52)%Z).
  assert (He : 2 ^ e * 2 ^ (- e) == 1).
  { rewrite <- pow2_add. replace (e + - e)%Z with 0%Z by lia. reflexivity. }
  pose proof (pow2_pos e) as Hpe.
  assert (Hs : inject_Z n / 2 ^ e == inject_Z (n * 2 ^ (- e))).
  { rewrite inject_Z_mult, pow2_inject by lia.
    unfold Qdiv. rewrite <- Qpower_opp. reflexivity. }
  rewrite (rne_integer _ _ Hs), inject_Z_mult, pow2_inject by lia.
  rewrite <- Qmult_assoc, (Qmult_comm (2 ^ (- e))), He. apply Qmult_1_r.
Qed.

Lemma RN_integer (n : Z) :
  (0 <= n < 2 ^ 53)%Z -> RN (inject_Z n) == inject_Z n.
Proof.
  intros Hn. destruct n as [|p|p]; [reflexivity | | lia].
  unfold RN. cbn [inject_Z Qnum]. apply (RNpos_integer (Zpos p)). lia.
Qed.

End RoundingFacts.

(** ** The age of a history entry *)
Section AgeFacts.

Import Binary64 Binary64Facts RoundingFacts.
Local Open Scope Q_scope.

(** The clock and the time value of the entry. *)
Variables now date : Z.

Local Abbreviation age := (now - date)%Z.
Local Abbreviation diffMs := (RN (inject_Z now - inject_Z date)).

Lemma difference_exact : inject_Z now - inject_Z date == inject_Z age.
Proof.
  unfold Zminus. rewrite inject_Z_plus, inject_Z_opp. reflexivity.
Qed.

(** The age in a unit of [u] milliseconds, as the component computes it:
    [Math.floor(diffMs / u)]. *)
Variables u K : Z.
Hypothesis unit_positive : (0 < u)%Z.
Hypothesis range_positive : (0 < K)%Z.
Hypothesis range_small : (K * u < 2 ^ 53)%Z.
Hypothesis stays_below :
  forall k, (0 <= k < K)%Z ->
    RN (inject_Z (u * k + u - 1) / inject_Z u) < inject_Z (k + 1).

Local Abbreviation units := (Math_floor (fdiv diffMs (inject_Z u))).

Lemma unit_Q : 0 < inject_Z u.
Proof. rewrite <- (Zlt_Qlt 0). exact unit_positive. Qed.

Lemma units_negative : (age < 0)%Z -> (units < 0)%Z.
Proof.
  intros H. pose proof unit_Q as Hu.
  assert (H1 : diffMs < 0).
  { apply RN_negative. rewrite difference_exact.
    rewrite <- (Zlt_Qlt _ 0). exact H. }
  assert (H2 : fdiv diffMs (inject_Z u) < 0).
  { unfold fdiv. apply RN_negative.
    apply Qlt_shift_div_r; [exact Hu|]. rewrite Qmult_0_l. exact H1. }
  unfold Math_floor.
  pose proof (Qfloor_le (fdiv diffMs (inject_Z u))) as Hf.
  rewrite Zlt_Qlt. eapply Qle_lt_trans; [exact Hf | exact H2].
Qed.

Lemma diffMs_small : (0 <= age < 2 ^ 53)%Z -> diffMs == inject_Z age.
Proof.
  intros H. rewrite <- (RN_integer age H).
  apply RN_nonneg_comp; [|apply difference_exact].
  rewrite difference_exact. rewrite <- (Zle_Qle 0). lia.
Qed.

Lemma diffMs_large (c : Z) :
  (0 <= c < 2 ^ 53)%Z -> (c <= age)%Z -> inject_Z c <= diffMs.
Proof.
  intros Hc H. rewrite <- (RN_integer c Hc).
  apply RN_nonneg_mono; [rewrite <- (Zle_Qle 0); lia|].
  rewrite difference_exact, <- Zle_Qle. exact H.
Qed.

Lemma units_large : (K * u <= age)%Z -> (K <= units)%Z.
Proof.
  intros H. pose proof unit_Q as Hu.
  assert (H1 : inject_Z (K * u) <= diffMs).
  { apply diffMs_large; [nia | exact H]. }
  assert (H2 : inject_Z K <= fdiv diffMs (inject_Z u)).
  { unfold fdiv. rewrite <- (RN_integer K) by nia.
    apply RN_nonneg_mono; [rewrite <- (Zle_Qle 0); lia|].
    apply Qle_shift_div_l; [exact Hu|].
    rewrite <- inject_Z_mult. exact H1. }
  unfold Math_floor. apply Qfloor_resp_le in H2.
  rewrite Qfloor_Z in H2. exact H2.
Qed.

Lemma units_exact : (0 <= age < K * u)%Z -> units = (age / u)%Z.
Proof.
  intros H. pose proof unit_Q as Hu.
  assert (Hk : (0 <= age / u < K)%Z).
  { split; [apply Z.div_pos; lia|].
    apply Z.div_lt_upper_bound; lia. }
  pose proof (Z.mul_div_le age u unit_positive) as Hlow.
  pose proof (Z.mod_pos_bound age u unit_positive) as Hmod.
  pose proof (Z.div_mod age u ltac:(lia)) as Hdm.
  assert (E : fdiv diffMs (inject_Z u) == RN (inject_Z age / inject_Z u)).
  { unfold fdiv.
    apply RN_nonneg_comp; [|rewrite diffMs_small by nia; reflexivity].
    apply Qle_shift_div_l; [exact Hu|].
    rewrite Qmult_0_l. apply RN_nonneg.
    rewrite difference_exact, <- (Zle_Qle 0). lia. }
  unfold Math_floor.
  assert (L : inject_Z (age / u) <= fdiv diffMs (inject_Z u)).
  { rewrite E, <- (RN_integer (age / u)) at 1 by nia.
    apply RN_nonneg_mono; [rewrite <- (Zle_Qle 0); lia|].
    apply Qle_shift_div_l; [exact Hu|].
    rewrite <- inject_Z_mult, <- Zle_Qle. lia. }
  assert (U : fdiv diffMs (inject_Z u) < inject_Z (age / u + 1)).
  { rewrite E.
    apply Qle_lt_trans
      with (RN (inject_Z (u * (age / u) + u - 1) / inject_Z u));
      [|apply stays_below; exact Hk].
    apply RN_nonneg_mono.
    - apply Qle_shift_div_l; [exact Hu|].
      rewrite Qmult_0_l, <- (Zle_Qle 0). lia.
    - unfold Qdiv. apply Qmult_le_compat_r.
      + rewrite <- Zle_Qle. lia.
      + apply Qinv_le_0_compat. apply Qlt_le_weak. exact Hu. }
  apply Qfloor_resp_le in L. rewrite Qfloor_Z in L.
  pose proof (Qfloor_le (fdiv diffMs (inject_Z u))) as F.
  assert (F' : inject_Z (Qfloor (fdiv diffMs (inject_Z u)))
               < inject_Z (age / u + 1)) by lra.
  rewrite <- Zlt_Qlt in F'. lia.
Qed.

End AgeFacts.

Section FormatDateFacts.

Import Binary64 Binary64Facts RoundingFacts.

(** The check, by computation, that the quotient just below each whole
    number of units is not rounded up to it. *)
Lemma stays_below_checked (u : Z) (n : nat) :
  forallb
    (fun k =>
       negb (Qle_bool (inject_Z (k + 1))
               (RN (inject_Z (u * k + u - 1) / inject_Z u))))
    (map Z.of_nat (seq 0 n)) = true ->
  forall k, (0 <= k < Z.of_nat n)%Z ->
    (RN (inject_Z (u * k + u - 1) / inject_Z u) < inject_Z (k + 1))%Q.
Proof.
  intros H k Hk. rewrite forallb_forall in H.
  specialize (H k). apply Qnot_le_lt. intros Hle.
  apply Qle_bool_iff in Hle. rewrite Hle in H. cbn [negb] in H.
  assert (Hin : In k (map Z.of_nat (seq 0 n))).
  { apply in_map_iff. exists (Z.to_nat k). split; [lia|].
    apply in_seq. lia. }
  specialize (H Hin). discriminate.
Qed.

Lemma minutes_below :
  forall k, (0 <= k < 60)%Z ->
    (RN (inject_Z (60000 * k + 60000 - 1) / inject_Z 60000)
     < inject_Z (k + 1))%Q.
Proof. apply (stays_below_checked 60000 60). vm_compute. reflexivity. Qed.

Lemma hours_below :
  forall k, (0 <= k < 24)%Z ->
    (RN (inject_Z (3600000 * k + 3600000 - 1) / inject_Z 3600000)
     < inject_Z (k + 1))%Q.
Proof. apply (stays_below_checked 3600000 24). vm_compute. reflexivity. Qed.

Lemma days_below :
  forall k, (0 <= k < 7)%Z ->
    (RN (inject_Z (86400000 * k + 86400000 - 1) / inject_Z 86400000)
     < inject_Z (k + 1))%Q.
Proof. apply (stays_below_checked 86400000 7). vm_compute. reflexivity. Qed.

Variable toLocaleDateString : Z -> string.

(** X10.  The label of a history entry tells its age exactly, although the
    age is divided in floating point: an entry less than a minute old, or
    dated in the future, is shown as [Just now]; up to an hour the whole
    minutes are shown, up to a day the whole hours, up to a week the whole
    days, each rounded down; from a week on the date is shown; and a
    timestamp outside the range of dates gives [Invalid Date]. *)
Theorem formatDate_shows_the_exact_age (now : Z) (timestamp : number) :
  match History.timeValue timestamp with
  | None =>
      History.formatDate toLocaleDateString now timestamp = "Invalid Date"
  | Some date =>
      let age := (now - date)%Z in
      History.formatDate toLocaleDateString now timestamp
      = if (age <? 60000)%Z then "Just now"
        else if (age <? 3600000)%Z
             then (History.show_Z (age / 60000) ++ "m ago")%string
        else if (age <? 86400000)%Z
             then (History.show_Z (age / 3600000) ++ "h ago")%string
        else if (age <? 604800000)%Z
             then (History.show_Z (age / 86400000) ++ "d ago")%string
        else toLocaleDateString date
  end.
Proof.
  unfold History.formatDate.
  destruct (History.timeValue timestamp) as [date|]; [|reflexivity].
  cbv zeta.
  set (mins := Math_floor (fdiv (RN (inject_Z now - inject_Z date))
                             (inject_Z 60000))).
  set (hours := Math_floor (fdiv (RN (inject_Z now - inject_Z date))
                              (inject_Z 3600000))).
  set (days := Math_floor (fdiv (RN (inject_Z now - inject_Z date))
                             (inject_Z 86400000))).
  assert (M := units_exact now date 60000 60 eq_refl eq_refl eq_refl minutes_below).
  assert (Mn := units_negative now date 60000 eq_refl).
  assert (Ml := units_large now date 60000 60 eq_refl eq_refl eq_refl).
  assert (H := units_exact now date 3600000 24 eq_refl eq_refl eq_refl hours_below).
  assert (Hl := units_large now date 3600000 24 eq_refl eq_refl eq_refl).
  assert (D := units_exact now date 86400000 7 eq_refl eq_refl eq_refl days_below).
  assert (Dl := units_large now date 86400000 7 eq_refl eq_refl eq_refl).
  fold mins in M, Mn, Ml. fold hours in H, Hl. fold days in D, Dl.
  destruct (Z.ltb_spec (now - date) 60000) as [A1|A1].
  - assert (Hm : (mins < 1)%Z).
    { destruct (Z_lt_le_dec (now - date) 0) as [Hn|Hn]; [lia|].
      rewrite M by lia. apply Z.div_lt_upper_bound; lia. }
    apply Z.ltb_lt in Hm. rewrite Hm. reflexivity.
  - destruct (Z.ltb_spec (now - date) 3600000) as [A2|A2].
    + rewrite M by lia.
      assert (B : (1 <= (now - date) / 60000 < 60)%Z).
      { split; [apply Z.div_le_lower_bound; lia
               | apply Z.div_lt_upper_bound; lia]. }
      destruct (Z.ltb_spec ((now - date) / 60000) 1); [lia|].
      destruct (Z.ltb_spec ((now - date) / 60000) 60); [|lia].
      reflexivity.
    + destruct (Z.ltb_spec mins 1); [lia|].
      destruct (Z.ltb_spec mins 60); [lia|].
      destruct (Z.ltb_spec (now - date) 86400000) as [A3|A3].
      * rewrite H by lia.
        assert (B : ((now - date) / 3600000 < 24)%Z)
          by (apply Z.div_lt_upper_bound; lia).
        destruct (Z.ltb_spec ((now - date) / 3600000) 24); [|lia].
        reflexivity.
      * destruct (Z.ltb_spec hours 24); [lia|].
        destruct (Z.ltb_spec (now - date) 604800000) as [A4|A4].
        -- rewrite D by lia.
           assert (B : ((now - date) / 86400000 < 7)%Z)
             by (apply Z.div_lt_upper_bound; lia).
           destruct (Z.ltb_spec ((now - date) / 86400000) 7); [|lia].
           reflexivity.
        -- destruct (Z.ltb_spec days 7); [lia|]. reflexivity.
Qed.

End FormatDateFacts.

(** An entry stamped 1 700 000 000 000 seen 2 minutes and 1 millisecond,
    5 hours, 6 days and 7 days later, and one second before. *)
Example ages_of_an_entry :
  map (fun now => History.formatDate (fun _ => "Nov 14, 2023") now
                    (Num false 17 13))
    [1700000120001; 1700018000000; 1700518400000 + 3599999;
     1700604800000; 1699999999000]%Z
  = ["2m ago"; "5h ago"; "6d ago"; "Nov 14, 2023"; "Just now"].
Proof. vm_compute. reflexivity. Qed.

(** ** The sorted history *)
Section SortFacts.

Import History HistoryTerms.

Variable sortOrder : SortOrder.

Local Abbreviation cmp := (compareFn sortOrder).
Local Abbreviation R := (inOrder sortOrder).

Lemma compareFn_opp (a b : HistoryItem) : (cmp a b == - cmp b a)%Q.
Proof. unfold compareFn. destruct sortOrder; lra. Qed.

Lemma inOrder_trans (a b c : HistoryItem) : R a b -> R b c -> R a c.
Proof. unfold inOrder, compareFn. destruct sortOrder; lra. Qed.

Lemma inOrder_total (a b : HistoryItem) :
  Qle_bool (cmp a b) 0 = false -> R b a.
Proof.
  intros H. unfold inOrder. rewrite (compareFn_opp b a).
  assert (Hn : ~ (cmp a b <= 0)%Q).
  { intros Hle. apply Qle_bool_iff in Hle. congruence. }
  apply Qnot_le_lt in Hn. lra.
Qed.

Lemma insert_perm (x : HistoryItem) (l : list HistoryItem) :
  Permutation (x :: l) (insert cmp x l).
Proof.
  induction l as [|y l IH]; cbn [insert]; [reflexivity|].
  destruct (Qle_bool (cmp x y) 0); [reflexivity|].
  rewrite perm_swap. constructor. exact IH.
Qed.

Lemma insert_sorted (x : HistoryItem) (l : list HistoryItem) :
  StronglySorted R l -> StronglySorted R (insert cmp x l).
Proof.
  induction l as [|y l IH]; cbn [insert]; intros Hs.
  - repeat constructor.
  - inversion Hs as [|? ? Hl Hy]; subst.
    destruct (Qle_bool (cmp x y) 0) eqn:C.
    + apply Qle_bool_iff in C. constructor; [exact Hs|].
      constructor; [exact C|].
      eapply Forall_impl; [|exact Hy]. intros z Hz.
      eapply inOrder_trans; [exact C | exact Hz].
    + constructor; [apply IH; exact Hl|].
      apply (Permutation_Forall (insert_perm x l)).
      constructor; [apply inOrder_total; exact C | exact Hy].
Qed.

Lemma insert_stable (t : Q) (x : HistoryItem) (l : list HistoryItem) :
  filter (stampedAt t) (insert cmp x l) = filter (stampedAt t) (x :: l).
Proof.
  induction l as [|y l IH]; cbn [insert]; [reflexivity|].
  destruct (Qle_bool (cmp x y) 0) eqn:C; [reflexivity|].
  cbn [filter] in *. rewrite IH.
  destruct (stampedAt t x) eqn:Px; [|reflexivity].
  destruct (stampedAt t y) eqn:Py; [|reflexivity].
  exfalso. unfold stampedAt in Px, Py.
  apply Qeq_bool_iff in Px, Py.
  assert (Hle : (cmp x y <= 0)%Q).
  { unfold compareFn. destruct sortOrder; lra. }
  apply Qle_bool_iff in Hle. congruence.
Qed.

Lemma sort_perm (l : list HistoryItem) : Permutation l (sort cmp l).
Proof.
  induction l as [|x l IH]; cbn [sort]; [reflexivity|].
  rewrite <- insert_perm. constructor. exact IH.
Qed.

Lemma sort_sorted (l : list HistoryItem) : StronglySorted R (sort cmp l).
Proof.
  induction l as [|x l IH]; cbn [sort]; [constructor|].
  apply insert_sorted. exact IH.
Qed.

(** X11.  The list shown by the history is made of the stored entries,
    each once, in the order of their timestamps: not decreasing when the
    order is ascending, not increasing when it is descending; entries with
    the same timestamp keep the order in which they are stored, in both
    directions. *)
Theorem sortedHistoryItems_orders_the_stored_entries
    (historyItems : list HistoryItem) :
  let shown := sortedHistoryItems historyItems sortOrder in
  Permutation historyItems shown
  /\ StronglySorted R shown
  /\ (forall t, filter (stampedAt t) shown
                = filter (stampedAt t) historyItems)
  /\ (forall i j a b,
        i < j -> nth_error shown i = Some a -> nth_error shown j = Some b ->
        match sortOrder with
        | ascending => (valueOf (timestamp a) <= valueOf (timestamp b))%Q
        | descending => (valueOf (timestamp b) <= valueOf (timestamp a))%Q
        end).
Proof.
  intros shown. subst shown. unfold sortedHistoryItems.
  pose proof (sort_perm historyItems) as HP.
  pose proof (sort_sorted historyItems) as HS.
  split; [exact HP|]. split; [exact HS|]. split.
  - intros t. clear HP HS.
    induction historyItems as [|x l IH]; cbn [sort]; [reflexivity|].
    rewrite insert_stable. cbn [filter]. rewrite IH. reflexivity.
  - intros i j a b Hij Ha Hb.
    assert (Hab : R a b).
    { clear HP. revert i j Hij Ha Hb.
      induction HS as [|x l Hl IH Hx]; intros i j Hij Ha Hb.
      - destruct i; discriminate.
      - destruct j as [|j]; [lia|]. cbn [nth_error] in Hb.
        destruct i as [|i]; cbn [nth_error] in Ha.
        + inversion Ha; subst x. rewrite Forall_forall in Hx.
          apply Hx. eapply nth_error_In. exact Hb.
        + apply (IH i j); [lia | exact Ha | exact Hb]. }
    unfold inOrder, compareFn in Hab. destruct sortOrder; lra.
Qed.

End SortFacts.

(** ** More on one iteration of the batch loop *)
Section IterationMore.

Import RunTerms.

Variable apiKey : string.
Variable service : Service.
Variable props : BatchGeminiAnalysisProps.

Ltac norm' :=
  cbv beta iota zeta delta
    [Batch.processVideo Batch.tryVideo Batch.fetchJson Batch.autoSave
     Batch.bind Batch.emit Batch.throw Batch.ret Batch.continue
     Batch.pushFailure Batch.pushAnalysis Batch.getAnalyzedResults
     Batch.catchVideo Batch.emitS Batch.pushFailureS
     trace allAnalyses analyzedResults failures fst snd
     completes softFailure isOk truthy negb andb orb
     failureReason stageError].

Ltac cases' :=
  repeat
    (norm';
     match goal with
     | |- context [vibe_extraction_endpoint ?s ?k ?a ?f] =>
         destruct (vibe_extraction_endpoint s k a f) eqn:?
     | |- context [failed ?d] => destruct (failed d) eqn:?
     | |- context [vibe_extraction ?d] =>
         destruct (vibe_extraction d) as [[|? ?]|] eqn:?
     | |- context [scenes ?j] => destruct (scenes j) eqn:?
     | |- context [image_prompts_endpoint ?s ?k ?a ?f] =>
         destruct (image_prompts_endpoint s k a f) eqn:?
     | |- context [video_prompt_endpoint ?s ?k ?a ?f] =>
         destruct (video_prompt_endpoint s k a f) eqn:?
     | |- context [if ?b then _ else _] => destruct b eqn:?
     | |- context [onAutoSaveCSV ?p ?a ?b] =>
         destruct (onAutoSaveCSV p a b) eqn:?
     end);
  norm'.

(** A video that does not pass the three stages is recorded with the
    reason of the first stage that did not succeed. *)
Lemma processVideo_failureReason (v : VideoResult) (k N : nat)
    (st : BatchState) (r : string) :
  failureReason apiKey service v k = Some r ->
  let st' := Batch.processVideo apiKey service props v k N st in
  failures st'
  = failures st ++ [{| fv_videoName := videoName v; reason := r |}]
  /\ allAnalyses st' = allAnalyses st
  /\ analyzedResults st' = analyzedResults st.
Proof.
  cases'; intros H; inversion H; subst; auto.
Qed.

Lemma failureReason_completes (v : VideoResult) (k : nat) :
  failureReason apiKey service v k = None
  <-> completes apiKey service v k = true.
Proof.
  cases'; split; intros H; try discriminate; reflexivity.
Qed.

(** The requests of one iteration are made for its own video, each in its
    place. *)
Lemma processVideo_requests (v : VideoResult) (k N : nat) (st : BatchState) :
  exists new,
    fetches (trace (Batch.processVideo apiKey service props v k N st))
    = fetches (trace st) ++ new
    /\ Forall (fun c => fst c = k /\ inPlace apiKey service v k (snd c)) new.
Proof.
  unfold inPlace.
  cases'; rewrite ?fetches_app; cbn [fetches flat_map app];
    rewrite <- ?app_assoc; cbn [app];
    (eexists; split; [reflexivity|]);
    repeat constructor; cbn [fst snd];
    repeat first
      [ reflexivity | eassumption | split | eexists
      | match goal with
        | H : failed ?d = _ |- context [failed ?d] => rewrite H
        | H : vibe_extraction ?d = _ |- context [vibe_extraction ?d] =>
            rewrite H
        end ].
Qed.

(** An iteration either leaves the two success accumulators as they are
    or adds to each the entry of its video, the second being the video
    with the enrichment of the first. *)
Lemma processVideo_pairs (v : VideoResult) (k N : nat) (st : BatchState) :
  let st' := Batch.processVideo apiKey service props v k N st in
  (allAnalyses st' = allAnalyses st
   /\ analyzedResults st' = analyzedResults st)
  \/ exists a r,
       allAnalyses st' = allAnalyses st ++ [a]
       /\ analyzedResults st' = analyzedResults st ++ [r]
       /\ enrichmentOf a v r.
Proof.
  cases'; try (left; split; reflexivity);
    right; eexists; eexists;
    (split; [reflexivity|]); (split; [reflexivity|]);
    unfold enrichmentOf, sameButEnrichment, enrichedBy;
    cbn; repeat split; discriminate.
Qed.


End IterationMore.

(** ** More on the loop and on the run *)
Section RunMore.

Import RunTerms.

Variable apiKey : string.
Variable service : Service.
Variable props : BatchGeminiAnalysisProps.

Local Abbreviation vs := (Batch.videosWithScenes props).
Local Abbreviation afterLoop :=
  (Batch.loop apiKey service props vs 0 (List.length vs) Batch.started).
Local Abbreviation final := (Batch.handleBatchAnalyze apiKey service props).

Lemma payloadsSoFar_grow (st st' : BatchState) (x : list VideoResult) :
  analyzedResults st' = analyzedResults st ++ x ->
  Forall (fun c => fst c <> []
                   /\ exists more, analyzedResults st = fst c ++ more)
    (exportCalls (trace st)) ->
  Forall (fun c => fst c <> []
                   /\ exists more, analyzedResults st' = fst c ++ more)
    (exportCalls (trace st)).
Proof.
  intros E H. eapply Forall_impl; [|exact H].
  intros c (Hne & more & Hm). split; [exact Hne|].
  exists (more ++ x). rewrite E, Hm, app_assoc. reflexivity.
Qed.

Lemma processVideo_payloads (v : VideoResult) (k N : nat) (st : BatchState) :
  payloadsSoFar st ->
  payloadsSoFar (Batch.processVideo apiKey service props v k N st).
Proof.
  intros H. unfold payloadsSoFar.
  rewrite processVideo_exportCalls. apply Forall_app. split.
  - destruct (processVideo_extends apiKey service props v k N st)
      as (_ & [x E] & _).
    apply (payloadsSoFar_grow st _ x E H).
  - destruct (completes apiKey service v k) eqn:C; [|constructor].
    destruct (checkpointDue k N); [|constructor].
    constructor; [|constructor]. cbn [fst]. split.
    + apply processVideo_completes_nonempty. exact C.
    + exists []. rewrite app_nil_r. reflexivity.
Qed.

Lemma loop_payloads (l : list VideoResult) (i N : nat) (st : BatchState) :
  payloadsSoFar st ->
  payloadsSoFar (Batch.loop apiKey service props l i N st).
Proof.
  revert i st. induction l as [|v l IH]; intros i st H; cbn [Batch.loop].
  - exact H.
  - apply IH. apply processVideo_payloads. exact H.
Qed.

Lemma catchBatch_fetches (msg : string) (st : BatchState) :
  fetches (trace (Batch.catchBatch props msg st)) = fetches (trace st).
Proof.
  unfold Batch.catchBatch, Batch.emitS. fields.
  destruct (analyzedResults st); fields.
  - rewrite !fetches_app. cbn [fetches flat_map]. rewrite !app_nil_r.
    reflexivity.
  - case_export; fields; rewrite !fetches_app; cbn [fetches flat_map];
      rewrite !app_nil_r; reflexivity.
Qed.

Lemma finish_fetches (st : BatchState) :
  fetches (trace (Batch.finish props st)) = fetches (trace st).
Proof.
  unfold Batch.finish. cbv zeta.
  case_complete; rewrite ?catchBatch_fetches; unfold Batch.emitS; fields;
    rewrite !fetches_app; cbn [fetches flat_map];
    rewrite !app_nil_r; reflexivity.
Qed.

(** The requests of the loop, each for the video of its position. *)
Lemma loop_requests (l : list VideoResult) (i N : nat) (st : BatchState) :
  exists new,
    fetches (trace (Batch.loop apiKey service props l i N st))
    = fetches (trace st) ++ new
    /\ Forall (fun c => exists v,
                 i < fst c /\ nth_error l (fst c - i - 1) = Some v
                 /\ inPlace apiKey service v (fst c) (snd c)) new.
Proof.
  revert i st. induction l as [|v l IH]; intros i st; cbn [Batch.loop].
  - exists []. rewrite app_nil_r. split; [reflexivity | constructor].
  - destruct (processVideo_requests apiKey service props v (i + 1) N st)
      as (new1 & E1 & F1).
    destruct (IH (S i) (Batch.processVideo apiKey service props v (i + 1) N st))
      as (new2 & E2 & F2).
    exists (new1 ++ new2). split.
    + rewrite E2, E1, app_assoc. reflexivity.
    + apply Forall_app. split.
      * eapply Forall_impl; [|exact F1]. intros c (Hk & Hp).
        exists v. rewrite Hk. split; [lia|]. split; [|exact Hp].
        replace (i + 1 - i - 1) with 0 by lia. reflexivity.
      * eapply Forall_impl; [|exact F2]. intros c (w & Hlt & Hn & Hp).
        exists w. split; [lia|]. split; [|exact Hp].
        replace (fst c - i - 1) with (S (fst c - S i - 1)) by lia.
        exact Hn.
Qed.

(** The two success accumulators go together. *)
Lemma loop_pairs (all l : list VideoResult) (i N : nat) (st : BatchState) :
  incl l all ->
  Forall2 (fun a r => exists v, In v all /\ enrichmentOf a v r)
    (allAnalyses st) (analyzedResults st) ->
  Forall2 (fun a r => exists v, In v all /\ enrichmentOf a v r)
    (allAnalyses (Batch.loop apiKey service props l i N st))
    (analyzedResults (Batch.loop apiKey service props l i N st)).
Proof.
  revert i st. induction l as [|v l IH]; intros i st Hin H; cbn [Batch.loop].
  - exact H.
  - apply IH; [intros x Hx; apply Hin; right; exact Hx|].
    destruct (processVideo_pairs apiKey service props v (i + 1) N st)
      as [(E1 & E2) | (a & r & E1 & E2 & He)]; rewrite E1, E2.
    + exact H.
    + apply Forall2_app; [exact H|]. constructor; [|constructor].
      exists v. split; [apply Hin; left; reflexivity | exact He].
Qed.

End RunMore.

(** ** Further properties of the batch run *)
Section RunInvariants.

Import RunTerms.

Variable apiKey : string.
Variable service : Service.
Variable props : BatchGeminiAnalysisProps.

Local Abbreviation vs := (Batch.videosWithScenes props).
Local Abbreviation afterLoop :=
  (Batch.loop apiKey service props vs 0 (List.length vs) Batch.started).
Local Abbreviation final := (Batch.handleBatchAnalyze apiKey service props).

(** X12.  A video that does not pass the three stages is recorded with the
    reason of the first stage that did not succeed: the reason given with a
    soft failure, the message of a rejected exchange or of an unreadable
    body, or, for an answer outside 2xx, the words of the stage, the name
    of the video and the error of the answer.  A video fails in this way
    exactly when it does not complete, and the videos after it are still
    sent to the vibe stage. *)
Theorem failed_video_is_recorded_with_the_reason_of_its_stage
    (k : nat) (v : VideoResult) (r : string) :
  blank apiKey = false ->
  nth_error vs k = Some v ->
  failureReason apiKey service v (k + 1) = Some r ->
  In {| fv_videoName := videoName v; reason := r |} (failures final)
  /\ completes apiKey service v (k + 1) = false
  /\ forall j w,
       k < j -> nth_error vs j = Some w ->
       In (j + 1, VibeExtraction apiKey (file w)) (fetches (trace final)).
Proof.
  intros Hk Hv Hr.
  assert (Hne : vs <> []).
  { intros E. rewrite E in Hv. destruct k; discriminate. }
  pose proof (run_extends apiKey service props Hk Hne) as Hext.
  split; [|split].
  - destruct (loop_at apiKey service props k v Hv) as (before & _ & Hafter).
    apply (in_extends_failures _ _ _ Hext).
    apply (in_extends_failures _ _ _ Hafter).
    destruct (processVideo_failureReason apiKey service props v (k + 1)
                (List.length vs) before r Hr) as (E & _).
    rewrite E. apply in_or_app. right. left. reflexivity.
  - destruct (completes apiKey service v (k + 1)) eqn:C; [|reflexivity].
    apply failureReason_completes in C. congruence.
  - intros j w _ Hw. apply (in_extends_fetches _ _ _ Hext).
    apply (loop_fetches_vibe apiKey service props _ 0 _ _ j w Hw).
Qed.


Lemma started_payloads : payloadsSoFar Batch.started.
Proof. constructor. Qed.

(** X14.  Every export of a run, checkpoint or emergency export, carries
    the results analysed up to that moment and nothing else: what is
    exported is never empty and is an initial part of the list of analysed
    results with which the run ends. *)
Theorem every_export_carries_the_results_so_far :
  Forall (fun c => fst c <> []
                   /\ exists more, analyzedResults final = fst c ++ more)
    (exportCalls (trace final)).
Proof.
  unfold Batch.handleBatchAnalyze.
  destruct (blank apiKey); [constructor|].
  destruct vs as [|v0 l] eqn:Evs; [constructor|]. rewrite <- Evs.
  unfold Batch.emitS. fields.
  rewrite exportCalls_app. cbn [exportCalls flat_map]. rewrite app_nil_r.
  destruct (finish_accumulators props afterLoop) as (_ & E2 & _).
  rewrite E2, finish_exportCalls.
  pose proof (loop_payloads apiKey service props vs 0 (List.length vs)
                Batch.started started_payloads) as H.
  apply Forall_app. split; [exact H|].
  destruct (onAnalysisComplete props (allAnalyses afterLoop)); [constructor|].
  destruct (analyzedResults afterLoop) as [|r rs] eqn:Ea; [constructor|].
  constructor; [|constructor]. cbn [fst]. split; [discriminate|].
  exists []. rewrite app_nil_r. reflexivity.
Qed.

(** X15.  Every request of a run is made for an eligible video, at the
    position of that video, with the key of the run; the image prompts of a
    video are requested only for its own scenes and only after a usable
    answer of its vibe stage, and its video prompt only for the prompts
    that its image-prompts stage has answered. *)
Theorem every_request_is_in_its_place :
  Forall (fun c => exists v,
            1 <= fst c /\ nth_error vs (fst c - 1) = Some v
            /\ hasScenes v = true
            /\ inPlace apiKey service v (fst c) (snd c))
    (fetches (trace final)).
Proof.
  unfold Batch.handleBatchAnalyze.
  destruct (blank apiKey); [constructor|].
  destruct vs as [|v0 l] eqn:Evs; [constructor|]. rewrite <- Evs.
  unfold Batch.emitS at 1. fields.
  rewrite fetches_app. cbn [fetches flat_map]. rewrite app_nil_r.
  rewrite finish_fetches.
  destruct (loop_requests apiKey service props vs 0 (List.length vs)
              Batch.started) as (new & E & F).
  rewrite E. cbn [Batch.started trace fetches flat_map app].
  eapply Forall_impl; [|exact F].
  intros c (v & Hlt & Hn & Hp). exists v.
  rewrite Nat.sub_0_r in Hn.
  split; [lia|]. split; [exact Hn|]. split; [|exact Hp].
  apply nth_error_In in Hn. unfold Batch.videosWithScenes in Hn.
  apply filter_In in Hn. apply Hn.
Qed.

(** The two success accumulators of a run go together. *)
Lemma run_pairs :
  Forall2 (fun a r => exists v,
             In v (results props) /\ hasScenes v = true
             /\ enrichmentOf a v r)
    (allAnalyses final) (analyzedResults final).
Proof.
  unfold Batch.handleBatchAnalyze.
  destruct (blank apiKey); [constructor|].
  destruct vs as [|v0 l] eqn:Evs; [constructor|]. rewrite <- Evs.
  unfold Batch.emitS at 1 2. fields.
  destruct (finish_accumulators props afterLoop) as (E1 & E2 & _).
  rewrite E1, E2.
  pose proof (loop_pairs apiKey service props vs vs 0 (List.length vs)
                Batch.started (incl_refl _) (Forall2_nil _)) as H.
  eapply Forall2_impl; [|exact H].
  intros a r (v & Hin & He). exists v.
  unfold Batch.videosWithScenes in Hin. apply filter_In in Hin.
  destruct Hin. auto.
Qed.

(** X16.  The two success accumulators go together: the result at each
    place is an eligible video of the input with the three enrichment
    fields replaced by those of the analysis at the same place, which
    bears the identifier of that video and a vibe that is not empty;
    identifier, name, file and every other field of the record are those
    of the input. *)
Theorem analysed_results_are_inputs_with_their_enrichment :
  Forall2 (fun a r => exists v,
             In v (results props) /\ hasScenes v = true
             /\ enrichmentOf a v r)
    (allAnalyses final) (analyzedResults final).
Proof. exact run_pairs. Qed.

End RunInvariants.

Lemma failure_reason_witness :
  let service := Samples.unavailableAt (fun k => Nat.eqb k 2) in
  let props := appProps Samples.isoNow Samples.threeVideos in
  let final := Batch.handleBatchAnalyze "key" service props in
  RunTerms.failureReason "key" service (Samples.video "b" 3 10) 2
  = Some "Failed to generate image prompts for b: Service Unavailable"
  /\ In {| fv_videoName := "b";
           reason := "Failed to generate image prompts for b: Service Unavailable" |}
        (failures final)
  /\ In (3, VibeExtraction "key" (file (Samples.video "c" 1 10)))
        (fetches (trace final)).
Proof.
  pose proof (failed_video_is_recorded_with_the_reason_of_its_stage "key"
                (Samples.unavailableAt (fun k => Nat.eqb k 2))
                (appProps Samples.isoNow Samples.threeVideos)
                1 (Samples.video "b" 3 10)
                "Failed to generate image prompts for b: Service Unavailable"
                eq_refl eq_refl eq_refl) as (H1 & _ & H3).
  split; [reflexivity|]. split; [exact H1|].
  apply (H3 2 (Samples.video "c" 1 10)); [lia | reflexivity].
Defined.


(** ** The key of the service *)
Section KeyFacts.

Variable service : Service.
Variable props : BatchGeminiAnalysisProps.

(** X17.  Without a key nothing is requested.  With the empty key the
    effect that starts the run does nothing at all, so that no error is
    shown either; with a key made of white space only, the run sets the
    error that names the missing key and returns before it touches its
    state: no request, no export, no completion call, and the analysing
    flag is never raised. *)
Theorem missing_key_requests_nothing
    (apiKey : string) (isComplete isAnalyzing : bool) (error : option string) :
  blank apiKey = true ->
  let run := Batch.handleBatchAnalyze apiKey service props in
  let started := BatchMount.autoStart apiKey service props
                   isComplete isAnalyzing error in
  trace run
  = [SetError (Some
       "API key not found. Please add VITE_GEMINI_API_KEY to your .env.local file")]
  /\ allAnalyses run = [] /\ analyzedResults run = [] /\ failures run = []
  /\ fetches (trace started) = []
  /\ exportCalls (trace started) = []
  /\ (forall analyses, ~ In (AnalysisComplete analyses) (trace run))
  /\ ~ In (SetIsAnalyzing true) (trace started)
  /\ (apiKey = "" -> trace started = []).
Proof.
  intros Hb run started.
  assert (Hrun : run = Batch.emitS (SetError (Some
       "API key not found. Please add VITE_GEMINI_API_KEY to your .env.local file"))
       initialState).
  { unfold run, Batch.handleBatchAnalyze. rewrite Hb. reflexivity. }
  assert (Hst : started = initialState
                \/ started = run
                \/ trace started = [SetIsComplete true; AnalysisComplete []]).
  { unfold started, BatchMount.autoStart.
    match goal with |- context [if ?b then _ else _] => destruct b end;
      [|left; reflexivity].
    destruct (Batch.videosWithScenes props); [right; right | right; left];
      reflexivity. }
  rewrite Hrun. repeat split; try reflexivity.
  - destruct Hst as [E | [E | E]]; rewrite ?E, ?Hrun; reflexivity.
  - destruct Hst as [E | [E | E]]; rewrite ?E, ?Hrun; reflexivity.
  - intros analyses [H | []]. discriminate.
  - destruct Hst as [E | [E | E]]; rewrite ?E, ?Hrun; cbn;
      intuition discriminate.
  - intros ->. unfold started, BatchMount.autoStart. reflexivity.
Qed.

End KeyFacts.

Lemma missing_key_witness :
  blank "  " = true
  /\ trace (Batch.handleBatchAnalyze "  " Samples.allGood
              (appProps Samples.isoNow Samples.threeVideos))
     = [SetError (Some
         "API key not found. Please add VITE_GEMINI_API_KEY to your .env.local file")]
  /\ trace (BatchMount.autoStart "" Samples.allGood
              (appProps Samples.isoNow Samples.threeVideos) false false None)
     = [].
Proof.
  split; [reflexivity|].
  destruct (missing_key_requests_nothing Samples.allGood
              (appProps Samples.isoNow Samples.threeVideos)
              "  " false false None eq_refl) as (H1 & _).
  split; [exact H1 | reflexivity].
Defined.

(** ** Numbers in the export text *)
Module BareNumberFacts.

Import Json JsNumber TextTerms ScanFacts SeparatorFacts PieceFacts NumberFacts.
Local Open Scope string_scope.








Ltac peel :=
  repeat first
    [ rewrite unquoteNumerals_empty
    | rewrite unquoteNumerals_key
    | rewrite unquoteNumerals_key_space
    | rewrite unquoteNumerals_piece by reflexivity ].


End BareNumberFacts.

(** ** The merge, applied again and applied to the analyses of a run *)
Section MergeMore.

Import RunTerms.

Lemma withEnrichment_twice j v p w v' p' w' :
  withEnrichment (withEnrichment j v p w) v' p' w' = withEnrichment j v' p' w'.
Proof. reflexivity. Qed.

Lemma mergeResults_names (analyses : list Analysis) (rs : list VideoResult) :
  map id (Merge.mergeResults analyses rs) = map id rs
  /\ map videoName (Merge.mergeResults analyses rs) = map videoName rs.
Proof.
  unfold Merge.mergeResults. rewrite !map_map. split; apply map_ext;
    intros r; destruct (Merge.findAnalysis analyses (id r)); reflexivity.
Qed.

Lemma find_mergeResults (analyses : list Analysis) (rs : list VideoResult)
    (nm : string) :
  option_map id
    (find (fun r => String.eqb (videoName r) nm)
       (Merge.mergeResults analyses rs))
  = option_map id (find (fun r => String.eqb (videoName r) nm) rs).
Proof.
  unfold Merge.mergeResults.
  induction rs as [|r rs IH]; cbn [map find]; [reflexivity|].
  destruct (Merge.findAnalysis analyses (id r)); cbn [videoName];
    destruct (String.eqb (videoName r) nm); cbn [option_map id];
    auto.
Qed.

(** X19.  The merge can be applied again without harm: merging the same
    analyses a second time changes nothing, in the result set and in the
    history alike.  Of two analyses with the same identifier only the first
    one is merged. *)
Theorem merge_is_idempotent_and_first_analysis_wins
    (analyses : list Analysis) (st : Merge.AppState) :
  Merge.handleBatchAnalysisComplete analyses
    (Merge.handleBatchAnalysisComplete analyses st)
  = Merge.handleBatchAnalysisComplete analyses st
  /\ forall l1 a l2 a' l3,
       analyses = l1 ++ a :: l2 ++ a' :: l3 ->
       resultId a' = resultId a ->
       Merge.handleBatchAnalysisComplete analyses st
       = Merge.handleBatchAnalysisComplete (l1 ++ a :: l2 ++ l3) st.
Proof.
  split.
  - unfold Merge.handleBatchAnalysisComplete.
    cbn [Merge.app_results Merge.app_history]. f_equal.
    + unfold Merge.mergeResults. rewrite map_map. apply map_ext.
      intros r. destruct (Merge.findAnalysis analyses (id r)) as [a|] eqn:E;
        cbn [id]; rewrite E; reflexivity.
    + unfold Merge.mergeHistory. rewrite map_map. apply map_ext.
      intros h.
      pose proof (find_mergeResults analyses (Merge.app_results st)
                    (h_videoName h)) as F.
      destruct (find (fun r => String.eqb (videoName r) (h_videoName h))
                  (Merge.app_results st)) as [r|] eqn:E1.
      * destruct (Merge.findAnalysis analyses (id r)) as [a|] eqn:Ea;
          cbn [h_videoName h_id timestamp h_jsonData];
          destruct (find (fun r => String.eqb (videoName r) (h_videoName h))
                      (Merge.mergeResults analyses (Merge.app_results st)))
            as [r'|]; cbn [option_map] in F; try discriminate;
          inversion F as [Hid]; rewrite Hid, Ea; reflexivity.
      * destruct (find (fun r => String.eqb (videoName r) (h_videoName h))
                    (Merge.mergeResults analyses (Merge.app_results st)))
          as [r'|]; cbn [option_map] in F; [discriminate | reflexivity].
  - intros l1 a l2 a' l3 -> Hid.
    assert (Hf : forall rid,
               Merge.findAnalysis (l1 ++ a :: l2 ++ a' :: l3) rid
               = Merge.findAnalysis (l1 ++ a :: l2 ++ l3) rid).
    { intros rid. unfold Merge.findAnalysis.
      induction l1 as [|x l1 IH]; cbn [app find].
      - destruct (String.eqb (resultId a) rid) eqn:Ea; [reflexivity|].
        induction l2 as [|y l2 IH2]; cbn [app find].
        + rewrite Hid, Ea. reflexivity.
        + destruct (String.eqb (resultId y) rid); [reflexivity | exact IH2].
      - destruct (String.eqb (resultId x) rid); [reflexivity | exact IH]. }
    unfold Merge.handleBatchAnalysisComplete, Merge.mergeResults,
      Merge.mergeHistory.
    f_equal; apply map_ext; intros x; rewrite ?Hf; [reflexivity|].
    destruct (find _ (Merge.app_results st)); [rewrite Hf|]; reflexivity.
Qed.

(** *** The analyses of a run, merged *)

Variable apiKey : string.
Variable service : Service.
Variable props : BatchGeminiAnalysisProps.

Local Abbreviation final := (Batch.handleBatchAnalyze apiKey service props).

(** Analyses and results that go together are found together. *)
Lemma find_together (all : list VideoResult)
    (analyses : list Analysis) (rs : list VideoResult) (x : string) :
  Forall2 (fun a r => exists v, In v all /\ enrichmentOf a v r) analyses rs ->
  match Merge.findAnalysis analyses x,
        find (fun r => String.eqb (id r) x) rs with
  | Some a, Some r => exists v, In v all /\ enrichmentOf a v r /\ id v = x
  | None, None => True
  | _, _ => False
  end.
Proof.
  unfold Merge.findAnalysis.
  induction 1 as [|a r analyses rs (v & Hin & He) _ IH]; cbn [find];
    [exact I|].
  pose proof He as (H1 & H2 & _). rewrite H1, H2.
  destruct (String.eqb_spec (id v) x) as [E|E]; [|exact IH].
  exists v. split; [exact Hin|]. split; [exact He | exact E].
Qed.

(** X20.  Merging the analyses of a run into the result set it was started
    with, whose identifiers are all different, puts each analysed result in
    the place of its video: the merged result set is the input with every
    analysed video replaced by the very record that the run has
    accumulated for export, and every other video left as it is. *)
Theorem merge_puts_each_analysed_result_in_its_place :
  NoDup (map id (results props)) ->
  Merge.mergeResults (allAnalyses final) (results props)
  = map (fun v =>
           match find (fun r => String.eqb (id r) (id v))
                   (analyzedResults final) with
           | Some r => r
           | None => v
           end)
      (results props).
Proof.
  intros Hnd. unfold Merge.mergeResults. apply map_ext_in. intros w Hw.
  pose proof (run_pairs apiKey service props) as H2.
  assert (H2' : Forall2 (fun a r => exists v,
                           In v (results props) /\ enrichmentOf a v r)
                  (allAnalyses final) (analyzedResults final)).
  { eapply Forall2_impl; [|exact H2]. intros a r (v & Hin & _ & He).
    exists v. auto. }
  pose proof (find_together (results props) _ _ (id w) H2') as F.
  destruct (Merge.findAnalysis (allAnalyses final) (id w)) as [a|];
    destruct (find (fun r => String.eqb (id r) (id w))
                (analyzedResults final)) as [r|];
    try contradiction; [|reflexivity].
  destruct F as (v & Hin & He & Hid).
  assert (Hv : v = w).
  { clear - Hnd Hin Hw Hid. induction (results props) as [|x l IH];
      [contradiction|].
    cbn [map] in Hnd. inversion Hnd as [|? ? Hx Hl]; subst.
    destruct Hin as [->|Hin], Hw as [->|Hw]; auto.
    - exfalso. apply Hx. rewrite Hid. apply in_map. exact Hw.
    - exfalso. apply Hx. rewrite <- Hid. apply in_map. exact Hin. }
  subst v. destruct He as (_ & E2 & E3 & E4 & Hs & He & _).
  destruct r as [rid rname rjson rfile]. cbn [id videoName file jsonData] in *.
  subst rid rname rfile. f_equal.
  destruct Hs as (S1 & S2 & S3 & S4 & S5 & S6 & S7 & S8).
  destruct He as (V1 & V2 & V3).
  destruct rjson, (jsonData w). cbn in *. subst.
  unfold withEnrichment. cbn. reflexivity.
Qed.

End MergeMore.


Lemma merge_in_place_witness :
  let props := appProps Samples.isoNow Samples.threeVideos in
  let final := Batch.handleBatchAnalyze "key" Samples.allGood props in
  Merge.mergeResults (allAnalyses final) (results props)
  = map (fun v =>
           match find (fun r => String.eqb (id r) (id v))
                   (analyzedResults final) with
           | Some r => r
           | None => v
           end)
      (results props).
Proof.
  apply (merge_puts_each_analysed_result_in_its_place "key" Samples.allGood
           (appProps Samples.isoNow Samples.threeVideos)).
  cbn. repeat constructor; cbn; intuition discriminate.
Defined.

(** ** The analysis of a single video *)
Section SingleAnalysis.

Variable apiKey : string.
Variable scenes : list SceneData.
Variable videoFile : File.
Variable service : Service.
Variable onAnalysisComplete : GeminiAnalysis.Callback.

Local Abbreviation tr :=
  (GeminiAnalysis.handleAnalyze apiKey scenes videoFile service
     onAnalysisComplete).

Local Abbreviation vibeAnswer :=
  (GeminiAnalysis.fetchJson
     (vibe_extraction_endpoint service 1 apiKey videoFile)
     "Failed to extract vibe").

Local Abbreviation imageAnswer :=
  (GeminiAnalysis.fetchJson (image_prompts_endpoint service 1 apiKey scenes)
     "Failed to generate image prompts").

Local Abbreviation videoAnswer ip :=
  (GeminiAnalysis.fetchJson
     (video_prompt_endpoint service 1 apiKey (r_image_prompts ip))
     "Failed to generate video prompt").

(** X21.  The analysis of a single video, started with a key that is not
    blank, asks the three stages in order and stops asking at the first
    one that fails: then no result is published and the message of that
    failure is the one error shown.  When the three stages answer, the
    result is published from the three bodies as they are, also when the
    first body says that it failed or carries no text; the error stays
    clear unless the callback of the parent throws.  In every case the
    run ends by clearing the busy flag and the step text. *)
Theorem single_analysis_publishes_all_or_nothing :
  blank apiKey = false ->
  (forall err, vibeAnswer = inr err ->
     GeminiAnalysis.requests tr = [VibeExtraction apiKey videoFile]
     /\ GeminiAnalysis.resultsSet tr = [None]
     /\ GeminiAnalysis.errorsSet tr
        = [None; Some (GeminiAnalysis.messageOf err)])
  /\ (forall d err, vibeAnswer = inl d -> imageAnswer = inr err ->
     GeminiAnalysis.requests tr
     = [VibeExtraction apiKey videoFile; ImagePrompts apiKey scenes]
     /\ GeminiAnalysis.resultsSet tr = [None]
     /\ GeminiAnalysis.errorsSet tr
        = [None; Some (GeminiAnalysis.messageOf err)])
  /\ (forall d ip err,
     vibeAnswer = inl d -> imageAnswer = inl ip -> videoAnswer ip = inr err ->
     GeminiAnalysis.requests tr
     = [VibeExtraction apiKey videoFile; ImagePrompts apiKey scenes;
        VideoPrompt apiKey (r_image_prompts ip)]
     /\ GeminiAnalysis.resultsSet tr = [None]
     /\ GeminiAnalysis.errorsSet tr
        = [None; Some (GeminiAnalysis.messageOf err)])
  /\ (forall d ip vp,
     vibeAnswer = inl d -> imageAnswer = inl ip -> videoAnswer ip = inl vp ->
     GeminiAnalysis.requests tr
     = [VibeExtraction apiKey videoFile; ImagePrompts apiKey scenes;
        VideoPrompt apiKey (r_image_prompts ip)]
     /\ GeminiAnalysis.resultsSet tr
        = [None;
           Some {| GeminiAnalysis.vibeExtraction := vibe_extraction d;
                   GeminiAnalysis.ar_imagePrompts := r_image_prompts ip;
                   GeminiAnalysis.ar_videoPrompt := r_video_prompt vp |}]
     /\ ((forall callback r,
            onAnalysisComplete = Some callback -> callback r = None) ->
         GeminiAnalysis.errorsSet tr = [None]))
  /\ exists before,
       tr = before ++ [GeminiAnalysis.SetIsAnalyzing false;
                       GeminiAnalysis.SetCurrentStep GeminiAnalysis.NoStep].
Proof.
  intros Hkey.
  unfold GeminiAnalysis.handleAnalyze, GeminiAnalysis.tryAnalyze.
  rewrite Hkey. cbv zeta.
  split; [|split; [|split; [|split]]].
  - intros err ->. cbn. auto.
  - intros d err -> ->. cbn. auto.
  - intros d ip err -> -> ->. cbn. auto.
  - intros d ip vp -> -> ->.
    destruct onAnalysisComplete as [callback|] eqn:Hcb.
    + destruct (callback _) as [e|] eqn:Hc; cbn;
        (split; [reflexivity|split; [reflexivity|]]).
      * intros H. rewrite (H callback _ eq_refl) in Hc. discriminate.
      * reflexivity.
    + cbn. auto.
  - match goal with
    | |- exists b, ?h ++ ?t ++ ?e = _ => exists (h ++ t); rewrite app_assoc; reflexivity
    end.
Qed.

End SingleAnalysis.

Lemma single_analysis_witness :
  GeminiAnalysis.resultsSet
    (GeminiAnalysis.handleAnalyze "key" [Samples.scene 1]
       (Scenarios.clipFile "clip")
       (Samples.softFailingAt (fun _ => true)) None)
  = [None;
     Some {| GeminiAnalysis.vibeExtraction := None;
             GeminiAnalysis.ar_imagePrompts := Some ["a frame"];
             GeminiAnalysis.ar_videoPrompt := Some "a film" |}].
Proof.
  pose proof (single_analysis_publishes_all_or_nothing "key"
                [Samples.scene 1] (Scenarios.clipFile "clip")
                (Samples.softFailingAt (fun _ => true)) None eq_refl)
    as (_ & _ & _ & H & _).
  destruct (H _ _ _ eq_refl eq_refl eq_refl) as (_ & H2 & _).
  exact H2.
Defined.

(** ** The upload zone *)
Module UploadZoneFacts.

Import UploadZone.

Lemma filter_split_length {A} (p : A -> bool) (l : list A) :
  List.length (filter p l) + List.length (filter (fun x => negb (p x)) l)
  = List.length l.
Proof.
  induction l as [|a l IH]; cbn; [reflexivity|].
  destruct (p a); cbn; lia.
Qed.

Lemma filter_nonempty {A} (p : A -> bool) (l : list A) (x : A) :
  In x l -> p x = true -> filter p l <> [].
Proof.
  intros Hin Hp Hnil.
  assert (H : In x (filter p l)) by (apply filter_In; auto).
  rewrite Hnil in H. exact H.
Qed.

(** X22.  A drop calls the upload at most once, never while a run is
    loading and never with an empty list: what it uploads are the dropped
    files whose media type starts with video/, in the order of the drop.
    When some but not all dropped files are videos, the alert names the
    number of files that are left out.  The file picker has no such
    filter: it uploads every chosen file. *)
Theorem drop_uploads_only_the_videos (isLoading : bool)
    (files : list Offered) :
  (forall fs, In fs (uploads (handleDrop isLoading files)) ->
     isLoading = false /\ fs <> []
     /\ fs = map offered (filter isVideo files))
  /\ List.length (uploads (handleDrop isLoading files)) <= 1
  /\ (forall v, In v files -> isVideo v = true ->
        uploads (handleDrop false files)
        = [map offered (filter isVideo files)])
  /\ (forall v o, In v files -> isVideo v = true ->
        In o files -> isVideo o = false ->
        In (Alert (show_nat
                     (List.length
                        (filter (fun f => negb (isVideo f)) files))
                   ++ " non-video file(s) were skipped.")%string)
           (handleDrop false files))
  /\ (forall f rest, files = f :: rest ->
        uploads (handleFileChange files) = [map offered files]).
Proof.
  assert (Hshape : forall l,
    uploads (handleDrop l files)
    = if l then []
      else match filter isVideo files with
           | [] => []
           | _ :: _ => [map offered (filter isVideo files)]
           end).
  { intros l. unfold handleDrop. destruct l; [reflexivity|].
    destruct files as [|f rest]; [reflexivity|].
    cbv zeta. destruct (filter isVideo (f :: rest)) as [|v vs] eqn:Hf;
      [reflexivity|].
    cbn [uploads flat_map app].
    destruct (_ <? _)%nat; cbn; reflexivity. }
  split; [|split; [|split; [|split]]].
  - intros fs Hin. rewrite Hshape in Hin.
    destruct isLoading; [destruct Hin|].
    destruct (filter isVideo files) as [|v vs] eqn:Hf; [destruct Hin|].
    destruct Hin as [<-|[]]. repeat split. discriminate.
  - rewrite Hshape. destruct isLoading; cbn; [lia|].
    destruct (filter isVideo files); cbn; lia.
  - intros v Hin Hv. rewrite Hshape.
    pose proof (filter_nonempty isVideo files v Hin Hv) as Hne.
    destruct (filter isVideo files); [contradiction|reflexivity].
  - intros v o Hv Hvt Ho Hof.
    pose proof (filter_nonempty isVideo files v Hv Hvt) as Hne.
    pose proof (filter_split_length isVideo files) as Hlen.
    assert (Hskip : filter (fun f => negb (isVideo f)) files <> []).
    { apply (filter_nonempty _ files o Ho). rewrite Hof. reflexivity. }
    unfold handleDrop. destruct files as [|f rest]; [destruct Hv|].
    cbv zeta. destruct (filter isVideo (f :: rest)) as [|w ws] eqn:Hf;
      [contradiction|].
    replace (List.length (f :: rest) - List.length (w :: ws))
      with (List.length (filter (fun f0 => negb (isVideo f0)) (f :: rest)))
      by lia.
    assert (Hlt : (List.length (w :: ws) <? List.length (f :: rest))%nat = true).
    { apply Nat.ltb_lt.
      destruct (filter (fun f0 => negb (isVideo f0)) (f :: rest));
        [contradiction|]. cbn [List.length] in *. lia. }
    rewrite Hlt. right. left. reflexivity.
  - intros f rest ->. reflexivity.
Qed.

End UploadZoneFacts.

(** ** The frames archive *)
Module FrameFacts.

Import Frames FrameTerms.
Local Open Scope string_scope.

Lemma uint_head (p : positive) :
  exists c r, JsNumber.digits p = String c r
              /\ c <> "0"%char /\ c <> "."%char.
Proof.
  unfold JsNumber.digits.
  assert (Hn : Pos.to_uint p = Decimal.nzhead (Pos.to_uint p)).
  { pose proof (DecimalPos.Unsigned.to_of (Pos.to_uint p)) as H.
    rewrite DecimalPos.Unsigned.of_to in H. cbn [N.to_uint] in H.
    rewrite H at 1. unfold Decimal.unorm.
    destruct (Decimal.nzhead (Pos.to_uint p)) eqn:E; try reflexivity.
    exfalso. apply (DecimalPos.Unsigned.to_uint_nonzero p).
    rewrite H. unfold Decimal.unorm. rewrite E. reflexivity. }
  pose proof (DecimalFacts.nzhead_nonzero (Pos.to_uint p)) as Hz.
  pose proof (DecimalPos.Unsigned.to_uint_nonnil p) as Hnil.
  rewrite <- Hn in Hz.
  destruct (Pos.to_uint p) as [|u|u|u|u|u|u|u|u|u|u];
    try contradiction;
    try (exfalso; exact (Hz u eq_refl));
    cbn [NilEmpty.string_of_uint]; eexists _, _;
    (split; [reflexivity|split; discriminate]).
Qed.

Lemma headed_toStringPos (s : positive) (n : Z) :
  headed (JsNumber.toStringPos s n).
Proof.
  destruct (uint_head s) as (c & r & Hd & H0 & Hp).
  unfold JsNumber.toStringPos, JsNumber.exponential. cbv zeta.
  destruct ((JsNumber.numDigits s <=? n)%Z && (n <=? 21)%Z).
  { right; right. rewrite Hd. cbn [append]. eauto. }
  destruct ((0 <? n)%Z && (n <=? 21)%Z) eqn:E2.
  { right; right. rewrite Hd.
    apply andb_true_iff in E2. destruct E2 as [E2 _].
    apply Z.ltb_lt in E2.
    destruct (Z.to_nat n) as [|k] eqn:Ek; [lia|].
    cbn [substring append]. eauto. }
  destruct ((-6 <? n)%Z && (n <=? 0)%Z).
  { right; left. cbn [append]. eauto. }
  right; right. rewrite Hd.
  destruct r; cbn [append]; eauto.
Qed.

Lemma headed_toString (x : number) : headed (JsNumber.toString x).
Proof.
  destruct x as [|neg s n]; cbn [JsNumber.toString]; [left; reflexivity|].
  destruct neg; cbn [JsNumber.signStr append].
  - right; right. eexists _, _. split; [reflexivity|split; discriminate].
  - apply headed_toStringPos.
Qed.

(** Padding to three characters keeps apart what [toString] keeps
    apart. *)
Lemma padStart_inj (s t : string) :
  headed s -> headed t -> padStart 3 s = padStart 3 t -> s = t.
Proof.
  unfold padStart, headed.
  intros Hs Ht.
  destruct s as [|a [|b [|c s]]]; destruct t as [|a' [|b' [|c' t]]];
    cbn [String.length Nat.sub JsNumber.zeros append];
    intros E;
    repeat match goal with
           | H : _ \/ _ |- _ => destruct H
           | H : exists _, _ |- _ => destruct H
           | H : _ /\ _ |- _ => destruct H
           end;
    try discriminate; try congruence.
Qed.

(** X23.  Two scenes get the same file name in the folder of their video
    only if their indexes are written alike: padding the index to three
    characters never makes two different indexes collide, so within one
    video no frame replaces the frame of a scene with another index. *)
Theorem frame_names_differ_when_indexes_differ (a b : SceneData) :
  JsNumber.toString (scene_index a) <> JsNumber.toString (scene_index b) ->
  fileName a <> fileName b.
Proof.
  intros Hne E. apply Hne. unfold fileName in E.
  cbn [append] in E. injection E as E.
  apply CsvFacts.append_inj_l in E.
  apply padStart_inj; auto using headed_toString.
Qed.

(** X24.  The data that is decoded for a frame is the text between the
    first and the second comma of its preview, the payload of a data
    address.  A preview without a comma is decoded as a whole, and so is
    one whose text after the first comma is empty: then the header is
    decoded along with it. *)
Theorem frame_data_is_the_text_after_the_first_comma
    (scene : SceneData) (header payload rest : string) :
  Csv.includes "," header = false ->
  Csv.includes "," payload = false ->
  (frame_preview scene = header -> base64Data scene = header)
  /\ (frame_preview scene = header ++ "," ++ payload ->
      base64Data scene
      = if String.eqb payload "" then header ++ "," else payload)
  /\ (frame_preview scene = header ++ "," ++ payload ++ "," ++ rest ->
      base64Data scene
      = if String.eqb payload "" then frame_preview scene else payload).
Proof.
  intros Hh Hp. unfold base64Data.
  split; [|split]; intros E; rewrite E.
  - rewrite (split_without _ _ Hh). reflexivity.
  - change (header ++ "," ++ payload) with (header ++ String "," payload).
    rewrite split_app, (split_without _ _ Hh), (split_without _ _ Hp).
    cbn [app nth_error]. destruct payload; reflexivity.
  - change (header ++ "," ++ payload ++ "," ++ rest)
      with (header ++ String "," (payload ++ String "," rest)).
    rewrite split_app, split_app, (split_without _ _ Hh),
      (split_without _ _ Hp).
    cbn [app nth_error]. destruct payload; reflexivity.
Qed.

End FrameFacts.

Lemma frame_names_witness :
  Frames.fileName (Samples.scene 7) = "scene_007_frame.png"
  /\ Frames.fileName (Samples.scene 12) = "scene_012_frame.png"
  /\ Frames.fileName (Samples.scene 7) <> Frames.fileName (Samples.scene 12).
Proof.
  split; [reflexivity|]. split; [reflexivity|].
  apply (FrameFacts.frame_names_differ_when_indexes_differ
           (Samples.scene 7) (Samples.scene 12)).
  vm_compute. discriminate.
Defined.

Lemma frame_data_witness :
  Frames.base64Data (Samples.scene 7) = "AAAA".
Proof.
  exact (proj1 (proj2
    (FrameFacts.frame_data_is_the_text_after_the_first_comma
       (Samples.scene 7) "data:image/png;base64" "AAAA" ""
       eq_refl eq_refl)) eq_refl).
Defined.

(** ** What is shown after an upload *)
Section ContentFacts.

Import UploadTerms Content.

Variable browser : App.Browser.

(** The back end answers for every file, or there is a first file for
    which it does not. *)
Lemma upload_cases (captured : Z) (files : list File) (i : nat) :
  (exists js,
     List.length js = List.length files
     /\ Forall (answeredWith browser captured) (answered i files js))
  \/ (exists l1 f l2 js message,
        files = l1 ++ f :: l2
        /\ List.length js = List.length l1
        /\ Forall (answeredWith browser captured) (answered i l1 js)
        /\ SceneDetection.analyzeVideoForScenes
             (App.backend browser (i + List.length l1) f captured)
           = Raised message).
Proof.
  revert i. induction files as [|f files IH]; intros i.
  - left. exists []. split; [reflexivity|constructor].
  - destruct (SceneDetection.analyzeVideoForScenes
                (App.backend browser i f captured)) as [j|message] eqn:E.
    + destruct (IH (S i)) as [(js & Hlen & Hall)
                             |(l1 & g & l2 & js & message & -> & Hlen & Hall & Hg)].
      * left. exists (j :: js). split; [cbn; lia|].
        rewrite answered_cons. constructor; [exact E | exact Hall].
      * right. exists (f :: l1), g, l2, (j :: js), message.
        split; [reflexivity|]. split; [cbn; lia|].
        split; [rewrite answered_cons; constructor; [exact E | exact Hall]|].
        cbn [List.length].
        replace (i + S (List.length l1)) with (S i + List.length l1) by lia.
        exact Hg.
    + right. exists [], f, files, [], message.
      split; [reflexivity|]. split; [reflexivity|].
      split; [constructor|]. cbn [List.length]. rewrite Nat.add_0_r. exact E.
Qed.

Lemma message_truthy (response : SceneDetection.Response OutputJson)
    (message : string) :
  SceneDetection.analyzeVideoForScenes response = Raised message ->
  truthy (Some message) = true /\ or_else (Some message) "" = message.
Proof.
  intros H. destruct (analyzeVideoForScenes_message _ _ H) as [[c ->]| ->];
    split; reflexivity.
Qed.

(** X25.  When the upload of at least one file has settled, the main area
    shows either the carousel with one result per file or the failure with
    the message of the service, which is never empty: it shows neither the
    progress nor the form.  The button of the failure leads back to the
    form with the default sensitivity.  A history entry that is opened
    after a failure stays hidden behind the failure, which is still shown;
    after a success it takes the place of the results. *)
Theorem upload_ends_in_results_or_failure
    (files : list File) (st : App.State) :
  files <> [] ->
  let st' := App.handleFileUpload browser files st in
  ((renderContent st' = Carousel (App.results st')
    /\ map file (App.results st') = files)
   \/ (exists message,
         renderContent st' = AnalysisFailed message
         /\ App.error st' = Some message /\ message <> ""
         /\ App.results st' = []))
  /\ renderContent (App.resetState st') = UploadForm 15 false
  /\ forall now entry entryName,
       renderContent (App.viewHistoryItem now entry entryName st')
       = match renderContent st' with
         | AnalysisFailed message => AnalysisFailed message
         | _ =>
             Carousel
               [{| id := "history-" ++ now;
                   videoName := entryName;
                   jsonData := entry;
                   file := {| file_name := entryName; size := 0%N |} |}]
         end.
Proof.
  intros Hne st'. subst st'. unfold App.handleFileUpload. cbv zeta.
  destruct (upload_cases (App.threshold st) files 0)
    as [(js & Hlen & Hall)|(l1 & f & l2 & js & message & -> & Hlen & Hall & Hf)].
  - match goal with
    | |- context [App.uploadFrom _ _ files 0 [] ?s] => set (s0 := s)
    end.
    destruct (uploadFrom_answered browser (App.threshold st) files js 0
                [] s0 Hlen Hall) as (E1 & _ & _ & E4 & _).
    change (App.error s0) with (@None string) in E4. cbn [app] in E1.
    assert (Hfiles : map file
                       (map (videoResultOf browser) (answered 0 files js))
                     = files).
    { rewrite map_map.
      rewrite <- (answered_files 0 files js Hlen) at 2.
      apply map_ext. reflexivity. }
    assert (Hpos : (0 <? List.length
                            (map (videoResultOf browser)
                               (answered 0 files js)))%nat = true).
    { apply Nat.ltb_lt. rewrite <- (length_map file), Hfiles.
      destruct files; [contradiction|cbn; lia]. }
    unfold renderContent, App.viewHistoryItem.
    cbn [App.error App.results App.isLoading App.videoFiles
         App.threshold App.resetState List.length].
    rewrite E1, E4. cbn [truthy]. rewrite Hpos.
    split; [left; split; [reflexivity | exact Hfiles]|].
    split; reflexivity.
  - match goal with
    | |- context [App.uploadFrom _ _ (l1 ++ f :: l2) 0 [] ?s] =>
        set (s0 := s)
    end.
    destruct (uploadFrom_failing browser (App.threshold st) l1 js f l2
                message 0 [] s0 Hlen Hall Hf) as (E1 & _ & _ & E4 & _).
    change (App.results s0) with (@nil VideoResult) in E1.
    destruct (message_truthy _ _ Hf) as (Ht & Ho).
    unfold renderContent, App.viewHistoryItem.
    cbn [App.error App.results App.isLoading App.videoFiles
         App.threshold App.resetState List.length].
    rewrite E1, E4, Ht, Ho.
    split; [right; exists message; repeat split|].
    + intros ->. discriminate.
    + split; reflexivity.
Qed.

End ContentFacts.

Lemma upload_view_witness :
  Content.renderContent
    (App.handleFileUpload Scenarios.browser
       [Scenarios.clipFile "a"; Scenarios.clipFile "broken"]
       Scenarios.tuned)
  = Content.AnalysisFailed "Failed to analyze video: decoder crashed"
  /\ Content.renderContent
       (App.viewHistoryItem "1700000000000" (Scenarios.analysed "earlier")
          "earlier"
          (App.handleFileUpload Scenarios.browser
             [Scenarios.clipFile "a"; Scenarios.clipFile "broken"]
             Scenarios.tuned))
     = Content.AnalysisFailed "Failed to analyze video: decoder crashed".
Proof.
  assert (Hne : [Scenarios.clipFile "a"; Scenarios.clipFile "broken"] <> [])
    by discriminate.
  pose proof (upload_ends_in_results_or_failure Scenarios.browser
                [Scenarios.clipFile "a"; Scenarios.clipFile "broken"]
                Scenarios.tuned Hne) as (_ & _ & H).
  split; [reflexivity|].
  rewrite (H "1700000000000" (Scenarios.analysed "earlier") "earlier").
  reflexivity.
Defined.

(** ** The export read back *)
Module CsvReadBack.

Import Csv TextTerms CsvReader.
Local Open Scope string_scope.

(** A run of characters without comma, double quote or line feed is read
    into the field. *)
Lemma read_plain (v f t : string) (record : list string) :
  needsQuotes v = false ->
  read Plain f record (v ++ t) = read Plain (f ++ v) record t.
Proof.
  revert f. induction v as [|c v IH]; intros f H; cbn [append].
  - rewrite append_nil_r. reflexivity.
  - unfold needsQuotes in H. cbn [includes] in H.
    apply orb_false_elim in H. destruct H as [H H3].
    apply orb_false_elim in H. destruct H as [H1 H2].
    apply orb_false_elim in H1. destruct H1 as [H1 H1'].
    apply orb_false_elim in H2. destruct H2 as [H2 H2'].
    apply orb_false_elim in H3. destruct H3 as [H3 H3'].
    cbn [read].
    rewrite (Ascii.eqb_sym c Json.dquote), H2, (Ascii.eqb_sym c ","), H1,
      (Ascii.eqb_sym c newline), H3.
    rewrite IH.
    + rewrite append_assoc. reflexivity.
    + unfold needsQuotes. rewrite H1', H2', H3'. reflexivity.
Qed.

(** Inside the quotes the doubled text is read as the text. *)
Lemma read_quoted (v f t : string) (record : list string) :
  read Quoted f record (doubleQuotes v ++ String Json.dquote t)
  = read QuoteSeen (f ++ v) record t.
Proof.
  revert f. induction v as [|c v IH]; intros f; cbn [doubleQuotes append].
  - cbn [read]. rewrite Ascii.eqb_refl, append_nil_r. reflexivity.
  - destruct (Ascii.eqb c Json.dquote) eqn:E; cbn [append read]; rewrite ?E.
    + rewrite IH, append_assoc. reflexivity.
    + rewrite IH, append_assoc. reflexivity.
Qed.

(** After a field the two modes go on alike. *)
Lemma read_after (f t : string) (record : list string) :
  afterField t -> read QuoteSeen f record t = read Plain f record t.
Proof.
  intros [->|[[t' ->]|[t' ->]]]; reflexivity.
Qed.

(** A field of the export is read as the value it was made from. *)
Lemma read_field (v t : string) (record : list string) :
  afterField t ->
  read Plain "" record (escapeCSV v ++ t) = read Plain v record t.
Proof.
  intros Ht. rewrite CsvFacts.escapeCSV_unfold.
  destruct (needsQuotes v) eqn:E.
  - cbn [append read]. rewrite Ascii.eqb_refl.
    rewrite append_assoc. cbn [append].
    rewrite read_quoted. cbn [append]. apply read_after. exact Ht.
  - rewrite (read_plain v "" t record E). reflexivity.
Qed.

(** A line of the export is read as its fields. *)
Lemma read_line (fields : list string) (record : list string) :
  fields <> [] ->
  read Plain "" record (String.concat "," (map escapeCSV fields))
  = [(record ++ fields)%list]
  /\ forall t,
       read Plain "" record
         (String.concat "," (map escapeCSV fields) ++ String newline t)
       = (record ++ fields)%list :: read Plain "" [] t.
Proof.
  revert record. induction fields as [|v fields IH]; intros record Hne;
    [contradiction|].
  destruct fields as [|w fields].
  - cbn [map String.concat]. split.
    + rewrite <- (append_nil_r (escapeCSV v)).
      rewrite read_field by (left; reflexivity). reflexivity.
    + intros t. rewrite read_field by (right; right; eauto). cbn [read].
      reflexivity.
  - assert (Hw : w :: fields <> []) by discriminate.
    destruct (IH (record ++ [v])%list Hw) as (IH1 & IH2).
    change (String.concat "," (map escapeCSV (v :: w :: fields)))
      with (escapeCSV v
            ++ String "," (String.concat "," (map escapeCSV (w :: fields)))).
    split.
    + rewrite read_field by (right; left; eauto). cbn [read].
      change (Ascii.eqb "," Json.dquote) with false.
      rewrite Ascii.eqb_refl. cbv iota.
      rewrite IH1, <- app_assoc. reflexivity.
    + intros t. rewrite append_assoc. cbn [append].
      rewrite read_field by (right; left; eauto). cbn [read].
      change (Ascii.eqb "," Json.dquote) with false.
      rewrite Ascii.eqb_refl. cbv iota.
      rewrite IH2, <- app_assoc. reflexivity.
Qed.

Lemma read_lines (line : list string) (lines : list (list string)) :
  Forall (fun l => l <> []) (line :: lines) ->
  read Plain "" []
    (String.concat (String newline "")
       (map (fun l => String.concat "," (map escapeCSV l)) (line :: lines)))
  = line :: lines.
Proof.
  revert line. induction lines as [|l lines IH]; intros line H;
    inversion H as [|x xs Hx Hrest]; subst.
  - cbn [map String.concat]. apply (proj1 (read_line line [] Hx)).
  - change (String.concat (String newline "")
              (map (fun l0 => String.concat "," (map escapeCSV l0))
                 (line :: l :: lines)))
      with (String.concat "," (map escapeCSV line)
            ++ String newline
                 (String.concat (String newline "")
                    (map (fun l0 => String.concat "," (map escapeCSV l0))
                       (l :: lines)))).
    rewrite (proj2 (read_line line [] Hx)). cbn [app].
    rewrite (IH l Hrest). reflexivity.
Qed.

(** X26.  The text of the export, read back by the usual rules for
    comma-separated values, gives the header and then one record of six
    fields per result, each field with exactly the text that went into
    it: whatever commas, double quotes and line feeds the names, the JSON
    and the prompts hold, no field is split, merged or altered. *)
Theorem export_reads_back_as_it_was_written
    (resultsToExport : list VideoResult) :
  readCSV (csvContent resultsToExport)
  = headers :: map row resultsToExport
  /\ Forall (fun record => List.length record = 6)
       (readCSV (csvContent resultsToExport)).
Proof.
  assert (H : readCSV (csvContent resultsToExport)
              = headers :: map row resultsToExport).
  { unfold readCSV, csvContent.
    rewrite <- (map_map row (fun l => String.concat "," (map escapeCSV l))).
    apply (read_lines headers (map row resultsToExport)).
    constructor; [discriminate|].
    apply Forall_forall. intros l Hl. apply in_map_iff in Hl.
    destruct Hl as (r & <- & _). discriminate. }
  split; [exact H|]. rewrite H.
  constructor; [reflexivity|].
  apply Forall_forall. intros l Hl. apply in_map_iff in Hl.
  destruct Hl as (r & <- & _). reflexivity.
Qed.

End CsvReadBack.
